(** * robust_crawl_to_jsonl: a shallow embedding of the site crawler

    The development follows [construct_data/robust_crawl_to_jsonl.py]:
    first the string utilities the module relies on (Python's [str]
    methods, [re.split], [os.path.splitext], [urllib.parse]), then the pure
    helpers ([normalize_url], [url_to_relpath], [chunk_text]), then the
    [Crawler] object as an explicit state record with its methods, and last
    the properties of the crawl.

    Python strings are lists of characters; a character is a code point
    below 256.  Sets ([visited], [chunk_hashes]) are [gset]s. *)

From Stdlib Require Import List Ascii String ZArith Lia Bool.
From stdpp Require Import gmap strings list.
Import ListNotations.

#[local] Open Scope Z_scope.

Abbreviation str := (list ascii).

(** A string literal as a Python [str]. *)
Definition L (s : string) : str := list_ascii_of_string s.

(** ** Python's [str] methods *)
Module PyStr.

(** Truthiness of a string: [if s] holds for the non-empty ones. *)
Definition truthy (s : str) : bool :=
  match s with [] => false | _ :: _ => true end.

Definition len (s : str) : Z := Z.of_nat (length s).

(** Truthiness of a list or deque. *)
Definition truthy_list {A : Type} (l : list A) : bool :=
  match l with [] => false | _ :: _ => true end.

Definition eqb (a b : str) : bool := bool_decide (a = b).

(** [s.startswith(p)] *)
Fixpoint startswith (p s : str) : bool :=
  match p, s with
  | [], _ => true
  | _ :: _, [] => false
  | a :: p', b :: s' => Ascii.eqb a b && startswith p' s'
  end.

(** [s.endswith(p)] *)
Definition endswith (p s : str) : bool := startswith (rev p) (rev s).

(** [sub in s] *)
Fixpoint contains (sub s : str) : bool :=
  startswith sub s ||
  match s with
  | [] => false
  | _ :: s' => contains sub s'
  end.

(** [c in s] for a single character. *)
Definition has_char (c : ascii) (s : str) : bool :=
  existsb (Ascii.eqb c) s.

(** [s.lstrip(chars)], [s.rstrip(chars)] with [chars] given as a
    predicate. *)
Fixpoint lstrip_by (P : ascii -> bool) (s : str) : str :=
  match s with
  | [] => []
  | c :: s' => if P c then lstrip_by P s' else s
  end.

Definition rstrip_by (P : ascii -> bool) (s : str) : str :=
  rev (lstrip_by P (rev s)).

Definition lstrip_chars (chars s : str) : str :=
  lstrip_by (fun c => has_char c chars) s.

Definition rstrip_chars (chars s : str) : str :=
  rstrip_by (fun c => has_char c chars) s.

(** [c.isspace()] for code points below 256: TAB, LF, VT, FF, CR, the
    separators FS, GS, RS, US, the space, NEL and the no-break space. *)
Definition isspace (c : ascii) : bool :=
  let n := N_of_ascii c in
  ((9 <=? n) && (n <=? 13) || (28 <=? n) && (n <=? 32)
   || (n =? 133) || (n =? 160))%N.

(** [s.strip()] *)
Definition strip (s : str) : str := rstrip_by isspace (lstrip_by isspace s).

(** [s[a:]] and [s[:b]] for an integer bound, negative bounds counting
    from the end and out-of-range bounds clamped. *)
Definition clamp_index (i : Z) (s : str) : nat :=
  if i <? 0 then Z.to_nat (Z.max 0 (len s + i))
  else Z.to_nat (Z.min i (len s)).

Definition slice_from (a : Z) (s : str) : str := skipn (clamp_index a s) s.
Definition slice_to (b : Z) (s : str) : str := firstn (clamp_index b s) s.

(** [s.lower()]: the ASCII capitals and, above them, the Latin-1
    capitals (192 to 222 without the multiplication sign 215). *)
Definition lower_char (c : ascii) : ascii :=
  let n := N_of_ascii c in
  if ((65 <=? n) && (n <=? 90)
      || (192 <=? n) && (n <=? 222) && negb (n =? 215))%N
  then ascii_of_N (n + 32) else c.

Definition lower (s : str) : str := map lower_char s.

(** [s.replace(old, new)] for a non-empty [old]: occurrences are
    replaced from the left, without overlap.  [skip] counts the
    characters of a matched occurrence still to be dropped. *)
Fixpoint replace_from (old new : str) (skip : nat) (s : str) : str :=
  match s with
  | [] => []
  | c :: s' =>
      match skip with
      | S k => replace_from old new k s'
      | O =>
          if startswith old s
          then new ++ replace_from old new (Nat.pred (length old)) s'
          else c :: replace_from old new O s'
      end
  end.

Definition replace (old new s : str) : str := replace_from old new O s.

End PyStr.

(** ** [re.split(r"\n{2,}", text)]

    The pattern matches a maximal run of two or more line feeds.  [cur]
    holds the current piece in reverse, [run] the number of line feeds read
    since its last character. *)
Definition LF : ascii := ascii_of_N 10.

Fixpoint re_split_blank_lines (s : str) (cur : str) (run : nat) : list str :=
  match s with
  | [] =>
      match run with
      | O => [rev cur]
      | S O => [rev (LF :: cur)]
      | _ => [rev cur; []]
      end
  | c :: s' =>
      if Ascii.eqb c LF then re_split_blank_lines s' cur (S run)
      else
        match run with
        | O => re_split_blank_lines s' (c :: cur) O
        | S O => re_split_blank_lines s' (c :: LF :: cur) O
        | _ => rev cur :: re_split_blank_lines s' [c] O
        end
  end.

Definition re_split_paragraphs (text : str) : list str :=
  re_split_blank_lines text [] O.

(** ** [chunk_text] *)

(** One pass of the [for p in paras] loop over the pair [(chunks, buf)]. *)
Definition chunk_step (max_chars overlap : Z) (st : list str * str) (p : str)
  : list str * str :=
  let '(chunks, buf) := st in
  if PyStr.len buf + PyStr.len p + 1 <=? max_chars then
    (chunks, PyStr.strip (buf ++ [LF] ++ p))
  else
    let chunks' := if PyStr.truthy buf then chunks ++ [buf] else chunks in
    let buf' :=
      if negb (overlap =? 0) && (overlap <? PyStr.len buf)
      then PyStr.strip (PyStr.slice_from (- overlap) buf ++ [LF] ++ p)
      else p in
    (chunks', buf').

Definition chunk_text (text : str) (max_chars overlap : Z) : list str :=
  if max_chars <=? 0 then
    (if PyStr.truthy text then [text] else [])
  else
    let paras :=
      map PyStr.strip
          (List.filter (fun p => PyStr.truthy (PyStr.strip p))
                  (re_split_paragraphs text)) in
    let '(chunks, buf) := fold_left (chunk_step max_chars overlap) paras ([], []) in
    let chunks := if PyStr.truthy buf then chunks ++ [buf] else chunks in
    match chunks with
    | _ :: _ => chunks
    | [] =>
        if PyStr.truthy (PyStr.strip text)
        then [PyStr.slice_to max_chars text]
        else []
    end.

(** The two paragraphs of the chunking scenario. *)
Definition para_one : str := L "Para one text here.".
Definition para_two : str := L "Para two also here.".

Definition two_paragraphs : str := para_one ++ [LF; LF] ++ para_two.


(** ** Exceptions

    A call either returns or raises; [Raise] carries which exception. *)
Inductive exn : Set :=
| ValueError          (* urllib.parse rejects a network location *)
| TransportError      (* requests fails to obtain a response *)
| RobotsError         (* the robots parser fails on a query *)
| ExtractionError     (* BeautifulSoup fails on a page body *)
| ZeroDivisionError.  (* [pages_fetched % heartbeat_every] with 0 *)

Inductive result (A : Type) : Type :=
| Ok (a : A)
| Raise (e : exn).
Arguments Ok {A} a.
Arguments Raise {A} e.

Definition rbind {A B : Type} (m : result A) (k : A -> result B) : result B :=
  match m with
  | Ok a => k a
  | Raise e => Raise e
  end.

Notation "'let!' x ':=' m 'in' k" := (rbind m (fun x => k))
  (at level 10, x pattern, m at level 200, k at level 200).

(** ** [os.path] and [urllib.parse] *)

(** [span_until P s] cuts [s] before its first character satisfying [P]:
    for [i = s.find(c)] found it is [(s[:i], s[i:])], otherwise
    [(s, "")]. *)
Fixpoint span_until (P : ascii -> bool) (s : str) : str * str :=
  match s with
  | [] => ([], [])
  | c :: s' =>
      if P c then ([], s)
      else let '(a, b) := span_until P s' in (c :: a, b)
  end.

(** [rpartition c s]: the parts before and after the last [c] of [s], for
    [i = s.rfind(c)] found [(s[:i], s[i+1:])]. *)
Definition rpartition (c : ascii) (s : str) : option (str * str) :=
  match span_until (Ascii.eqb c) (rev s) with
  | (a, _ :: b) => Some (rev b, rev a)
  | (_, []) => None
  end.

Definition is_char (c : ascii) : ascii -> bool := Ascii.eqb c.

(** The last component of a path: what follows its last slash. *)
Definition last_segment (s : str) : str :=
  match rpartition "/" s with Some (_, b) => b | None => s end.

(** [os.path.splitext(p)[1]] (posixpath): the extension starts at the last
    dot of the last path component, leading dots of the component apart. *)
Definition splitext_ext (p : str) : str :=
  let base := last_segment p in
  match rpartition "." base with
  | Some (stem, e) =>
      if forallb (is_char ".") stem then [] else "."%char :: e
  | None => []
  end.

Module UrlLib.

Record ParseResult : Type := mkParse {
  scheme : str;
  netloc : str;
  path : str;
  params : str;
  query : str;
  fragment : str
}.

Definition is_alpha (c : ascii) : bool :=
  let n := N_of_ascii c in
  ((65 <=? n) && (n <=? 90) || (97 <=? n) && (n <=? 122))%N.

Definition is_digit (c : ascii) : bool :=
  let n := N_of_ascii c in ((48 <=? n) && (n <=? 57))%N.

(** [scheme_chars]: letters, digits and [+-.] *)
Definition scheme_char (c : ascii) : bool :=
  is_alpha c || is_digit c || is_char "+" c || is_char "-" c || is_char "." c.

(** [_WHATWG_C0_CONTROL_OR_SPACE] *)
Definition c0_control_or_space (c : ascii) : bool := (N_of_ascii c <=? 32)%N.

(** [_UNSAFE_URL_BYTES_TO_REMOVE]: TAB, CR, LF *)
Definition unsafe_url_byte (c : ascii) : bool :=
  let n := N_of_ascii c in ((n =? 9) || (n =? 13) || (n =? 10))%N.

Definition netloc_delim (c : ascii) : bool :=
  is_char "/" c || is_char "?" c || is_char "#" c.

(** The scheme test of [urlsplit]: [i = url.find(':')], [i > 0], a letter
    first and only scheme characters before the colon. *)
Definition split_scheme (url : str) : str * str :=
  match span_until (is_char ":") url with
  | (c :: pre, _ :: rest) =>
      if is_alpha c && forallb scheme_char (c :: pre)
      then (PyStr.lower (c :: pre), rest)
      else ([], url)
  | _ => ([], url)
  end.

(** [url.split(c, 1)] guarded by [c in url]. *)
Definition split_once (c : ascii) (url : str) : str * str :=
  match span_until (is_char c) url with
  | (a, _ :: b) => (a, b)
  | (a, []) => (a, [])
  end.

(** The bracket test of [urlsplit] on a network location. *)
Definition brackets_unbalanced (nl : str) : bool :=
  let o := PyStr.has_char "[" nl in
  let c := PyStr.has_char "]" nl in
  (o && negb c) || (c && negb o).

Section Parse.
(** [netloc_ok nl] holds when [_check_bracketed_host] accepts the host
    between the brackets of [nl].  It is consulted only when both
    brackets occur.  ([_checknetloc] never raises on code points below
    256: no NFKC form of such a character contains one of [/?#@:].) *)
Variable netloc_ok : str -> bool.

Definition netloc_rejected (nl : str) : bool :=
  brackets_unbalanced nl
  || (PyStr.has_char "[" nl && PyStr.has_char "]" nl && negb (netloc_ok nl)).

(** [urlsplit] after the scheme is cut off: network location,
    fragment, query. *)
Definition split_hier (sch url : str) : result ParseResult :=
  let! (nl, url) :=
    (if PyStr.startswith (L "//") url then
       let '(nl, rest) := span_until netloc_delim (skipn 2 url) in
       if netloc_rejected nl
       then Raise ValueError
       else Ok (nl, rest)
     else Ok ([], url)) in
  let '(url, frag) := split_once "#" url in
  let '(url, qry) := split_once "?" url in
  Ok (mkParse sch nl url [] qry frag).

Definition urlsplit (url0 : str) : result ParseResult :=
  let url := PyStr.lstrip_by c0_control_or_space url0 in
  let url := List.filter (fun c => negb (unsafe_url_byte c)) url in
  let '(sch, url) := split_scheme url in
  split_hier sch url.

End Parse.

(** [uses_params] *)
Definition uses_params : list str :=
  map L [""; "ftp"; "hdl"; "prospero"; "http"; "imap"; "https"; "shttp";
         "rtsp"; "rtsps"; "rtspu"; "sip"; "sips"; "mms"; "sftp"; "tel"]%string.

(** [uses_netloc] *)
Definition uses_netloc : list str :=
  map L [""; "ftp"; "http"; "gopher"; "nntp"; "telnet"; "imap"; "wais";
         "file"; "mms"; "https"; "shttp"; "snews"; "prospero"; "rtsp";
         "rtsps"; "rtspu"; "rsync"; "svn"; "svn+ssh"; "sftp"; "nfs"; "git";
         "git+ssh"; "ws"; "wss"; "itms-services"]%string.

Definition str_in (s : str) (l : list str) : bool := existsb (PyStr.eqb s) l.

(** [_splitparams] *)
Definition splitparams (url : str) : str * str :=
  match rpartition "/" url with
  | Some (dir, base) =>
      (* i = url.find(';', url.rfind('/')) *)
      match span_until (is_char ";") base with
      | (_, []) => (url, [])
      | (pre, _ :: post) => (dir ++ "/"%char :: pre, post)
      end
  | None =>
      (* i = url.find(';') *)
      match span_until (is_char ";") url with
      | (pre, _ :: post) => (pre, post)
      | (_, []) => (PyStr.slice_to (-1) url, url)
      end
  end.

Definition urlparse (netloc_ok : str -> bool) (url : str) : result ParseResult :=
  let! r := urlsplit netloc_ok url in
  if str_in (scheme r) uses_params && PyStr.has_char ";" (path r) then
    let '(p, prm) := splitparams (path r) in
    Ok (mkParse (scheme r) (netloc r) p prm (query r) (fragment r))
  else Ok r.

Definition urlunsplit (sch nl url qry frag : str) : str :=
  let url :=
    if PyStr.truthy nl then
      let url :=
        if PyStr.truthy url && negb (PyStr.startswith (L "/") url)
        then "/"%char :: url else url in
      L "//" ++ nl ++ url
    else if PyStr.startswith (L "//") url then L "//" ++ url
    else if PyStr.truthy sch && str_in sch uses_netloc
            && (negb (PyStr.truthy url) || PyStr.startswith (L "/") url)
    then L "//" ++ url
    else url in
  let url := if PyStr.truthy sch then sch ++ ":"%char :: url else url in
  let url := if PyStr.truthy qry then url ++ "?"%char :: qry else url in
  if PyStr.truthy frag then url ++ "#"%char :: frag else url.

Definition urlunparse (r : ParseResult) : str :=
  let url :=
    if PyStr.truthy (params r) then path r ++ ";"%char :: params r
    else path r in
  urlunsplit (scheme r) (netloc r) url (query r) (fragment r).

End UrlLib.


(** ** External capabilities

    What the module obtains from its libraries and from the network.  The
    crawler is defined over any implementation of this interface. *)
Class Capabilities : Type := {
  (** validation of a bracketed host inside [urllib.parse.urlsplit] *)
  netloc_ok : str -> bool;
  (** [urllib.parse.urljoin(base, href)] *)
  urljoin : str -> str -> result str;
  (** [RobotFileParser.can_fetch(user_agent, url)] on the loaded policy *)
  robots_can_fetch : str -> result bool;
  (** the [<loc>] entries yielded by [parse_sitemap_candidates(base_url)] *)
  sitemap_locs : str -> list str;
  (** [session.get(url)]: the status code and body of the [n]-th request
      of the run, or a transport exception *)
  http_get : nat -> str -> result (Z * str);
  (** the body of [extract_text_and_title]: [(text, title)] of a page *)
  soup_text_and_title : str -> result (str * str);
  (** the [href] attributes of [soup.find_all("a", href=True)], in
      document order *)
  anchor_hrefs : str -> list str;
  (** [hashlib.sha1(s.encode("utf-8")).hexdigest()] *)
  sha1_hex : str -> str;
  (** [str(Path(rel).with_suffix(".txt"))] *)
  with_suffix_txt : str -> str;
  (** whether SIGINT is delivered before the [n]-th test of the crawl
      loop's condition *)
  sigint_before : nat -> bool
}.

(** ** Utilities of the module *)

Definition ALLOWED_SCHEMES : list str := [L "http"; L "https"].

Definition HTML_EXTS : list str :=
  map L [".html"; ".htm"; ".md"; ".txt"; ".php"; ".aspx"; ""]%string.

Section Utilities.
Context {W : Capabilities}.

Definition urlparse (url : str) : result UrlLib.ParseResult :=
  UrlLib.urlparse netloc_ok url.

Definition normalize_url (url : str) : result str :=
  let! p := urlparse url in
  if negb (UrlLib.str_in (UrlLib.scheme p) ALLOWED_SCHEMES) then Ok []
  else
    let path := if PyStr.truthy (UrlLib.path p) then UrlLib.path p else L "/" in
    let ext := splitext_ext path in
    let path :=
      if negb (PyStr.truthy ext) && negb (PyStr.endswith (L "/") path)
      then path ++ L "/" else path in
    Ok (UrlLib.urlunparse
          (UrlLib.mkParse (UrlLib.scheme p) (UrlLib.netloc p) path
                          (UrlLib.params p) [] [])).

Definition is_within_base (url base_netloc base_path : str) : result bool :=
  let! p := urlparse url in
  Ok (PyStr.eqb (UrlLib.netloc p) base_netloc
      && PyStr.startswith base_path (UrlLib.path p)).

(** The body of [url_to_relpath] after [path = urlparse(url).path]. *)
Definition relpath_of_path (path base_path : str) : str :=
  let rel :=
    if negb (PyStr.startswith base_path path)
    then PyStr.lstrip_chars (L "/") path
    else PyStr.lstrip_chars (L "/") (skipn (length base_path) path) in
  let root_like := negb (PyStr.truthy rel) || PyStr.endswith (L "/") rel in
  let rel :=
    if root_like || negb (PyStr.truthy (splitext_ext rel))
    then PyStr.lstrip_chars (L "/")
           (PyStr.rstrip_chars (L "/") rel ++ L "/index.html")
    else rel in
  let rel := PyStr.replace (L "..") (L "_") rel in
  if PyStr.truthy rel then rel else L "index.html".

Definition url_to_relpath (url base_path : str) : result str :=
  let! p := urlparse url in
  Ok (relpath_of_path (UrlLib.path p) base_path).

Definition extract_text_and_title (html : str) : result (str * str) :=
  soup_text_and_title html.

Definition hash_text (s : str) : str := sha1_hex s.

End Utilities.

(** ** Data structures *)

Record Stats : Type := mkStats {
  pages_fetched : Z;
  pages_skipped : Z;
  pages_failed : Z;
  chunks_written : Z;
  chunks_deduped : Z;
  queue_peek : Z
}.

Definition Stats0 : Stats := mkStats 0 0 0 0 0 0.

(** The [id] of an output record: ["page-{page_id}"] or
    ["page-{page_id}-c{ci}"]. *)
Inductive RecordId : Type :=
| PageId (page_id : Z)
| PageChunkId (page_id : Z) (ci : nat).

(** A line of [corpus_full.jsonl]. *)
Record FullRecord : Type := mkFull {
  fr_id : RecordId;
  fr_url : str;
  fr_title : str;
  fr_chunk_index : nat;
  fr_chunk_count : nat;
  fr_contents : str;
  fr_hash : str
}.

(** A line of [corpus_min.jsonl]. *)
Record MinRecord : Type := mkMin {
  mr_id : RecordId;
  mr_contents : str
}.

(** A data row of [manifest.csv]; the header line is left out of the
    model. *)
Record ManifestRow : Type := mkRow {
  mf_id : RecordId;
  mf_url : str;
  mf_title : str;
  mf_html_path : str;
  mf_txt_path : str;
  mf_chars : Z
}.

(** The files of [--out-dir] the crawler reads or writes; [None] is a
    file that does not exist. *)
Record OutDir : Type := mkOutDir {
  corpus_full : option (list FullRecord);
  corpus_min : option (list MinRecord);
  manifest_csv : option (list ManifestRow);
  stats_json : option Stats
}.

Definition empty_dir : OutDir := mkOutDir None None None None.

(** The command-line options the crawl depends on; [include_re] and
    [exclude_re] are the compiled patterns' [search], [None] when the
    option is empty. *)
Record Config : Type := mkConfig {
  cfg_base_url : str;
  cfg_max_pages : Z;
  cfg_include_re : option (str -> bool);
  cfg_exclude_re : option (str -> bool);
  cfg_respect_robots : bool;
  cfg_use_sitemap : bool;
  cfg_resume : bool;
  cfg_chunk_size : Z;
  cfg_chunk_overlap : Z;
  cfg_heartbeat_every : Z;
  cfg_save_html : bool;
  cfg_save_text : bool
}.

(** ** Crawler *)

(** The attributes of a [Crawler] object.  [fw_full], [fw_min] and
    [fw_mani] hold what has been written through the three append-mode
    handles.  The last two fields are history variables that the source
    does not have: the URLs handed to [fetch] and the chunk hashes computed
    by [write_records], both in order. *)
Record Crawler : Type := mkCrawler {
  cfg : Config;
  base_url : str;
  base_netloc : str;
  base_path : str;
  visited : gset str;
  queue : list str;
  page_id : Z;
  stats : Stats;
  chunk_hashes : gset str;
  fw_full : list FullRecord;
  fw_min : list MinRecord;
  fw_mani : list ManifestRow;
  fetched : list str;
  hashed : list str
}.

Definition set_visited (v : gset str) (c : Crawler) : Crawler :=
  mkCrawler (cfg c) (base_url c) (base_netloc c) (base_path c) v (queue c)
            (page_id c) (stats c) (chunk_hashes c) (fw_full c) (fw_min c)
            (fw_mani c) (fetched c) (hashed c).

Definition set_queue (q : list str) (c : Crawler) : Crawler :=
  mkCrawler (cfg c) (base_url c) (base_netloc c) (base_path c) (visited c) q
            (page_id c) (stats c) (chunk_hashes c) (fw_full c) (fw_min c)
            (fw_mani c) (fetched c) (hashed c).

Definition set_page_id (i : Z) (c : Crawler) : Crawler :=
  mkCrawler (cfg c) (base_url c) (base_netloc c) (base_path c) (visited c)
            (queue c) i (stats c) (chunk_hashes c) (fw_full c) (fw_min c)
            (fw_mani c) (fetched c) (hashed c).

Definition set_stats (s : Stats) (c : Crawler) : Crawler :=
  mkCrawler (cfg c) (base_url c) (base_netloc c) (base_path c) (visited c)
            (queue c) (page_id c) s (chunk_hashes c) (fw_full c) (fw_min c)
            (fw_mani c) (fetched c) (hashed c).

Definition set_fetched (l : list str) (c : Crawler) : Crawler :=
  mkCrawler (cfg c) (base_url c) (base_netloc c) (base_path c) (visited c)
            (queue c) (page_id c) (stats c) (chunk_hashes c) (fw_full c)
            (fw_min c) (fw_mani c) l (hashed c).

Definition set_hashed (l : list str) (c : Crawler) : Crawler :=
  mkCrawler (cfg c) (base_url c) (base_netloc c) (base_path c) (visited c)
            (queue c) (page_id c) (stats c) (chunk_hashes c) (fw_full c)
            (fw_min c) (fw_mani c) (fetched c) l.

(** A retained chunk: its hash joins [chunk_hashes] and one line goes to
    each of the two record streams. *)
Definition retain_chunk (h : str) (f : FullRecord) (m : MinRecord) (c : Crawler)
  : Crawler :=
  mkCrawler (cfg c) (base_url c) (base_netloc c) (base_path c) (visited c)
            (queue c) (page_id c) (stats c) ({[ h ]} ∪ chunk_hashes c)
            (fw_full c ++ [f]) (fw_min c ++ [m]) (fw_mani c) (fetched c)
            (hashed c).

Definition write_manifest_row (r : ManifestRow) (c : Crawler) : Crawler :=
  mkCrawler (cfg c) (base_url c) (base_netloc c) (base_path c) (visited c)
            (queue c) (page_id c) (stats c) (chunk_hashes c) (fw_full c)
            (fw_min c) (fw_mani c ++ [r]) (fetched c) (hashed c).

Definition bump_skipped (s : Stats) : Stats :=
  mkStats (pages_fetched s) (pages_skipped s + 1) (pages_failed s)
          (chunks_written s) (chunks_deduped s) (queue_peek s).

Definition bump_failed (s : Stats) : Stats :=
  mkStats (pages_fetched s) (pages_skipped s) (pages_failed s + 1)
          (chunks_written s) (chunks_deduped s) (queue_peek s).

Definition note_queue (n : Z) (s : Stats) : Stats :=
  mkStats (pages_fetched s) (pages_skipped s) (pages_failed s)
          (chunks_written s) (chunks_deduped s) (Z.max (queue_peek s) n).

Definition count_page (total deduped : Z) (s : Stats) : Stats :=
  mkStats (pages_fetched s + 1) (pages_skipped s) (pages_failed s)
          (chunks_written s + total) (chunks_deduped s + deduped)
          (queue_peek s).

(** [read_existing_urls_from_manifest] *)
Definition read_existing_urls_from_manifest (rows : option (list ManifestRow))
  : gset str :=
  match rows with
  | Some rs => list_to_set (map mf_url rs)
  | None => ∅
  end.

(** The URLs that a resumed run takes as visited before it starts. *)
Definition preloaded_urls (cf : Config) (d : OutDir) : gset str :=
  if cfg_resume cf && bool_decide (is_Some (manifest_csv d))
  then read_existing_urls_from_manifest (manifest_csv d)
  else ∅.

Section CrawlerMethods.
Context {W : Capabilities}.

(** [__init__] up to the opening of the writers.  An empty normalised
    base URL is the [ValueError("Invalid base-url")]. *)
Definition init_state (cf : Config) (d : OutDir) : result Crawler :=
  let! bu := normalize_url (cfg_base_url cf) in
  if negb (PyStr.truthy bu) then Raise ValueError
  else
    let! bp := urlparse bu in
    let bpath :=
      if PyStr.endswith (L "/") (UrlLib.path bp) then UrlLib.path bp
      else UrlLib.path bp ++ L "/" in
    let resuming :=
      cfg_resume cf && bool_decide (is_Some (manifest_csv d)) in
    let seen := preloaded_urls cf d in
    let pid :=
      if resuming then
        match corpus_full d with
        | Some ls => Z.of_nat (length ls)
        | None => 0
        end
      else 0 in
    Ok (mkCrawler cf bu (UrlLib.netloc bp) bpath seen [] pid Stats0 ∅
                  [] [] [] [] []).

(** One sitemap link of [seed_queue]. *)
Definition seed_link (c : Crawler) (link : str) : result Crawler :=
  let! n := normalize_url link in
  if PyStr.truthy n then
    let! inside := is_within_base n (base_netloc c) (base_path c) in
    Ok (if inside then set_queue (queue c ++ [n]) c else c)
  else Ok c.

(** A loop that stops at the first exception, keeping the state reached. *)
Fixpoint for_each {A : Type} (f : Crawler -> A -> result Crawler)
         (xs : list A) (c : Crawler) : Crawler * option exn :=
  match xs with
  | [] => (c, None)
  | x :: xs' =>
      match f c x with
      | Ok c' => for_each f xs' c'
      | Raise e => (c, Some e)
      end
  end.

Definition seed_queue (c : Crawler) : Crawler * option exn :=
  let c := set_queue (queue c ++ [base_url c]) c in
  if cfg_use_sitemap (cfg c)
  then for_each seed_link (sitemap_locs (base_url c)) c
  else (c, None).

Definition can_fetch (c : Crawler) (url : str) : bool :=
  if cfg_respect_robots (cfg c) then
    match robots_can_fetch url with
    | Ok b => b
    | Raise _ => true
    end
  else true.

(** One [href] of [enqueue_links]. *)
Definition enqueue_link (page_url : str) (c : Crawler) (href0 : str)
  : result Crawler :=
  let href := PyStr.strip href0 in
  if PyStr.startswith (L "mailto:") href
     || PyStr.startswith (L "javascript:") href
  then Ok c
  else
    let! joined := urljoin page_url href in
    let! abs_url := normalize_url joined in
    if negb (PyStr.truthy abs_url) || bool_decide (abs_url ∈ visited c)
    then Ok c
    else
      let! inside := is_within_base abs_url (base_netloc c) (base_path c) in
      if negb inside then Ok c
      else
        let! p := urlparse abs_url in
        let ext := PyStr.lower (splitext_ext (UrlLib.path p)) in
        if negb (UrlLib.str_in ext HTML_EXTS) then Ok c
        else if match cfg_include_re (cfg c) with
                | Some search => negb (search abs_url)
                | None => false
                end then Ok c
        else if match cfg_exclude_re (cfg c) with
                | Some search => search abs_url
                | None => false
                end then Ok c
        else Ok (set_queue (queue c ++ [abs_url]) c).

Definition enqueue_links (html page_url : str) (c : Crawler)
  : Crawler * option exn :=
  for_each (enqueue_link page_url) (anchor_hrefs html) c.

(** One pass of the chunk loop of [write_records]; the integer is the
    local [deduped]. *)
Definition write_chunk (pid : Z) (url title : str) (total : nat)
           (st : Crawler * Z) (ick : nat * str) : Crawler * Z :=
  let '(c, deduped) := st in
  let '(ci, ck) := ick in
  let h := hash_text ck in
  let c := set_hashed (hashed c ++ [h]) c in
  if bool_decide (h ∈ chunk_hashes c) then (c, deduped + 1)
  else
    let cid := if (1 <? total)%nat then PageChunkId pid ci else PageId pid in
    (retain_chunk h (mkFull cid url title ci total ck h) (mkMin cid ck) c,
     deduped).

Definition path_field (p : option str) : str :=
  match p with Some s => s | None => [] end.

Definition write_records (pid : Z) (url title text : str)
           (html_path txt_path : option str) (c : Crawler)
  : Crawler * (Z * Z) :=
  let chunks :=
    if PyStr.truthy text
    then chunk_text text (cfg_chunk_size (cfg c)) (cfg_chunk_overlap (cfg c))
    else [] in
  match chunks with
  | [] => (c, (0, 0))
  | _ :: _ =>
      let total := length chunks in
      let '(c, deduped) :=
        fold_left (write_chunk pid url title total)
                  (combine (seq 0 total) chunks) (c, 0) in
      let row := mkRow (PageId pid) url title (path_field html_path)
                       (path_field txt_path) (PyStr.len text) in
      (write_manifest_row row c, (Z.of_nat total, deduped))
  end.

Definition fetch (n : nat) (url : str) : option str :=
  match http_get n url with
  | Ok (status, body) =>
      if (200 <=? status) && (status <? 300) then Some body else None
  | Raise _ => None
  end.

(** The part of the loop body of [run] that follows a successful
    [fetch]. *)
Definition process_page (url html : str) (c : Crawler)
  : Crawler * option exn :=
  match url_to_relpath url (base_path c) with
  | Raise e => (c, Some e)
  | Ok rel_html =>
      let html_path := L "html/" ++ rel_html in
      let txt_path := L "text/" ++ with_suffix_txt rel_html in
      match extract_text_and_title html with
      | Raise e => (c, Some e)
      | Ok (text, title) =>
          let '(c, (total, deduped)) :=
            write_records (page_id c) url title text
              (if cfg_save_html (cfg c) then Some html_path else None)
              (if cfg_save_text (cfg c) then Some txt_path else None) c in
          let c := set_stats (count_page total deduped (stats c)) c in
          match enqueue_links html url c with
          | (c, Some e) => (c, Some e)
          | (c, None) =>
              let c := set_page_id (page_id c + 1) c in
              if cfg_heartbeat_every (cfg c) =? 0
              then (c, Some ZeroDivisionError)
              else (c, None)
          end
      end
  end.

(** The body of the [while] loop of [run]. *)
Definition loop_body (c : Crawler) : Crawler * option exn :=
  match queue c with
  | [] => (c, None)
  | url :: q =>
      let c := set_queue q c in
      if bool_decide (url ∈ visited c) then (c, None)
      else if negb (can_fetch c url)
      then (set_stats (bump_skipped (stats c)) c, None)
      else
        let c := set_visited ({[ url ]} ∪ visited c) c in
        let c := set_stats (note_queue (Z.of_nat (length (queue c))) (stats c)) c in
        let n := length (fetched c) in
        let c := set_fetched (fetched c ++ [url]) c in
        match fetch n url with
        | None => (set_stats (bump_failed (stats c)) c, None)
        | Some html => process_page url html c
        end
  end.

(** The [while] test of [run]. *)
Definition loop_test (c : Crawler) : bool :=
  PyStr.truthy_list (queue c)
  && (Z.of_nat (size (visited c)) <? cfg_max_pages (cfg c)).

End CrawlerMethods.

(** ** [run] and [main] *)

(** How a run ends: the loop condition fails ([run] returns), SIGINT is
    handled ([_handle_sigint]), or an exception leaves [run] or [__init__].
    The state is the one reached at that point; it is missing when
    [__init__] fails before the object exists. *)
Inductive Outcome : Type :=
| Completed (c : Crawler)
| Interrupted (c : Crawler)
| Crashed (e : exn) (c : option Crawler).

Definition final_state (o : Outcome) : option Crawler :=
  match o with
  | Completed c | Interrupted c => Some c
  | Crashed _ oc => oc
  end.

Section Run.
Context {W : Capabilities}.

(** The [while] loop of [run]; [n] counts the tests of its condition.
    The signal handler is run at the granularity of loop iterations. *)
Fixpoint run_loop (fuel n : nat) (c : Crawler) : option Outcome :=
  match fuel with
  | O => None
  | S fuel' =>
      if sigint_before n then Some (Interrupted c)
      else if loop_test c then
        match loop_body c with
        | (c', None) => run_loop fuel' (S n) c'
        | (c', Some e) => Some (Crashed e (Some c'))
        end
      else Some (Completed c)
  end.

(** [Crawler(...)] followed by [crawler.run()]. *)
Definition crawl (cf : Config) (d : OutDir) (fuel : nat) : option Outcome :=
  match init_state cf d with
  | Raise e => Some (Crashed e None)
  | Ok c0 =>
      match seed_queue c0 with
      | (c1, Some e) => Some (Crashed e (Some c1))
      | (c1, None) => run_loop fuel O c1
      end
  end.

End Run.

Definition existing {A : Type} (f : option (list A)) : list A :=
  match f with Some l => l | None => [] end.

(** The output directory once the three handles of [c], opened in append
    mode, are flushed. *)
Definition flush_writers (d : OutDir) (c : Crawler) : OutDir :=
  mkOutDir (Some (existing (corpus_full d) ++ fw_full c))
           (Some (existing (corpus_min d) ++ fw_min c))
           (Some (existing (manifest_csv d) ++ fw_mani c))
           (stats_json d).

(** [write_stats] *)
Definition write_stats (c : Crawler) (d : OutDir) : OutDir :=
  mkOutDir (corpus_full d) (corpus_min d) (manifest_csv d) (Some (stats c)).

(** What [main] leaves behind: the exit status of the process and the
    output directory.  [run] ends with [write_stats]; [_handle_sigint]
    calls it before [sys.exit(130)]; the [except Exception] clause of
    [main] logs and calls [sys.exit(1)]. *)
Definition finish (d : OutDir) (o : Outcome) : Z * OutDir :=
  match o with
  | Completed c => (0, write_stats c (flush_writers d c))
  | Interrupted c => (130, write_stats c (flush_writers d c))
  | Crashed _ (Some c) => (1, flush_writers d c)
  | Crashed _ None => (1, d)
  end.

Definition main {W : Capabilities} (cf : Config) (d : OutDir) (fuel : nat)
  : option (Z * OutDir) :=
  option_map (finish d) (crawl cf d fuel).

(** ** A small site for the examples

    Three pages under [http://a/]; a body stands for its page.  The home
    page and [/x/] carry the same text. *)
Module Site.

Definition home : str := L "http://a/".
Definition page_x : str := L "http://a/x/".
Definition page_y : str := L "http://a/y/".

Definition body_of (url : str) : result (Z * str) :=
  if PyStr.eqb url home then Ok (200, L "HOME")
  else if PyStr.eqb url page_x then Ok (200, L "X")
  else if PyStr.eqb url page_y then Ok (200, L "Y")
  else Ok (404, []).

Definition text_of (html : str) : result (str * str) :=
  if PyStr.eqb html (L "HOME") then Ok (L "alpha", L "Home")
  else if PyStr.eqb html (L "X") then Ok (L "alpha", L "X")
  else if PyStr.eqb html (L "Y") then Ok (L "gamma", L "Y")
  else Ok ([], []).

(** The capabilities of the examples differ in what extraction returns,
    in the links of a page and in the robots policy.  The sitemap lists
    [/x/] and [/y/]; [urljoin] is applied to absolute links only; the
    stand-in for the digest is the identity. *)
Definition world_with (texts : str -> result (str * str))
           (hrefs : str -> list str) (robots : str -> result bool)
  : Capabilities := {|
  netloc_ok := fun _ => true;
  urljoin := fun _ href => Ok href;
  robots_can_fetch := robots;
  sitemap_locs := fun _ => [page_x; page_y];
  http_get := fun _ url => body_of url;
  soup_text_and_title := texts;
  anchor_hrefs := hrefs;
  sha1_hex := fun s => s;
  with_suffix_txt := fun s => s ++ L ".txt";
  sigint_before := fun _ => false
|}.

(** No page links anywhere, nothing disallowed. *)
Definition world : Capabilities :=
  world_with text_of (fun _ => []) (fun _ => Ok true).


(** Extraction fails on the home page. *)
Definition broken_home : Capabilities :=
  world_with (fun html => if PyStr.eqb html (L "HOME") then Raise ExtractionError
                          else text_of html)
             (fun _ => []) (fun _ => Ok true).

(** The home page links to [/x/] twice, and robots.txt disallows [/x/]. *)
Definition linked_home : Capabilities :=
  world_with text_of
             (fun html => if PyStr.eqb html (L "HOME") then [page_x; page_x] else [])
             (fun url => Ok (negb (PyStr.eqb url page_x))).

(** [--base-url http://a/ --use-sitemap], no chunking, and further
    [--resume], [--max-pages], [--heartbeat-every], [--respect-robots]. *)
Definition config_with (resume : bool) (max_pages heartbeat : Z)
           (sitemap robots : bool) : Config :=
  mkConfig home max_pages None None robots sitemap resume 0 120 heartbeat
           false false.

Definition config (resume : bool) (max_pages : Z) : Config :=
  config_with resume max_pages 10 true false.

(** The object as [__init__] leaves it for [--base-url http://a/] in an
    empty output directory, before seeding. *)
Definition fresh (cf : Config) : Crawler :=
  mkCrawler cf home (L "a") (L "/") ∅ [] 0 Stats0 ∅ [] [] [] [] [].

(** The output directory left by a first run limited to two pages. *)
Definition after_first_run : OutDir :=
  match main (W := world) (config false 2) empty_dir 10 with
  | Some (_, d) => d
  | None => empty_dir
  end.

End Site.


(** ** Predicates used in the statements *)

(** A character that survives [urlsplit] inside a component: not one of
    the removed bytes and not a query or fragment delimiter. *)
Definition plain_char (c : ascii) : bool :=
  negb (UrlLib.unsafe_url_byte c) && negb (is_char "?" c) && negb (is_char "#" c).

Definition plain_segment_char (c : ascii) : bool :=
  plain_char c && negb (is_char "/" c).

(** The shape of a parse result of an http(s) URL. *)
Record well_split (ok : str -> bool) (p : UrlLib.ParseResult) : Prop := {
  ws_scheme : UrlLib.scheme p = L "http" \/ UrlLib.scheme p = L "https";
  ws_netloc : forallb plain_segment_char (UrlLib.netloc p) = true;
  ws_accept : UrlLib.netloc_rejected ok (UrlLib.netloc p) = false;
  ws_path : forallb plain_char (UrlLib.path p) = true;
  ws_params : forallb plain_segment_char (UrlLib.params p) = true;
  ws_tail : PyStr.has_char ";" (last_segment (UrlLib.path p)) = false;
  ws_rooted : UrlLib.netloc p <> [] ->
              UrlLib.path p = [] \/ PyStr.startswith (L "/") (UrlLib.path p) = true
}.

(** [query_free b]: no [?] and no [#] in [b]; [query_tail t]: [t] is empty
    or starts a query or a fragment. *)
Definition safe_char (c : ascii) : bool := negb (UrlLib.unsafe_url_byte c).



(** The path that [normalize_url] puts back. *)
Definition directory_path (path : str) : str :=
  let path := if PyStr.truthy path then path else L "/" in
  if negb (PyStr.truthy (splitext_ext path)) && negb (PyStr.endswith (L "/") path)
  then path ++ L "/" else path.


(** What the crawl loop reads of the object besides its queue and
    counters. *)
Definition settings_of (c : Crawler) : Config * str * str * str :=
  (cfg c, base_url c, base_netloc c, base_path c).

(** The part of the state that [write_records] works on. *)
Definition outputs_of (c : Crawler)
  : gset str * list FullRecord * list MinRecord * list ManifestRow * list str :=
  (chunk_hashes c, fw_full c, fw_min c, fw_mani c, hashed c).

(** The lines of a record stream that carry a given hash. *)
Definition full_with_hash (h : str) (l : list FullRecord)
  : list FullRecord :=
  List.filter (fun f => PyStr.eqb (fr_hash f) h) l.

Definition min_with_hash {W : Capabilities} (h : str) (l : list MinRecord)
  : list MinRecord :=
  List.filter (fun m => PyStr.eqb (hash_text (mr_contents m)) h) l.

Definition min_of_full (f : FullRecord) : MinRecord :=
  mkMin (fr_id f) (fr_contents f).

(** [kept c c']: settings, visited set and fetch history are those of
    [c]. *)
Definition kept (c c' : Crawler) : Prop :=
  settings_of c' = settings_of c
  /\ visited c' = visited c
  /\ fetched c' = fetched c.

(** [enqueue_link] touches the queue alone. *)
Definition queue_only (c c' : Crawler) : Prop :=
  c' = set_queue (queue c') c.

(** [write_chunk] and [write_records] touch the outputs alone. *)
Definition outputs_only (c c' : Crawler) : Prop :=
  settings_of c' = settings_of c /\ visited c' = visited c
  /\ queue c' = queue c /\ page_id c' = page_id c /\ stats c' = stats c
  /\ fetched c' = fetched c.

(** The frontier invariant: the fetch history has no repetition, lies
    inside [visited], and [visited] stays within the larger of the page
    budget and what was preloaded. *)
Definition frontier_inv (cf : Config) (bound : Z) (c : Crawler) : Prop :=
  cfg c = cf
  /\ NoDup (fetched c)
  /\ (forall u, u ∈ fetched c -> u ∈ visited c)
  /\ Z.of_nat (size (visited c)) <= Z.max (cfg_max_pages cf) bound.

(** The dedup invariant.  [pending] is the local [deduped] of a
    [write_records] call under way, not yet added to the counter. *)
Definition dedup_inv {W : Capabilities} (pending : Z) (c : Crawler) : Prop :=
  chunk_hashes c = list_to_set (map fr_hash (fw_full c))
  /\ (forall h, h ∈ hashed c <-> h ∈ chunk_hashes c)
  /\ NoDup (map fr_hash (fw_full c))
  /\ fw_min c = map min_of_full (fw_full c)
  /\ Forall (fun f => fr_hash f = hash_text (fr_contents f)) (fw_full c)
  /\ chunks_deduped (stats c) + pending
     = Z.of_nat (length (hashed c)) - Z.of_nat (length (fw_full c)).

(** What the invariant reads of the state. *)
Definition dedup_view (c : Crawler)
  : gset str * list FullRecord * list MinRecord * list str * Z :=
  (chunk_hashes c, fw_full c, fw_min c, hashed c, chunks_deduped (stats c)).

(** The chunks [write_records] works on. *)
Definition page_chunks (c : Crawler) (text : str) : list str :=
  if PyStr.truthy text
  then chunk_text text (cfg_chunk_size (cfg c)) (cfg_chunk_overlap (cfg c))
  else [].

(** The manifest row of a page. *)
Definition manifest_row {W : Capabilities} (c : Crawler)
           (url title text rel : str) : ManifestRow :=
  mkRow (PageId (page_id c)) url title
        (if cfg_save_html (cfg c) then L "html/" ++ rel else [])
        (if cfg_save_text (cfg c) then L "text/" ++ with_suffix_txt rel else [])
        (PyStr.len text).

(** ** The scope of a discovered link, in the words of the specification *)

Definition is_link (href : str) : bool :=
  negb (PyStr.startswith (L "mailto:") href
        || PyStr.startswith (L "javascript:") href).

Definition host_prefix_ok (c : Crawler) (p : UrlLib.ParseResult) : bool :=
  PyStr.eqb (UrlLib.netloc p) (base_netloc c)
  && PyStr.startswith (base_path c) (UrlLib.path p).

Definition extension_ok (p : UrlLib.ParseResult) : bool :=
  UrlLib.str_in (PyStr.lower (splitext_ext (UrlLib.path p))) HTML_EXTS.

Definition patterns_ok (c : Crawler) (abs_url : str) : bool :=
  match cfg_include_re (cfg c) with Some search => search abs_url | None => true end
  && match cfg_exclude_re (cfg c) with Some search => negb (search abs_url) | None => true end.

Definition eligible (c : Crawler) (abs_url : str) (p : UrlLib.ParseResult) : bool :=
  PyStr.truthy abs_url && negb (bool_decide (abs_url ∈ visited c))
  && host_prefix_ok c p && extension_ok p && patterns_ok c abs_url.

(** The paragraphs [chunk_text] packs: the stripped, non-empty pieces. *)
Definition paragraphs (text : str) : list str :=
  map PyStr.strip
      (List.filter (fun p => PyStr.truthy (PyStr.strip p))
                   (re_split_paragraphs text)).


(** The state in which [run] calls [fetch]: [url] is popped and marked
    visited, the queue depth noted, the call recorded. *)
Definition about_to_fetch (url : str) (q : list str) (c : Crawler) : Crawler :=
  set_fetched (fetched c ++ [url])
    (set_stats (note_queue (Z.of_nat (length q)) (stats c))
       (set_visited ({[ url ]} ∪ visited c) (set_queue q c))).

(** What [seed_queue] and [enqueue_links] check of a URL before they append
    it: a non-empty normalised key inside the base host and path prefix. *)
Definition link_ok {W : Capabilities} (c : Crawler) (u : str) : Prop :=
  u <> [] /\ normalize_url u = Ok u
  /\ is_within_base u (base_netloc c) (base_path c) = Ok true.

(** The [page_id] a run starts from. *)
Definition start_page_id (cf : Config) (d : OutDir) : Z :=
  if cfg_resume cf && bool_decide (is_Some (manifest_csv d))
  then match corpus_full d with
       | Some ls => Z.of_nat (length ls)
       | None => 0
       end
  else 0.

(** The page number inside a record id, and the id of chunk [ci] of a page
    with [total] chunks. *)
Definition id_page (i : RecordId) : Z :=
  match i with PageId p | PageChunkId p _ => p end.

Definition chunk_record_id (total : nat) (pid : Z) (ci : nat) : RecordId :=
  if (1 <? total)%nat then PageChunkId pid ci else PageId pid.

(** A line of [corpus_full.jsonl] as [write_records] builds it for chunk
    [fr_chunk_index] of a page. *)
Definition record_of_page {W : Capabilities} (pid : Z) (url title : str)
           (chunks : list str) (f : FullRecord) : Prop :=
  (fr_chunk_index f < length chunks)%nat
  /\ chunks !! fr_chunk_index f = Some (fr_contents f)
  /\ f = mkFull (chunk_record_id (length chunks) pid (fr_chunk_index f)) url title
                (fr_chunk_index f) (length chunks) (fr_contents f)
                (hash_text (fr_contents f)).


(** What [process_page] has done to the state [c0] when it gets past
    extraction: the records, the manifest row and the links of the page are
    added, the counters updated, and [page_id] advanced unless
    [enqueue_links] raised. *)
Definition page_processed {W : Capabilities} (url html : str)
           (c0 c' : Crawler) (e : option exn) : Prop :=
  exists rel text title deduped new l,
    url_to_relpath url (base_path c0) = Ok rel
    /\ extract_text_and_title html = Ok (text, title)
    /\ settings_of c' = settings_of c0
    /\ visited c' = visited c0
    /\ fetched c' = fetched c0
    /\ queue c' = queue c0 ++ l
    /\ Forall (link_ok c0) l
    /\ hashed c' = hashed c0 ++ map hash_text (page_chunks c0 text)
    /\ fw_full c' = fw_full c0 ++ new
    /\ Forall (record_of_page (page_id c0) url title (page_chunks c0 text)) new
    /\ NoDup (map fr_chunk_index new)
    /\ fw_mani c'
       = fw_mani c0 ++ match page_chunks c0 text with
                       | [] => []
                       | _ :: _ => [manifest_row c0 url title text rel]
                       end
    /\ stats c'
       = count_page (Z.of_nat (length (page_chunks c0 text))) deduped (stats c0)
    /\ ((page_id c' = page_id c0 + 1 /\ (e = None \/ e = Some ZeroDivisionError))
        \/ (page_id c' = page_id c0 /\ e <> None)).

(** [appends c c']: [c'] is [c] with links added to the queue. *)
Definition appends {W : Capabilities} (c c' : Crawler) : Prop :=
  queue_only c c' /\ exists l, queue c' = queue c ++ l /\ Forall (link_ok c) l.


(** What holds of the frontier throughout a run: every URL queued or
    fetched is a non-empty normalised key and is the base URL or lies inside
    the base host and path prefix; every URL fetched was allowed by
    [can_fetch]; [visited] is what was preloaded together with what was
    fetched, and nothing preloaded was fetched. *)
Definition frontier_facts {W : Capabilities} (cf : Config) (d : OutDir)
           (c : Crawler) : Prop :=
  cfg c = cf
  /\ (forall u, u ∈ queue c \/ u ∈ fetched c ->
        u <> [] /\ normalize_url u = Ok u
        /\ (u = base_url c
            \/ is_within_base u (base_netloc c) (base_path c) = Ok true))
  /\ (forall u, u ∈ fetched c -> can_fetch c u = true)
  /\ visited c = preloaded_urls cf d ∪ list_to_set (fetched c)
  /\ (forall u, u ∈ fetched c -> u ∉ preloaded_urls cf d).




(** What holds of the lines a run has written.  Every record carries a
    fetched URL, a chunk index below its chunk count, the id that goes with
    them, a page number between the one the run started from and
    [page_id], a non-empty text, and has a manifest row for its page; ids
    are not repeated; manifest rows carry page ids in the same range, not
    repeated, and their URLs follow the order of the fetches.  [slack] is 1
    when the last page has not advanced [page_id]. *)
Definition ledger {W : Capabilities} (cf : Config) (d : OutDir) (slack : Z)
           (c : Crawler) : Prop :=
  Forall (fun f =>
            fr_url f ∈ fetched c
            /\ (fr_chunk_index f < fr_chunk_count f)%nat
            /\ fr_id f = chunk_record_id (fr_chunk_count f) (id_page (fr_id f))
                                         (fr_chunk_index f)
            /\ start_page_id cf d <= id_page (fr_id f) < page_id c + slack
            /\ fr_contents f <> []
            /\ exists r, r ∈ fw_mani c /\ mf_url r = fr_url f
                         /\ mf_id r = PageId (id_page (fr_id f)))
         (fw_full c)
  /\ NoDup (map fr_id (fw_full c))
  /\ Forall (fun r => exists p, mf_id r = PageId p
                                /\ start_page_id cf d <= p < page_id c + slack)
            (fw_mani c)
  /\ NoDup (map mf_id (fw_mani c))
  /\ map mf_url (fw_mani c) `sublist_of` fetched c
  /\ start_page_id cf d <= page_id c.


(** The number of requests of a run that gave no page, read off the fetch
    history: the [i]-th URL handed to [fetch] is the [i]-th request. *)
Fixpoint failed_requests {W : Capabilities} (i : nat) (urls : list str) : Z :=
  match urls with
  | [] => 0
  | u :: rest =>
      (match fetch i u with Some _ => 0 | None => 1 end)
      + failed_requests (S i) rest
  end.

(** Where a record comes from: a request to its URL answered with a 2xx
    status, the text and title extracted from the body, and the chunk of
    that text at the record's index. *)
Definition extracted_from {W : Capabilities} (cf : Config) (requests : nat)
           (f : FullRecord) : Prop :=
  exists n status html text title,
    (n < requests)%nat
    /\ http_get n (fr_url f) = Ok (status, html)
    /\ 200 <= status < 300
    /\ extract_text_and_title html = Ok (text, title)
    /\ text <> []
    /\ fr_title f = title
    /\ fr_chunk_count f
       = length (chunk_text text (cfg_chunk_size cf) (cfg_chunk_overlap cf))
    /\ chunk_text text (cfg_chunk_size cf) (cfg_chunk_overlap cf)
         !! fr_chunk_index f = Some (fr_contents f).


(** ** The clean-up of the text in [extract_text_and_title]

    The last two statements of the function, applied to what
    [soup.get_text] returns: [re.sub(r"[ \t]+", " ", text)], then
    [re.sub(r"\n{3,}", "\n\n", text).strip()]. *)
Definition TAB : ascii := ascii_of_N 9.

Definition is_blank (c : ascii) : bool := Ascii.eqb c " " || Ascii.eqb c TAB.

(** [re.sub(r"[ \t]+", " ", s)]: a maximal run of spaces and tabs becomes
    one space.  [in_run] tells that the character before belongs to the
    run being replaced. *)
Fixpoint sub_blanks (in_run : bool) (s : str) : str :=
  match s with
  | [] => []
  | c :: s' =>
      if is_blank c
      then if in_run then sub_blanks true s' else " "%char :: sub_blanks true s'
      else c :: sub_blanks false s'
  end.

(** [re.sub(r"\n{3,}", "\n\n", s)]: of a maximal run of line feeds the
    first two are kept.  [run] counts the line feeds read since the last
    other character. *)
Fixpoint sub_newlines (run : nat) (s : str) : str :=
  match s with
  | [] => []
  | c :: s' =>
      if Ascii.eqb c LF
      then if (run <? 2)%nat then LF :: sub_newlines (S run) s'
           else sub_newlines (S run) s'
      else c :: sub_newlines O s'
  end.

Definition tidy_text (text : str) : str :=
  PyStr.strip (sub_newlines O (sub_blanks false text)).

(** [single_blanks prev s]: [s] holds no tab and no two blanks in a row,
    nor a leading blank when [prev] is set; [short_runs run s]: no line
    feed of [s] is the third of a run, [run] line feeds being read
    already. *)
Fixpoint single_blanks (prev : bool) (s : str) : bool :=
  match s with
  | [] => true
  | c :: s' =>
      if is_blank c then Ascii.eqb c " " && negb prev && single_blanks true s'
      else single_blanks false s'
  end.

Fixpoint short_runs (run : nat) (s : str) : bool :=
  match s with
  | [] => true
  | c :: s' =>
      if Ascii.eqb c LF then (run <? 2)%nat && short_runs (S run) s'
      else short_runs O s'
  end.


(** * Properties *)

(** ** Strings *)

#[local] Arguments Ascii.eqb : simpl never.

Lemma truthy_false (s : str) : PyStr.truthy s = false -> s = [].
Proof. destruct s; [reflexivity | discriminate]. Qed.

Lemma truthy_true (s : str) : PyStr.truthy s = true -> s <> [].
Proof. destruct s; [discriminate | intros _; discriminate]. Qed.

Lemma lstrip_by_head (P : ascii -> bool) (s : str) :
  match PyStr.lstrip_by P s with
  | [] => True
  | c :: _ => P c = false
  end.
Proof.
  induction s as [|c s IH]; simpl; [exact I|].
  destruct (P c) eqn:E; [exact IH | exact E].
Qed.

Lemma lstrip_slash_no_lead (s : str) :
  PyStr.startswith (L "/") (PyStr.lstrip_chars (L "/") s) = false.
Proof.
  unfold PyStr.lstrip_chars.
  pose proof (lstrip_by_head (fun c => PyStr.has_char c (L "/")) s) as H.
  destruct (PyStr.lstrip_by _ s) as [|c r]; [reflexivity|].
  simpl in *. rewrite orb_false_r in H.
  rewrite Ascii.eqb_sym, H. reflexivity.
Qed.

(** [replace("..", "_")], read off the general [replace]. *)
Lemma replace_dotdot_nil (k : nat) :
  PyStr.replace_from (L "..") (L "_") k [] = [].
Proof. destruct k; reflexivity. Qed.







Section UtilityFacts.
Context {W : Capabilities}.


End UtilityFacts.

(** ** Cutting strings *)

Lemma span_until_spec (P : ascii -> bool) (s a b : str) :
  span_until P s = (a, b) ->
  s = a ++ b
  /\ forallb (fun c => negb (P c)) a = true
  /\ match b with [] => True | c :: _ => P c = true end.
Proof.
  revert a b. induction s as [|c s IH]; intros a b H; simpl in H.
  - inversion H; subst. auto.
  - destruct (P c) eqn:E.
    + inversion H; subst. simpl. auto.
    + destruct (span_until P s) as [a' b'] eqn:E'.
      inversion H; subst.
      destruct (IH a' b eq_refl) as (-> & Ha & Hb).
      simpl. rewrite E, Ha. auto.
Qed.

Lemma span_until_stop (P : ascii -> bool) (a : str) (c : ascii) (b : str) :
  forallb (fun c => negb (P c)) a = true -> P c = true ->
  span_until P (a ++ c :: b) = (a, c :: b).
Proof.
  intros Ha Hc. induction a as [|x a IH]; simpl.
  - rewrite Hc. reflexivity.
  - simpl in Ha. apply andb_prop in Ha as [Hx Ha].
    apply negb_true_iff in Hx. rewrite Hx, (IH Ha). reflexivity.
Qed.

Lemma span_until_all (P : ascii -> bool) (a : str) :
  forallb (fun c => negb (P c)) a = true -> span_until P a = (a, []).
Proof.
  intros Ha. induction a as [|x a IH]; simpl; [reflexivity|].
  simpl in Ha. apply andb_prop in Ha as [Hx Ha].
  apply negb_true_iff in Hx. rewrite Hx, (IH Ha). reflexivity.
Qed.

Lemma has_char_forallb (c : ascii) (s : str) :
  PyStr.has_char c s = false <-> forallb (fun x => negb (is_char c x)) s = true.
Proof.
  unfold PyStr.has_char, is_char. induction s as [|x s IH]; simpl; [tauto|].
  rewrite orb_false_iff, andb_true_iff, negb_true_iff, IH. tauto.
Qed.

Lemma has_char_app (c : ascii) (a b : str) :
  PyStr.has_char c (a ++ b) = PyStr.has_char c a || PyStr.has_char c b.
Proof. unfold PyStr.has_char. apply existsb_app. Qed.

Lemma has_char_rev (c : ascii) (s : str) :
  PyStr.has_char c (rev s) = PyStr.has_char c s.
Proof.
  induction s as [|x s IH]; [reflexivity|].
  simpl rev. rewrite has_char_app, IH. unfold PyStr.has_char. simpl.
  rewrite orb_false_r. apply orb_comm.
Qed.

Lemma forallb_rev {A : Type} (f : A -> bool) (l : list A) :
  forallb f (rev l) = forallb f l.
Proof.
  induction l as [|x l IH]; [reflexivity|].
  simpl. rewrite forallb_app, IH. simpl. rewrite andb_true_r. apply andb_comm.
Qed.

Lemma rpartition_spec (c : ascii) (s d b : str) :
  rpartition c s = Some (d, b) ->
  s = d ++ c :: b /\ PyStr.has_char c b = false.
Proof.
  unfold rpartition. intros H.
  destruct (span_until (Ascii.eqb c) (rev s)) as [a r] eqn:E.
  destruct r as [|x r]; [discriminate|]. inversion H; subst; clear H.
  destruct (span_until_spec _ _ _ _ E) as (Hs & Ha & Hx).
  apply Ascii.eqb_eq in Hx. subst x.
  split.
  - rewrite <- (rev_involutive s), Hs, rev_app_distr. simpl.
    rewrite <- app_assoc. reflexivity.
  - rewrite has_char_rev. apply has_char_forallb. exact Ha.
Qed.

Lemma rpartition_none (c : ascii) (s : str) :
  rpartition c s = None <-> PyStr.has_char c s = false.
Proof.
  unfold rpartition.
  destruct (span_until (Ascii.eqb c) (rev s)) as [a r] eqn:E.
  destruct (span_until_spec _ _ _ _ E) as (Hs & Ha & Hx).
  destruct r as [|x r].
  - split; [intros _ | reflexivity].
    rewrite app_nil_r in Hs. rewrite <- has_char_rev, Hs.
    apply has_char_forallb. exact Ha.
  - split; [discriminate|]. intros H.
    rewrite <- has_char_rev, Hs, has_char_app in H.
    apply orb_false_iff in H as [_ H]. unfold PyStr.has_char in H.
    simpl in H. apply Ascii.eqb_eq in Hx. subst x.
    rewrite Ascii.eqb_refl in H. discriminate.
Qed.

Lemma rpartition_last (c : ascii) (d b : str) :
  PyStr.has_char c b = false -> rpartition c (d ++ c :: b) = Some (d, b).
Proof.
  intros H. unfold rpartition.
  rewrite rev_app_distr. simpl. rewrite <- app_assoc. simpl.
  rewrite span_until_stop.
  - rewrite !rev_involutive. reflexivity.
  - rewrite <- has_char_rev in H. apply has_char_forallb in H. exact H.
  - apply Ascii.eqb_refl.
Qed.

Lemma last_segment_dir (s : str) : last_segment (s ++ L "/") = [].
Proof.
  unfold last_segment. change (s ++ L "/") with (s ++ "/"%char :: []).
  rewrite rpartition_last by reflexivity. reflexivity.
Qed.

(** ** Shape of a parse result *)

Lemma forallb_filter_id {A : Type} (f : A -> bool) (l : list A) :
  forallb f l = true -> List.filter f l = l.
Proof.
  induction l as [|x l IH]; simpl; [reflexivity|].
  intros H. apply andb_prop in H as [Hx Hl]. rewrite Hx, (IH Hl). reflexivity.
Qed.

Lemma forallb_filter_self {A : Type} (f : A -> bool) (l : list A) :
  forallb f (List.filter f l) = true.
Proof.
  induction l as [|x l IH]; simpl; [reflexivity|].
  destruct (f x) eqn:E; simpl; [rewrite E|]; exact IH.
Qed.

Lemma forallb_skipn {A : Type} (f : A -> bool) (n : nat) (l : list A) :
  forallb f l = true -> forallb f (skipn n l) = true.
Proof.
  revert l. induction n as [|n IH]; intros [|x l] H; simpl; auto.
  simpl in H. apply andb_prop in H as [_ H]. auto.
Qed.

Lemma forallb_weaken {A : Type} (f g : A -> bool) (l : list A) :
  (forall x, f x = true -> g x = true) ->
  forallb f l = true -> forallb g l = true.
Proof.
  intros Hfg. induction l as [|x l IH]; simpl; [reflexivity|].
  intros H. apply andb_prop in H as [Hx Hl]. rewrite (Hfg x Hx), (IH Hl). reflexivity.
Qed.

Lemma forallb_and {A : Type} (f g : A -> bool) (l : list A) :
  forallb f l = true -> forallb g l = true ->
  forallb (fun x => f x && g x) l = true.
Proof.
  induction l as [|x l IH]; simpl; [reflexivity|].
  intros Hf Hg. apply andb_prop in Hf as [-> Hf]. apply andb_prop in Hg as [-> Hg].
  simpl. auto.
Qed.

Lemma split_scheme_suffix (u sch rest : str) :
  UrlLib.split_scheme u = (sch, rest) ->
  forallb safe_char u = true -> forallb safe_char rest = true.
Proof.
  unfold UrlLib.split_scheme. intros H Hu.
  destruct (span_until (is_char ":") u) as [a b] eqn:E.
  destruct (span_until_spec _ _ _ _ E) as (Hs & _ & _).
  destruct a as [|c pre]; [inversion H; subst; exact Hu|].
  destruct b as [|x r]; [inversion H; subst; exact Hu|].
  destruct (UrlLib.is_alpha c && forallb UrlLib.scheme_char (c :: pre));
    inversion H; subst; [|exact Hu].
  rewrite forallb_app in Hu. apply andb_prop in Hu as [_ Hu].
  simpl in Hu. apply andb_prop in Hu as [_ Hu]. exact Hu.
Qed.

Lemma split_once_spec (c : ascii) (s a b : str) :
  UrlLib.split_once c s = (a, b) ->
  (exists r, s = a ++ r) /\ PyStr.has_char c a = false.
Proof.
  unfold UrlLib.split_once. intros H.
  destruct (span_until (is_char c) s) as [a' r] eqn:E.
  destruct (span_until_spec _ _ _ _ E) as (Hs & Ha & _).
  assert (a' = a) by (destruct r; inversion H; reflexivity). subst a'.
  split; [eauto|]. apply has_char_forallb. exact Ha.
Qed.

Lemma plain_safe c : plain_char c = true -> safe_char c = true.
Proof.
  unfold plain_char, safe_char. intros H.
  apply andb_prop in H as [H _]. apply andb_prop in H as [H _]. exact H.
Qed.

Lemma forallb_app_inv {A} (f : A -> bool) (a b : list A) :
  forallb f (a ++ b) = true -> forallb f a = true /\ forallb f b = true.
Proof. rewrite forallb_app. apply andb_prop. Qed.

Lemma plain_intro (s : str) :
  forallb safe_char s = true ->
  PyStr.has_char "?" s = false -> PyStr.has_char "#" s = false ->
  forallb plain_char s = true.
Proof.
  intros Hs Hq Hh. apply has_char_forallb in Hq, Hh.
  unfold plain_char.
  apply forallb_and; [apply forallb_and|]; assumption.
Qed.

Lemma urlsplit_shape (ok : str -> bool) (u : str) (r : UrlLib.ParseResult) :
  UrlLib.urlsplit ok u = Ok r ->
  forallb plain_segment_char (UrlLib.netloc r) = true
  /\ UrlLib.netloc_rejected ok (UrlLib.netloc r) = false
  /\ forallb plain_char (UrlLib.path r) = true
  /\ UrlLib.params r = []
  /\ (UrlLib.netloc r <> [] ->
      UrlLib.path r = [] \/ PyStr.startswith (L "/") (UrlLib.path r) = true).
Proof.
  unfold UrlLib.urlsplit, UrlLib.split_hier.
  set (u2 := List.filter _ _).
  assert (Hu2 : forallb safe_char u2 = true) by apply forallb_filter_self.
  clearbody u2.
  destruct (UrlLib.split_scheme u2) as [sch u3] eqn:Es.
  pose proof (split_scheme_suffix _ _ _ Es Hu2) as Hu3.
  destruct (PyStr.startswith (L "//") u3) eqn:Ess.
  - destruct (span_until UrlLib.netloc_delim (skipn 2 u3)) as [nl u4] eqn:En.
    destruct (span_until_spec _ _ _ _ En) as (Hs & Hnl & Hd).
    pose proof (forallb_skipn _ 2 _ Hu3) as Hsk. rewrite Hs in Hsk.
    apply forallb_app_inv in Hsk as [Hnls Hu4].
    destruct (UrlLib.netloc_rejected ok nl) eqn:Erej; [discriminate|].
    cbn [rbind].
    destruct (UrlLib.split_once "#" u4) as [u5 frag] eqn:E5.
    destruct (UrlLib.split_once "?" u5) as [u6 qry] eqn:E6.
    destruct (split_once_spec _ _ _ _ E5) as ([r5 H5] & Hh5).
    destruct (split_once_spec _ _ _ _ E6) as ([r6 H6] & Hq6).
    intros H. inversion H; subst r; clear H. cbn.
    assert (Hh6 : PyStr.has_char "#" u6 = false).
    { rewrite H6, has_char_app in Hh5. apply orb_false_iff in Hh5. tauto. }
    assert (Hs6 : forallb safe_char u6 = true).
    { rewrite H5, H6 in Hu4. apply forallb_app_inv in Hu4 as [Hu4 _].
      apply forallb_app_inv in Hu4 as [Hu4 _]. exact Hu4. }
    repeat split.
    + unfold plain_segment_char, plain_char.
      apply forallb_and; [apply forallb_and; [apply forallb_and|]|].
      * exact Hnls.
      * eapply forallb_weaken; [|exact Hnl]. intros x Hx. unfold UrlLib.netloc_delim in Hx.
        apply negb_true_iff in Hx. apply orb_false_iff in Hx as [Hx _].
        apply orb_false_iff in Hx as [_ Hx]. rewrite Hx. reflexivity.
      * eapply forallb_weaken; [|exact Hnl]. intros x Hx. unfold UrlLib.netloc_delim in Hx.
        apply negb_true_iff in Hx. apply orb_false_iff in Hx as [_ Hx].
        rewrite Hx. reflexivity.
      * eapply forallb_weaken; [|exact Hnl]. intros x Hx. unfold UrlLib.netloc_delim in Hx.
        apply negb_true_iff in Hx. apply orb_false_iff in Hx as [Hx _].
        apply orb_false_iff in Hx as [Hx _]. rewrite Hx. reflexivity.
    + exact Erej.
    + apply plain_intro; assumption.
    + intros _. destruct u6 as [|x u6]; [left; reflexivity|right].
      rewrite H5, H6 in Hd. simpl in Hd.
      unfold PyStr.has_char in Hq6, Hh6. simpl in Hq6, Hh6.
      apply orb_false_iff in Hq6 as [Hq6 _]. apply orb_false_iff in Hh6 as [Hh6 _].
      unfold UrlLib.netloc_delim, is_char in Hd. rewrite Hq6, Hh6 in Hd.
      rewrite !orb_false_r in Hd. simpl. rewrite Hd. reflexivity.
  - cbn [rbind].
    destruct (UrlLib.split_once "#" u3) as [u5 frag] eqn:E5.
    destruct (UrlLib.split_once "?" u5) as [u6 qry] eqn:E6.
    destruct (split_once_spec _ _ _ _ E5) as ([r5 H5] & Hh5).
    destruct (split_once_spec _ _ _ _ E6) as ([r6 H6] & Hq6).
    intros H. inversion H; subst r; clear H. cbn.
    assert (Hh6 : PyStr.has_char "#" u6 = false).
    { rewrite H6, has_char_app in Hh5. apply orb_false_iff in Hh5. tauto. }
    assert (Hs6 : forallb safe_char u6 = true).
    { rewrite H5, H6 in Hu3. apply forallb_app_inv in Hu3 as [Hu3 _].
      apply forallb_app_inv in Hu3 as [Hu3 _]. exact Hu3. }
    repeat split; try reflexivity.
    + apply plain_intro; assumption.
    + intros Hne. contradiction.
Qed.

Lemma last_segment_plain (s : str) :
  PyStr.has_char "/" s = false -> last_segment s = s.
Proof.
  intros H. unfold last_segment. apply rpartition_none in H. rewrite H. reflexivity.
Qed.

Lemma last_segment_after (d b : str) :
  PyStr.has_char "/" b = false -> last_segment (d ++ "/"%char :: b) = b.
Proof.
  intros H. unfold last_segment. rewrite rpartition_last by exact H. reflexivity.
Qed.

Lemma splitparams_spec (Q : ascii -> bool) (s p prm : str) :
  PyStr.has_char ";" s = true ->
  UrlLib.splitparams s = (p, prm) ->
  forallb Q s = true ->
  forallb Q p = true /\ forallb Q prm = true
  /\ PyStr.has_char "/" prm = false
  /\ PyStr.has_char ";" (last_segment p) = false.
Proof.
  intros Hsemi H HQ. unfold UrlLib.splitparams in H.
  destruct (rpartition "/" s) as [[dir base]|] eqn:Er.
  - destruct (rpartition_spec _ _ _ _ Er) as (Hs & Hb).
    destruct (span_until (is_char ";") base) as [pre rest] eqn:E.
    destruct (span_until_spec _ _ _ _ E) as (Hbase & Hpre & _).
    apply has_char_forallb in Hpre.
    destruct rest as [|x post]; inversion H; subst p prm; clear H.
    + rewrite app_nil_r in Hbase. subst pre.
      repeat split; auto.
      rewrite Hs at 1. rewrite last_segment_after by exact Hb. exact Hpre.
    + rewrite Hbase, has_char_app in Hb. apply orb_false_iff in Hb as [Hb1 Hb2].
      unfold PyStr.has_char in Hb2. simpl in Hb2. apply orb_false_iff in Hb2 as [_ Hb2].
      rewrite Hs, Hbase in HQ.
      apply forallb_app_inv in HQ as [HQd HQ]. simpl in HQ.
      apply andb_prop in HQ as [HQs HQ].
      apply forallb_app_inv in HQ as [HQpre HQ]. simpl in HQ.
      apply andb_prop in HQ as [_ HQpost].
      repeat split.
      * rewrite forallb_app. simpl. rewrite HQd, HQs, HQpre. reflexivity.
      * exact HQpost.
      * exact Hb2.
      * rewrite last_segment_after by exact Hb1. exact Hpre.
  - apply rpartition_none in Er.
    destruct (span_until (is_char ";") s) as [pre rest] eqn:E.
    destruct (span_until_spec _ _ _ _ E) as (Hs & Hpre & _).
    apply has_char_forallb in Hpre.
    destruct rest as [|x post].
    + rewrite app_nil_r in Hs. subst pre. rewrite Hpre in Hsemi. discriminate.
    + inversion H; subst p prm; clear H.
      rewrite Hs, has_char_app in Er. apply orb_false_iff in Er as [Er1 Er2].
      unfold PyStr.has_char in Er2. simpl in Er2. apply orb_false_iff in Er2 as [_ Er2].
      rewrite Hs in HQ. apply forallb_app_inv in HQ as [HQpre HQ]. simpl in HQ.
      apply andb_prop in HQ as [_ HQpost].
      repeat split; auto.
      rewrite last_segment_plain by exact Er1. exact Hpre.
Qed.

Lemma allowed_scheme (s : str) :
  UrlLib.str_in s ALLOWED_SCHEMES = true -> s = L "http" \/ s = L "https".
Proof.
  unfold UrlLib.str_in, ALLOWED_SCHEMES, PyStr.eqb. simpl.
  rewrite orb_false_r. intros H. apply orb_prop in H as [H|H];
    apply bool_decide_eq_true in H; auto.
Qed.

Lemma plain_segment_intro (s : str) :
  forallb plain_char s = true -> PyStr.has_char "/" s = false ->
  forallb plain_segment_char s = true.
Proof.
  intros Hp Hs. apply has_char_forallb in Hs.
  unfold plain_segment_char. apply forallb_and; assumption.
Qed.

Lemma last_segment_no_semicolon (s : str) :
  PyStr.has_char ";" s = false -> PyStr.has_char ";" (last_segment s) = false.
Proof.
  intros H. unfold last_segment.
  destruct (rpartition "/" s) as [[d b]|] eqn:E; [|exact H].
  apply rpartition_spec in E as [Hs _]. rewrite Hs, has_char_app in H.
  apply orb_false_iff in H as [_ H]. unfold PyStr.has_char in *. simpl in H.
  first [exact H | apply orb_false_iff in H as [_ H]; exact H].
Qed.

Lemma urlparse_well_split (ok : str -> bool) (u : str) (p : UrlLib.ParseResult) :
  UrlLib.urlparse ok u = Ok p ->
  UrlLib.str_in (UrlLib.scheme p) ALLOWED_SCHEMES = true ->
  well_split ok p.
Proof.
  unfold UrlLib.urlparse. intros H Hsch.
  destruct (UrlLib.urlsplit ok u) as [r|e] eqn:Er; [|discriminate].
  destruct (urlsplit_shape _ _ _ Er) as (Hnl & Hacc & Hpath & Hprm & Hroot).
  cbn [rbind] in H.
  destruct (UrlLib.str_in (UrlLib.scheme r) UrlLib.uses_params
            && PyStr.has_char ";" (UrlLib.path r)) eqn:Eg.
  - apply andb_prop in Eg as [_ Hsemi].
    destruct (UrlLib.splitparams (UrlLib.path r)) as [pp prm] eqn:Esp.
    inversion H; subst p; clear H. cbn in *.
    destruct (splitparams_spec plain_char _ _ _ Hsemi Esp Hpath)
      as (Hpp & Hprm' & Hslash & Htail).
    constructor; cbn; auto.
    + apply allowed_scheme, Hsch.
    + apply plain_segment_intro; assumption.
    + intros Hne. destruct (Hroot Hne) as [He|Hst].
      * rewrite He in Hsemi. discriminate.
      * clear - Esp Hst. unfold UrlLib.splitparams in Esp.
        destruct (UrlLib.path r) as [|c pth]; [discriminate|].
        simpl in Hst. rewrite andb_true_r in Hst. apply Ascii.eqb_eq in Hst. subst c.
        destruct (rpartition "/" ("/"%char :: pth)) as [[dir base]|] eqn:E.
        -- apply rpartition_spec in E as [Hs _].
           destruct (span_until (is_char ";") base) as [pre [|x post]];
             inversion Esp; subst; [right; reflexivity|].
           destruct dir as [|d dir]; [right; reflexivity|].
           inversion Hs; subst. right; reflexivity.
        -- apply rpartition_none in E. unfold PyStr.has_char in E. simpl in E.
           discriminate.
  - inversion H; subst p; clear H.
    pose proof (allowed_scheme _ Hsch) as Hs2.
    assert (Hsemi : PyStr.has_char ";" (UrlLib.path r) = false).
    { destruct (PyStr.has_char ";" (UrlLib.path r)); [|reflexivity].
      rewrite andb_true_r in Eg. destruct Hs2 as [E|E]; rewrite E in Eg; discriminate. }
    constructor; auto.
    + rewrite Hprm. reflexivity.
    + apply last_segment_no_semicolon, Hsemi.
Qed.

Lemma lstrip_by_keep (P : ascii -> bool) (c : ascii) (s : str) :
  P c = false -> PyStr.lstrip_by P (c :: s) = c :: s.
Proof. intros H. simpl. rewrite H. reflexivity. Qed.

Lemma filter_safe_id (s : str) :
  forallb safe_char s = true ->
  List.filter (fun c => negb (UrlLib.unsafe_url_byte c)) s = s.
Proof. apply forallb_filter_id. Qed.

Lemma urlsplit_with_scheme (ok : str -> bool) (sch body : str) :
  sch = L "http" \/ sch = L "https" ->
  forallb safe_char body = true ->
  UrlLib.urlsplit ok (sch ++ ":"%char :: body) = UrlLib.split_hier ok sch body.
Proof.
  intros Hsch Hbody. unfold UrlLib.urlsplit.
  assert (Hl : PyStr.lstrip_by UrlLib.c0_control_or_space (sch ++ ":"%char :: body)
               = sch ++ ":"%char :: body).
  { destruct Hsch; subst sch; apply lstrip_by_keep; reflexivity. }
  rewrite Hl.
  assert (Hf : forallb safe_char (sch ++ ":"%char :: body) = true).
  { rewrite forallb_app. simpl. rewrite Hbody.
    destruct Hsch; subst sch; reflexivity. }
  rewrite (filter_safe_id _ Hf).
  assert (Hsp : UrlLib.split_scheme (sch ++ ":"%char :: body) = (sch, body)).
  { unfold UrlLib.split_scheme. rewrite span_until_stop.
    - destruct Hsch; subst sch; reflexivity.
    - destruct Hsch; subst sch; reflexivity.
    - reflexivity. }
  rewrite Hsp. reflexivity.
Qed.

Lemma split_once_none (c : ascii) (s : str) :
  PyStr.has_char c s = false -> UrlLib.split_once c s = (s, []).
Proof.
  intros H. unfold UrlLib.split_once. apply has_char_forallb in H.
  rewrite span_until_all by exact H. reflexivity.
Qed.

Lemma plain_no_query (s : str) :
  forallb plain_char s = true ->
  PyStr.has_char "?" s = false /\ PyStr.has_char "#" s = false.
Proof.
  intros H. split; apply has_char_forallb; eapply forallb_weaken; try exact H;
    intros x Hx; unfold plain_char in Hx;
    apply andb_prop in Hx as [Hx H2]; apply andb_prop in Hx as [_ H1]; assumption.
Qed.

Lemma startswith_slash (s : str) :
  PyStr.startswith (L "/") s = true -> exists r, s = "/"%char :: r.
Proof.
  destruct s as [|c r]; [discriminate|]. simpl. rewrite andb_true_r.
  intros H. apply Ascii.eqb_eq in H. subst c. eauto.
Qed.

(** [urlsplit] of a scheme, an authority and a path put back together. *)
Lemma split_hier_rebuilt (ok : str -> bool) (sch nl url : str) :
  forallb plain_segment_char nl = true ->
  UrlLib.netloc_rejected ok nl = false ->
  forallb plain_char url = true ->
  (nl <> [] -> PyStr.startswith (L "/") url = true) ->
  UrlLib.split_hier ok sch
    (if PyStr.truthy nl then L "//" ++ nl ++ url
     else if PyStr.startswith (L "/") url then L "//" ++ url else url)
  = Ok (UrlLib.mkParse sch nl url [] [] []).
Proof.
  intros Hnl Hacc Hurl Hroot.
  destruct (plain_no_query _ Hurl) as [Hq Hh].
  assert (Hfin : forall n, (let '(u5, frag) := UrlLib.split_once "#" url in
                  let '(u6, qry) := UrlLib.split_once "?" u5 in
                  Ok (UrlLib.mkParse sch n u6 [] qry frag))
                 = Ok (UrlLib.mkParse sch n url [] [] [])).
  { intros n. rewrite (split_once_none _ _ Hh), (split_once_none _ _ Hq). reflexivity. }
  unfold UrlLib.split_hier.
  destruct nl as [|c nl'] eqn:Enl.
  - cbn [PyStr.truthy].
    destruct (PyStr.startswith (L "/") url) eqn:Es.
    + destruct (startswith_slash _ Es) as [r ->].
      change (PyStr.startswith (L "//") (L "//" ++ "/"%char :: r)) with true.
      cbv iota. change (skipn 2 (L "//" ++ "/"%char :: r)) with ("/"%char :: r).
      change (span_until UrlLib.netloc_delim ("/"%char :: r)) with (@nil ascii, "/"%char :: r).
      cbv iota beta. rewrite Hacc. cbn [rbind]. apply Hfin.
    + assert (E2 : PyStr.startswith (L "//") url = false).
      { destruct url as [|x url]; [reflexivity|]. simpl in *.
        rewrite andb_true_r in Es. rewrite Es. reflexivity. }
      rewrite E2. cbn [rbind]. apply Hfin.
  - rewrite <- Enl in *. assert (Hne : nl <> []) by (rewrite Enl; discriminate).
    replace (PyStr.truthy nl) with true by (rewrite Enl; reflexivity).
    destruct (startswith_slash _ (Hroot Hne)) as [r Hr].
    change (PyStr.startswith (L "//") (L "//" ++ nl ++ url)) with true.
    cbv iota. change (skipn 2 (L "//" ++ nl ++ url)) with (nl ++ url).
    rewrite Hr. rewrite span_until_stop.
    + rewrite Hacc. cbn [rbind]. rewrite <- Hr. apply Hfin.
    + eapply forallb_weaken; [|exact Hnl]. intros x Hx.
      unfold plain_segment_char, plain_char in Hx.
      apply andb_prop in Hx as [Hx H3]. apply andb_prop in Hx as [Hx H2].
      apply andb_prop in Hx as [_ H1].
      unfold UrlLib.netloc_delim.
      apply negb_true_iff in H1, H2, H3. rewrite H1, H2, H3. reflexivity.
    + reflexivity.
Qed.

Lemma splitparams_rejoin (pth prm : str) :
  PyStr.has_char ";" (last_segment pth) = false ->
  PyStr.has_char "/" prm = false ->
  UrlLib.splitparams (pth ++ ";"%char :: prm) = (pth, prm).
Proof.
  intros Htail Hprm. unfold UrlLib.splitparams.
  unfold last_segment in Htail.
  destruct (rpartition "/" pth) as [[d b]|] eqn:E.
  - destruct (rpartition_spec _ _ _ _ E) as (Hs & Hb).
    rewrite Hs at 1. rewrite <- app_assoc. cbn [app].
    rewrite rpartition_last.
    + change (b ++ ";"%char :: prm) with (b ++ ";"%char :: prm).
      rewrite span_until_stop.
      * rewrite <- Hs. reflexivity.
      * apply has_char_forallb, Htail.
      * reflexivity.
    + rewrite has_char_app, Hb. unfold PyStr.has_char in *. simpl. exact Hprm.
  - apply rpartition_none in E.
    assert (En : rpartition "/" (pth ++ ";"%char :: prm) = None).
    { apply rpartition_none. rewrite has_char_app, E.
      unfold PyStr.has_char in *. simpl. exact Hprm. }
    rewrite En. rewrite span_until_stop; [reflexivity| |reflexivity].
    apply has_char_forallb, Htail.
Qed.

Lemma splitparams_stable (pth : str) :
  PyStr.has_char ";" (last_segment pth) = false ->
  PyStr.has_char ";" pth = true ->
  UrlLib.splitparams pth = (pth, []).
Proof.
  intros Htail Hsemi. unfold UrlLib.splitparams.
  unfold last_segment in Htail.
  destruct (rpartition "/" pth) as [[d b]|] eqn:E.
  - apply has_char_forallb in Htail.
    rewrite (span_until_all _ _ Htail). reflexivity.
  - rewrite Htail in Hsemi. discriminate.
Qed.

Lemma urlparse_urlunparse (ok : str -> bool) (q : UrlLib.ParseResult) :
  well_split ok q ->
  UrlLib.path q <> [] ->
  UrlLib.query q = [] -> UrlLib.fragment q = [] ->
  UrlLib.urlparse ok (UrlLib.urlunparse q) = Ok q.
Proof.
  intros [Hsch Hnl Hacc Hpath Hprm Htail Hroot] Hne Hq Hf.
  destruct q as [sch nl pth prm qry frg]. cbn in *. subst qry frg.
  unfold UrlLib.urlunparse. cbn [UrlLib.scheme UrlLib.netloc UrlLib.path
    UrlLib.params UrlLib.query UrlLib.fragment].
  set (url := if PyStr.truthy prm then pth ++ ";"%char :: prm else pth).
  assert (Hprm' : forallb plain_char prm = true /\ PyStr.has_char "/" prm = false).
  { split.
    - eapply forallb_weaken; [|exact Hprm]. intros x Hx.
      apply andb_prop in Hx as [Hx _]. exact Hx.
    - apply has_char_forallb. eapply forallb_weaken; [|exact Hprm]. intros x Hx.
      apply andb_prop in Hx as [_ Hx]. exact Hx. }
  destruct Hprm' as [Hprm1 Hprm2].
  assert (Hurl : forallb plain_char url = true).
  { subst url. destruct (PyStr.truthy prm); [|exact Hpath].
    rewrite forallb_app. simpl. rewrite Hpath, Hprm1. reflexivity. }
  assert (Hst : PyStr.startswith (L "/") url = PyStr.startswith (L "/") pth).
  { subst url. destruct (PyStr.truthy prm); [|reflexivity].
    destruct pth; [contradiction | reflexivity]. }
  assert (Hut : PyStr.truthy url = true).
  { subst url. destruct (PyStr.truthy prm); destruct pth; try contradiction; reflexivity. }
  assert (Hroot' : nl <> [] -> PyStr.startswith (L "/") url = true).
  { intros H. rewrite Hst. destruct (Hroot H) as [E|E]; [contradiction | exact E]. }
  assert (Hun : UrlLib.urlunsplit sch nl url [] []
                = sch ++ ":"%char ::
                  (if PyStr.truthy nl then L "//" ++ nl ++ url
                   else if PyStr.startswith (L "/") url then L "//" ++ url else url)).
  { unfold UrlLib.urlunsplit. cbn [PyStr.truthy].
    replace (PyStr.truthy sch) with true by (destruct Hsch; subst sch; reflexivity).
    replace (UrlLib.str_in sch UrlLib.uses_netloc) with true
      by (destruct Hsch; subst sch; reflexivity).
    rewrite Hut. cbn [negb andb orb].
    destruct (PyStr.truthy nl) eqn:Etn.
    - rewrite Hroot' by (apply truthy_true, Etn). reflexivity.
    - destruct (PyStr.startswith (L "//") url) eqn:E2.
      + replace (PyStr.startswith (L "/") url) with true; [reflexivity|].
        destruct url as [|x url']; [discriminate|]. simpl in *.
        apply andb_prop in E2 as [-> _]. reflexivity.
      + reflexivity. }
  rewrite Hun. unfold UrlLib.urlparse.
  rewrite urlsplit_with_scheme; [|exact Hsch|].
  2:{ apply (forallb_weaken plain_char).
      - intros x Hx. unfold plain_char in Hx. unfold safe_char.
        apply andb_prop in Hx as [Hx _]. apply andb_prop in Hx as [Hx _]. exact Hx.
      - assert (Hn' : forallb plain_char nl = true).
        { eapply forallb_weaken; [|exact Hnl]. intros x Hx.
          apply andb_prop in Hx as [Hx _]. exact Hx. }
        destruct (PyStr.truthy nl).
        + change (L "//" ++ nl ++ url) with ("/"%char :: "/"%char :: nl ++ url).
          cbn [forallb]. rewrite forallb_app, Hn', Hurl. reflexivity.
        + destruct (PyStr.startswith (L "/") url); [|exact Hurl].
          change (L "//" ++ url) with ("/"%char :: "/"%char :: url).
          cbn [forallb]. rewrite Hurl. reflexivity. }
  rewrite split_hier_rebuilt by assumption.
  cbn [rbind UrlLib.scheme UrlLib.path UrlLib.netloc UrlLib.query UrlLib.fragment].
  replace (UrlLib.str_in sch UrlLib.uses_params) with true
    by (destruct Hsch; subst sch; reflexivity).
  cbn [andb]. subst url.
  destruct prm as [|c prm'] eqn:Eprm.
  - cbn [PyStr.truthy].
    destruct (PyStr.has_char ";" pth) eqn:Esemi; [|reflexivity].
    rewrite (splitparams_stable _ Htail Esemi). reflexivity.
  - cbn [PyStr.truthy]. rewrite <- Eprm in *.
    replace (PyStr.has_char ";" (pth ++ ";"%char :: prm)) with true.
    2:{ rewrite has_char_app. unfold PyStr.has_char at 2. simpl.
        rewrite orb_true_r. reflexivity. }
    rewrite (splitparams_rejoin _ _ Htail Hprm2). reflexivity.
Qed.

(** ** Normalisation reaches a fixed point *)

Lemma endswith_slash_app (s : str) : PyStr.endswith (L "/") (s ++ L "/") = true.
Proof.
  unfold PyStr.endswith. rewrite rev_app_distr. reflexivity.
Qed.

Lemma startswith_app_keep (p s t : str) :
  PyStr.startswith p s = true -> PyStr.startswith p (s ++ t) = true.
Proof.
  revert s. induction p as [|a p IH]; intros s H; [reflexivity|].
  destruct s as [|b s]; [discriminate|].
  simpl in *. apply andb_prop in H as [-> H]. simpl. auto.
Qed.

Lemma directory_path_truthy (p0 : str) :
  PyStr.truthy p0 = true ->
  directory_path p0 =
    if negb (PyStr.truthy (splitext_ext p0)) && negb (PyStr.endswith (L "/") p0)
    then p0 ++ L "/" else p0.
Proof. intros H. unfold directory_path. rewrite H. reflexivity. Qed.

Lemma directory_path_fixed (path : str) :
  directory_path (directory_path path) = directory_path path.
Proof.
  assert (Hfix : forall p0, PyStr.truthy p0 = true ->
                 directory_path (directory_path p0) = directory_path p0).
  { intros p0 Hp0. rewrite (directory_path_truthy p0 Hp0).
    destruct (negb (PyStr.truthy (splitext_ext p0)) && negb (PyStr.endswith (L "/") p0)) eqn:E.
    - rewrite directory_path_truthy by (destruct p0; reflexivity).
      rewrite endswith_slash_app, andb_false_r. reflexivity.
    - rewrite (directory_path_truthy p0 Hp0), E. reflexivity. }
  destruct path as [|c path].
  - change (directory_path []) with (directory_path (L "/")). apply Hfix. reflexivity.
  - apply Hfix. reflexivity.
Qed.

Lemma directory_path_shape (path : str) :
  let d := directory_path path in
  d <> []
  /\ (forallb plain_char path = true -> forallb plain_char d = true)
  /\ (PyStr.has_char ";" (last_segment path) = false ->
      PyStr.has_char ";" (last_segment d) = false)
  /\ (path = [] \/ PyStr.startswith (L "/") path = true ->
      PyStr.startswith (L "/") d = true).
Proof.
  unfold directory_path.
  destruct path as [|c path]; cbn [PyStr.truthy].
  - repeat split; try discriminate; reflexivity.
  - set (p := c :: path).
    destruct (negb _ && negb _); repeat split; try discriminate; auto.
    + intros H. rewrite forallb_app, H. reflexivity.
    + intros _. rewrite last_segment_dir. reflexivity.
    + intros [H|H]; [discriminate|]. apply startswith_app_keep, H.
    + intros [H|H]; [discriminate | exact H].
Qed.

Section NormalizeFacts.
Context {W : Capabilities}.

Lemma normalize_url_unfold (u : str) (p : UrlLib.ParseResult) :
  urlparse u = Ok p ->
  normalize_url u =
    Ok (if negb (UrlLib.str_in (UrlLib.scheme p) ALLOWED_SCHEMES) then []
        else UrlLib.urlunparse
               (UrlLib.mkParse (UrlLib.scheme p) (UrlLib.netloc p)
                  (directory_path (UrlLib.path p)) (UrlLib.params p) [] [])).
Proof.
  intros H. unfold normalize_url. rewrite H. cbn [rbind].
  destruct (negb _); reflexivity.
Qed.

Lemma normalize_url_nil : normalize_url [] = Ok [].
Proof. reflexivity. Qed.

Lemma normalize_url_idem (u n : str) :
  normalize_url u = Ok n -> normalize_url n = Ok n.
Proof.
  intros H. destruct (urlparse u) as [p|e] eqn:Ep.
  2:{ unfold normalize_url in H. rewrite Ep in H. discriminate. }
  rewrite (normalize_url_unfold _ _ Ep) in H.
  destruct (UrlLib.str_in (UrlLib.scheme p) ALLOWED_SCHEMES) eqn:Es;
    cbn [negb] in H; inversion H; subst n; clear H.
  2:{ apply normalize_url_nil. }
  pose proof (urlparse_well_split _ _ _ Ep Es) as [Hsch Hnl Hacc Hpath Hprm Htail Hroot].
  destruct (directory_path_shape (UrlLib.path p)) as (Hne & Hpl & Htl & Hrt).
  set (q := UrlLib.mkParse _ _ _ _ _ _).
  assert (Hq : well_split netloc_ok q).
  { constructor; cbn; auto; intros Hn; right; apply Hrt; auto. }
  assert (Hpq : urlparse (UrlLib.urlunparse q) = Ok q).
  { apply urlparse_urlunparse; [exact Hq | exact Hne | reflexivity | reflexivity]. }
  rewrite (normalize_url_unfold _ _ Hpq). cbn [UrlLib.scheme q].
  subst q. cbn [UrlLib.scheme UrlLib.netloc UrlLib.path UrlLib.params].
  rewrite Es. cbn [negb]. rewrite directory_path_fixed. reflexivity.
Qed.
End NormalizeFacts.

(** ** Query and fragment do not reach the key *)





















Section QueryBlind.
Context {W : Capabilities}.


End QueryBlind.

(** ** The chunking scenario *)

Lemma two_paragraphs_paras :
  map PyStr.strip
      (List.filter (fun p => PyStr.truthy (PyStr.strip p))
         (re_split_paragraphs two_paragraphs))
  = [para_one; para_two].
Proof. vm_compute. reflexivity. Qed.

Lemma chunk_step_first (m : Z) :
  chunk_step m 10 ([], []) para_one = ([], para_one).
Proof.
  unfold chunk_step. destruct (_ <=? m); reflexivity.
Qed.

Lemma chunk_step_second_small (m : Z) :
  m < 39 ->
  chunk_step m 10 ([], para_one) para_two
  = ([para_one], PyStr.slice_from (-10) para_one ++ [LF] ++ para_two).
Proof.
  intros Hm. unfold chunk_step.
  change (PyStr.len para_one + PyStr.len para_two + 1) with 39.
  destruct (Z.leb_spec 39 m); [lia | reflexivity].
Qed.

Lemma chunk_step_second_large (m : Z) :
  39 <= m ->
  chunk_step m 10 ([], para_one) para_two = ([], para_one ++ [LF] ++ para_two).
Proof.
  intros Hm. unfold chunk_step.
  change (PyStr.len para_one + PyStr.len para_two + 1) with 39.
  destruct (Z.leb_spec 39 m); [reflexivity | lia].
Qed.

Lemma chunk_text_two_paragraphs_cases (m : Z) :
  (0 < m < 39 ->
   chunk_text two_paragraphs m 10
   = [para_one; PyStr.slice_from (-10) para_one ++ [LF] ++ para_two])
  /\ (39 <= m -> chunk_text two_paragraphs m 10 = [para_one ++ [LF] ++ para_two]).
Proof.
  split; intros Hm; unfold chunk_text;
    (destruct (Z.leb_spec m 0); [lia|]);
    rewrite two_paragraphs_paras; cbn [fold_left]; rewrite chunk_step_first.
  - rewrite chunk_step_second_small by lia. reflexivity.
  - rewrite chunk_step_second_large by lia. reflexivity.
Qed.

(** ** What each method leaves alone *)

Section Frames.
Context {W : Capabilities}.

Lemma kept_refl (c : Crawler) : kept c c.
Proof. repeat split. Qed.

Lemma kept_trans (a b c : Crawler) : kept a b -> kept b c -> kept a c.
Proof. unfold kept. intros (?&?&?) (?&?&?). repeat split; congruence. Qed.

Lemma for_each_ind {A : Type} (R : Crawler -> Crawler -> Prop)
      (f : Crawler -> A -> result Crawler) :
  (forall c, R c c) ->
  (forall a b c, R a b -> R b c -> R a c) ->
  (forall c x c', f c x = Ok c' -> R c c') ->
  forall xs c, R c (for_each f xs c).1.
Proof.
  intros Hrefl Htrans Hf xs. induction xs as [|x xs IH]; intros c; simpl.
  - apply Hrefl.
  - destruct (f c x) as [c'|e] eqn:E; simpl.
    + eapply Htrans; [apply (Hf _ _ _ E) | apply IH].
    + apply Hrefl.
Qed.

Lemma queue_only_refl (c : Crawler) : queue_only c c.
Proof. destruct c; reflexivity. Qed.

Lemma queue_only_trans (a b c : Crawler) :
  queue_only a b -> queue_only b c -> queue_only a c.
Proof.
  unfold queue_only. intros H1 H2. rewrite H2 at 1. rewrite H1 at 1.
  destruct a; reflexivity.
Qed.

Lemma enqueue_link_cases (page_url : str) (c : Crawler) (href : str) (c' : Crawler) :
  enqueue_link page_url c href = Ok c' ->
  c' = c \/ exists u, c' = set_queue (queue c ++ [u]) c.
Proof.
  unfold enqueue_link. intros H.
  repeat match type of H with
  | (if ?b then _ else _) = _ => destruct b
  | rbind ?m _ = _ => destruct m; cbn [rbind] in H
  | Ok _ = Ok _ => inversion H; subst; clear H
  | Raise _ = Ok _ => discriminate
  end; eauto.
Qed.

Lemma enqueue_link_queue_only (page_url : str) (c : Crawler) (href : str) (c' : Crawler) :
  enqueue_link page_url c href = Ok c' -> queue_only c c'.
Proof.
  intros H. destruct (enqueue_link_cases _ _ _ _ H) as [->|[u ->]].
  - apply queue_only_refl.
  - destruct c; reflexivity.
Qed.

Lemma enqueue_links_queue_only (html page_url : str) (c : Crawler) :
  queue_only c (enqueue_links html page_url c).1.
Proof.
  unfold enqueue_links. apply for_each_ind.
  - apply queue_only_refl.
  - apply queue_only_trans.
  - intros. eapply enqueue_link_queue_only; eauto.
Qed.

Lemma write_chunk_outputs_only pid url title total c d x :
  outputs_only c (write_chunk pid url title total (c, d) x).1.
Proof.
  unfold write_chunk. destruct x as [ci ck].
  destruct (bool_decide _); repeat split.
Qed.

Lemma fold_write_chunk_outputs_only pid url title total xs c d :
  outputs_only c (fold_left (write_chunk pid url title total) xs (c, d)).1.
Proof.
  revert c d. induction xs as [|x xs IH]; intros c d; cbn [fold_left].
  - repeat split.
  - pose proof (write_chunk_outputs_only pid url title total c d x) as H1.
    destruct (write_chunk pid url title total (c, d) x) as [c1 d1].
    specialize (IH c1 d1). cbn [fst] in H1.
    unfold outputs_only in *. destruct H1 as (?&?&?&?&?&?), IH as (?&?&?&?&?&?).
    repeat split; congruence.
Qed.

Lemma write_records_outputs_only pid url title text hp tp c :
  outputs_only c (write_records pid url title text hp tp c).1.
Proof.
  unfold write_records.
  destruct (if PyStr.truthy text then _ else _) as [|ck cks] eqn:E.
  - repeat split.
  - pose proof (fold_write_chunk_outputs_only pid url title (length (ck :: cks))
                  (combine (seq 0 (length (ck :: cks))) (ck :: cks)) c 0) as H.
    destruct (fold_left _ _ _) as [c1 d1]. cbn [fst] in *.
    unfold outputs_only in *. destruct H as (?&?&?&?&?&?). repeat split; assumption.
Qed.

Lemma process_page_kept (url html : str) (c : Crawler) :
  kept c (process_page url html c).1.
Proof.
  unfold process_page.
  destruct (url_to_relpath url (base_path c)) as [rel|e]; [|apply kept_refl].
  destruct (extract_text_and_title html) as [[text title]|e]; [|apply kept_refl].
  match goal with |- context [write_records ?a ?b ?c0 ?d ?e0 ?f ?g] =>
    pose proof (write_records_outputs_only a b c0 d e0 f g) as Hw;
    destruct (write_records a b c0 d e0 f g) as [c1 [total deduped]] end.
  cbn [fst] in Hw.
  match goal with |- context [enqueue_links ?a ?b ?c0] =>
    pose proof (enqueue_links_queue_only a b c0) as Hq;
    destruct (enqueue_links a b c0) as [c2 [e|]] end;
    cbn [fst] in Hq; unfold queue_only in Hq.
  - cbn [fst]. rewrite Hq. destruct Hw as (?&?&?&?&?&?). repeat split; assumption.
  - destruct (_ =? 0); cbn [fst]; rewrite Hq; destruct Hw as (?&?&?&?&?&?);
      repeat split; assumption.
Qed.

(** The three ways through the loop body: nothing to pop, a URL
    skipped, a URL handed to [fetch]. *)
Lemma loop_body_cases (c c' : Crawler) (e : option exn) :
  loop_body c = (c', e) ->
  settings_of c' = settings_of c
  /\ ((queue c = [] /\ c' = c /\ e = None)
      \/ (exists u q, queue c = u :: q /\ visited c' = visited c
                      /\ fetched c' = fetched c /\ queue c' = q /\ e = None)
      \/ (exists u q, queue c = u :: q /\ (u ∉ visited c)
                      /\ visited c' = {[ u ]} ∪ visited c
                      /\ fetched c' = fetched c ++ [u])).
Proof.
  unfold loop_body. intros H.
  destruct (queue c) as [|u q] eqn:Eq.
  { inversion H; subst. split; [reflexivity|]. left. auto. }
  cbn [visited set_queue] in H.
  destruct (bool_decide (u ∈ visited c)) eqn:Ev.
  { inversion H; subst. split; [reflexivity|]. right; left. exists u, q. auto. }
  apply bool_decide_eq_false in Ev.
  destruct (negb (can_fetch (set_queue q c) u)).
  { inversion H; subst. split; [reflexivity|]. right; left. exists u, q. auto. }
  cbn [fetched set_visited set_stats set_queue queue stats] in H.
  destruct (fetch (length (fetched c)) u) as [html|].
  - match type of H with process_page ?a ?b ?c0 = _ =>
      pose proof (process_page_kept a b c0) as Hk end.
    rewrite H in Hk. cbn [fst] in Hk. destruct Hk as (Hs & Hv & Hf).
    split; [exact Hs|]. right; right. exists u, q. auto.
  - inversion H; subst. split; [reflexivity|]. right; right. exists u, q. auto.
Qed.
End Frames.

(** ** Invariants of the crawl loop *)

Section LoopFacts.
Context {W : Capabilities}.

Lemma run_loop_invariant (I : Crawler -> Prop) :
  (forall c c' e, I c -> loop_test c = true -> loop_body c = (c', e) -> I c') ->
  forall fuel n c o,
    I c -> run_loop fuel n c = Some o ->
    exists c', final_state o = Some c' /\ I c'.
Proof.
  intros Hstep fuel. induction fuel as [|fuel IH]; intros n c o Hc H; [discriminate|].
  cbn [run_loop] in H.
  destruct (sigint_before n).
  { inversion H; subst. eauto. }
  destruct (loop_test c) eqn:Et.
  2:{ inversion H; subst. eauto. }
  destruct (loop_body c) as [c' [e|]] eqn:Eb.
  - inversion H; subst. exists c'. split; [reflexivity|]. eapply Hstep; eauto.
  - eapply IH; [|exact H]. eapply Hstep; eauto.
Qed.

Lemma queue_only_set (q : list str) (c : Crawler) : queue_only c (set_queue q c).
Proof. destruct c; reflexivity. Qed.

Lemma seed_link_queue_only (c : Crawler) (link : str) (c' : Crawler) :
  seed_link c link = Ok c' -> queue_only c c'.
Proof.
  unfold seed_link. intros H.
  destruct (normalize_url link) as [n|]; [|discriminate]. cbn [rbind] in H.
  destruct (PyStr.truthy n).
  - destruct (is_within_base n (base_netloc c) (base_path c)) as [[|]|];
      cbn [rbind] in H; inversion H; subst.
    + apply queue_only_set.
    + apply queue_only_refl.
  - inversion H; subst. apply queue_only_refl.
Qed.

Lemma seed_queue_queue_only (c : Crawler) : queue_only c (seed_queue c).1.
Proof.
  unfold seed_queue. destruct (cfg_use_sitemap _); cbn [fst].
  - eapply queue_only_trans; [apply queue_only_set | apply for_each_ind].
    + apply queue_only_refl.
    + apply queue_only_trans.
    + intros. eapply seed_link_queue_only; eauto.
  - apply queue_only_set.
Qed.

(** What the loop starts from. *)
Lemma crawl_start (cf : Config) (d : OutDir) (c0 : Crawler) :
  init_state cf d = Ok c0 ->
  let c1 := (seed_queue c0).1 in
  cfg c1 = cf /\ visited c1 = preloaded_urls cf d /\ fetched c1 = []
  /\ outputs_of c1 = (∅, [], [], [], []) /\ stats c1 = Stats0.
Proof.
  intros H. unfold init_state in H.
  destruct (normalize_url (cfg_base_url cf)) as [bu|]; [|discriminate].
  cbn [rbind] in H. destruct (negb (PyStr.truthy bu)); [discriminate|].
  destruct (urlparse bu) as [bp|]; [|discriminate]. cbn [rbind] in H.
  inversion H; subst c0; clear H. cbv zeta.
  match goal with |- context [seed_queue ?x] =>
    pose proof (seed_queue_queue_only x) as Hq end.
  unfold queue_only in Hq. rewrite Hq. repeat split.
Qed.

(** Every way [crawl] ends with a state has passed through the loop from
    a seeded state, or stopped while seeding. *)
Lemma crawl_invariant (I : Crawler -> Prop) (cf : Config) (d : OutDir) :
  (forall c0, init_state cf d = Ok c0 -> I (seed_queue c0).1) ->
  (forall c c' e, I c -> loop_test c = true -> loop_body c = (c', e) -> I c') ->
  forall fuel o c,
    crawl cf d fuel = Some o -> final_state o = Some c -> I c.
Proof.
  intros Hinit Hstep fuel o c H Hf. unfold crawl in H.
  destruct (init_state cf d) as [c0|e] eqn:Ei.
  2:{ inversion H; subst. discriminate. }
  specialize (Hinit c0 eq_refl).
  destruct (seed_queue c0) as [c1 [e|]].
  - inversion H; subst. cbn in Hf. inversion Hf; subst. exact Hinit.
  - destruct (run_loop_invariant I Hstep fuel 0%nat c1 o Hinit H) as (c' & Hc' & HI).
    congruence.
Qed.

Lemma settings_cfg (c c' : Crawler) : settings_of c' = settings_of c -> cfg c' = cfg c.
Proof. unfold settings_of. intros H. inversion H. reflexivity. Qed.

Lemma frontier_inv_step (cf : Config) (bound : Z) (c c' : Crawler) (e : option exn) :
  frontier_inv cf bound c -> loop_test c = true -> loop_body c = (c', e) ->
  frontier_inv cf bound c'.
Proof.
  intros (Hcf & Hnd & Hsub & Hsz) Ht Hb.
  destruct (loop_body_cases _ _ _ Hb) as (Hs & [(Hq & -> & _) | [H | H]]).
  - repeat split; assumption.
  - destruct H as (u & q & Hq & Hv & Hf & _).
    unfold frontier_inv. rewrite (settings_cfg _ _ Hs), Hv, Hf. auto.
  - destruct H as (u & q & Hq & Hnv & Hv & Hf).
    unfold frontier_inv. rewrite (settings_cfg _ _ Hs), Hv, Hf.
    split; [exact Hcf|]. split; [|split].
    + apply NoDup_app. split; [exact Hnd|]. split.
      * intros x Hx Hx'. apply list_elem_of_singleton in Hx'. subst x.
        apply Hnv, Hsub, Hx.
      * apply NoDup_singleton.
    + intros x Hx. apply elem_of_app in Hx as [Hx|Hx].
      * apply elem_of_union_r, Hsub, Hx.
      * apply list_elem_of_singleton in Hx. subst x.
        apply elem_of_union_l, elem_of_singleton. reflexivity.
    + rewrite size_union by (apply disjoint_singleton_l, Hnv).
      rewrite size_singleton.
      unfold loop_test in Ht. apply andb_prop in Ht as [_ Ht].
      apply Z.ltb_lt in Ht. rewrite Hcf in Ht. lia.
Qed.



End LoopFacts.

(** ** Deduplication *)

Section Dedup.
Context {W : Capabilities}.

Lemma dedup_inv_ext (p : Z) (c c' : Crawler) :
  dedup_view c' = dedup_view c -> dedup_inv p c -> dedup_inv p c'.
Proof.
  unfold dedup_view, dedup_inv. intros Ho.
  injection Ho as H1 H2 H3 H4 H5.
  rewrite H1, H2, H3, H4, H5. tauto.
Qed.

Lemma write_chunk_dedup pid url title total c d x :
  dedup_inv d c ->
  dedup_inv (write_chunk pid url title total (c, d) x).2
            (write_chunk pid url title total (c, d) x).1.
Proof.
  intros (Hset & Hmem & Hnd & Hmin & Hcons & Hcnt).
  unfold write_chunk. destruct x as [ci ck].
  cbn [chunk_hashes set_hashed].
  destruct (bool_decide (hash_text ck ∈ chunk_hashes c)) eqn:E; cbn [fst snd].
  - apply bool_decide_eq_true in E.
    unfold dedup_inv. cbn [chunk_hashes fw_full fw_min hashed stats set_hashed].
    repeat split; try assumption.
    + intros Hh. apply elem_of_app in Hh as [Hh|Hh]; [apply Hmem, Hh|].
      apply list_elem_of_singleton in Hh. subst h. exact E.
    + intros Hh. apply elem_of_app. left. apply Hmem, Hh.
    + rewrite length_app. simpl. lia.
  - apply bool_decide_eq_false in E.
    unfold dedup_inv.
    cbn [chunk_hashes fw_full fw_min hashed stats set_hashed retain_chunk].
    rewrite !map_app. cbn [map fr_hash].
    repeat split.
    + rewrite list_to_set_app_L, <- Hset. cbn [list_to_set foldr map].
      rewrite (right_id_L ∅ (∪)). apply (comm_L (∪)).
    + intros Hh. apply elem_of_app in Hh as [Hh|Hh].
      * apply elem_of_union_r, Hmem, Hh.
      * apply list_elem_of_singleton in Hh. subst h.
        apply elem_of_union_l, elem_of_singleton. reflexivity.
    + intros Hh. apply elem_of_union in Hh as [Hh|Hh].
      * apply elem_of_singleton in Hh. subst h. apply elem_of_app. right.
        apply list_elem_of_singleton. reflexivity.
      * apply elem_of_app. left. apply Hmem, Hh.
    + apply NoDup_app. split; [exact Hnd|]. split; [|apply NoDup_singleton].
      intros h Hh Hh'. apply list_elem_of_singleton in Hh'. subst h.
      apply E. rewrite Hset. apply elem_of_list_to_set. exact Hh.
    + rewrite Hmin. reflexivity.
    + apply Forall_app. split; [exact Hcons|]. constructor; [reflexivity|constructor].
    + rewrite !length_app. simpl. lia.
Qed.

Lemma fold_write_chunk_dedup pid url title total xs c d :
  dedup_inv d c ->
  dedup_inv (fold_left (write_chunk pid url title total) xs (c, d)).2
            (fold_left (write_chunk pid url title total) xs (c, d)).1.
Proof.
  revert c d. induction xs as [|x xs IH]; intros c d H; cbn [fold_left].
  - exact H.
  - pose proof (write_chunk_dedup pid url title total c d x H) as H1.
    destruct (write_chunk pid url title total (c, d) x) as [c1 d1].
    apply IH, H1.
Qed.

Lemma write_records_dedup pid url title text hp tp c :
  dedup_inv 0 c ->
  dedup_inv (write_records pid url title text hp tp c).2.2
            (write_records pid url title text hp tp c).1.
Proof.
  intros H. unfold write_records.
  destruct (if PyStr.truthy text then _ else _) as [|ck cks] eqn:E.
  - exact H.
  - pose proof (fold_write_chunk_dedup pid url title (length (ck :: cks))
                  (combine (seq 0 (length (ck :: cks))) (ck :: cks)) c 0 H) as Hf.
    destruct (fold_left _ _ _) as [c1 d1]. cbn [fst snd] in *.
    eapply dedup_inv_ext; [|exact Hf]; reflexivity.
Qed.

Lemma queue_only_outputs (c c' : Crawler) :
  queue_only c c' -> outputs_of c' = outputs_of c /\ stats c' = stats c
                     /\ page_id c' = page_id c.
Proof. unfold queue_only. intros ->. repeat split. Qed.

Lemma process_page_dedup (url html : str) (c : Crawler) :
  dedup_inv 0 c -> dedup_inv 0 (process_page url html c).1.
Proof.
  intros H. unfold process_page.
  destruct (url_to_relpath url (base_path c)) as [rel|e]; [|exact H].
  destruct (extract_text_and_title html) as [[text title]|e]; [|exact H].
  match goal with |- context [write_records ?a ?b ?c0 ?d ?e0 ?f ?g] =>
    pose proof (write_records_dedup a b c0 d e0 f g H) as Hw;
    destruct (write_records a b c0 d e0 f g) as [c1 [total deduped]] end.
  cbn [fst snd] in Hw.
  assert (H2 : dedup_inv 0 (set_stats (count_page total deduped (stats c1)) c1)).
  { destruct Hw as (?&?&?&?&?&Hc). unfold dedup_inv.
    cbn [chunk_hashes fw_full fw_min hashed stats set_stats count_page chunks_deduped].
    repeat split; try assumption; try (apply H1); lia. }
  match goal with |- context [enqueue_links ?a ?b ?c0] =>
    pose proof (enqueue_links_queue_only a b c0) as Hq;
    destruct (enqueue_links a b c0) as [c2 [e|]] end;
    cbn [fst] in Hq; apply queue_only_outputs in Hq as (Ho & Hs & _).
  - cbn [fst]. eapply dedup_inv_ext; [|exact H2].
    unfold dedup_view, outputs_of in *. injection Ho as -> -> -> _ ->.
    rewrite Hs. reflexivity.
  - assert (Hv : dedup_view c2
                 = dedup_view (set_stats (count_page total deduped (stats c1)) c1)).
    { unfold dedup_view, outputs_of in *. injection Ho as -> -> -> _ ->.
      rewrite Hs. reflexivity. }
    destruct (_ =? 0); cbn [fst];
      (eapply dedup_inv_ext; [|exact H2]); rewrite <- Hv; reflexivity.
Qed.

Lemma loop_body_dedup (c c' : Crawler) (e : option exn) :
  dedup_inv 0 c -> loop_body c = (c', e) -> dedup_inv 0 c'.
Proof.
  intros H Hb. unfold loop_body in Hb.
  destruct (queue c) as [|u q]; [inversion Hb; subst; exact H|].
  destruct (bool_decide _).
  { inversion Hb; subst. eapply dedup_inv_ext; [|exact H]; reflexivity. }
  destruct (negb _).
  { inversion Hb; subst. eapply dedup_inv_ext; [|exact H]; reflexivity. }
  destruct (fetch _ u) as [html|].
  - match type of Hb with process_page ?a ?b ?c0 = _ =>
      pose proof (process_page_dedup a b c0) as Hp end.
    rewrite Hb in Hp. apply Hp.
    eapply dedup_inv_ext; [|exact H]; reflexivity.
  - inversion Hb; subst. eapply dedup_inv_ext; [|exact H]; reflexivity.
Qed.

Lemma one_full_record (h : str) (l : list FullRecord) :
  NoDup (map fr_hash l) -> h ∈ map fr_hash l ->
  length (full_with_hash h l) = 1%nat.
Proof.
  unfold full_with_hash, PyStr.eqb.
  induction l as [|f l IH]; intros Hnd Hin; [inversion Hin|].
  cbn [map] in Hnd, Hin. apply NoDup_cons in Hnd as [Hf Hnd].
  cbn [List.filter]. destruct (bool_decide (fr_hash f = h)) eqn:E.
  - apply bool_decide_eq_true in E. subst h. cbn [length]. f_equal.
    clear IH Hin. induction l as [|g l IHl]; [reflexivity|].
    cbn [map] in Hf. apply not_elem_of_cons in Hf as [Hne Hf].
    cbn [map] in Hnd. apply NoDup_cons in Hnd as [_ Hnd].
    cbn [List.filter]. rewrite bool_decide_eq_false_2 by congruence.
    apply IHl; assumption.
  - apply bool_decide_eq_false in E. apply elem_of_cons in Hin as [Hin|Hin];
      [congruence|]. apply IH; assumption.
Qed.

Lemma min_records_follow (h : str) (l : list FullRecord) :
  Forall (fun f => fr_hash f = hash_text (fr_contents f)) l ->
  length (min_with_hash h (map min_of_full l)) = length (full_with_hash h l).
Proof.
  unfold min_with_hash, full_with_hash.
  induction 1 as [|f l Hf _ IH]; [reflexivity|].
  cbn [map List.filter min_of_full mr_contents]. rewrite <- Hf.
  destruct (PyStr.eqb (fr_hash f) h); cbn [length]; rewrite IH; reflexivity.
Qed.
End Dedup.

(** ** The manifest *)

Section Manifest.
Context {W : Capabilities}.

Lemma write_chunk_mani pid url title total c d x :
  fw_mani (write_chunk pid url title total (c, d) x).1 = fw_mani c
  /\ cfg (write_chunk pid url title total (c, d) x).1 = cfg c.
Proof.
  unfold write_chunk. destruct x as [ci ck].
  destruct (bool_decide _); split; reflexivity.
Qed.

Lemma fold_write_chunk_mani pid url title total xs c d :
  fw_mani (fold_left (write_chunk pid url title total) xs (c, d)).1 = fw_mani c.
Proof.
  revert c d. induction xs as [|x xs IH]; intros c d; cbn [fold_left]; [reflexivity|].
  pose proof (write_chunk_mani pid url title total c d x) as [H1 _].
  destruct (write_chunk pid url title total (c, d) x) as [c1 d1].
  rewrite IH. exact H1.
Qed.

Lemma write_records_mani pid url title text hp tp c :
  page_chunks c text <> [] ->
  fw_mani (write_records pid url title text hp tp c).1
  = fw_mani c ++ [mkRow (PageId pid) url title (path_field hp) (path_field tp)
                        (PyStr.len text)].
Proof.
  unfold page_chunks, write_records. intros Hne.
  destruct (if PyStr.truthy text then _ else _) as [|ck cks]; [contradiction|].
  pose proof (fold_write_chunk_mani pid url title (length (ck :: cks))
                (combine (seq 0 (length (ck :: cks))) (ck :: cks)) c 0) as Hf.
  destruct (fold_left _ _ _) as [c1 d1]. cbn [fst] in *.
  cbn [fw_mani write_manifest_row]. rewrite Hf. reflexivity.
Qed.

Lemma write_records_mani_empty pid url title text hp tp c :
  page_chunks c text = [] ->
  write_records pid url title text hp tp c = (c, (0, 0)).
Proof.
  unfold page_chunks, write_records. intros ->. reflexivity.
Qed.




(** ** Link discovery *)

Lemma enqueue_link_spec (c : Crawler) (page_url href joined abs_url : str)
      (p : UrlLib.ParseResult) :
  urljoin page_url (PyStr.strip href) = Ok joined ->
  normalize_url joined = Ok abs_url ->
  urlparse abs_url = Ok p ->
  enqueue_link page_url c href
  = Ok (if is_link (PyStr.strip href) && eligible c abs_url p
        then set_queue (queue c ++ [abs_url]) c else c).
Proof.
  intros Hj Hn Hp. unfold enqueue_link, is_link, eligible.
  destruct (PyStr.startswith (L "mailto:") (PyStr.strip href)
            || PyStr.startswith (L "javascript:") (PyStr.strip href));
    cbn [negb andb]; [reflexivity|].
  rewrite Hj. cbn [rbind]. rewrite Hn. cbn [rbind].
  destruct (PyStr.truthy abs_url); cbn [negb orb andb]; [|reflexivity].
  destruct (bool_decide (abs_url ∈ visited c)); cbn [negb andb]; [reflexivity|].
  unfold is_within_base. rewrite Hp. cbn [rbind].
  fold (host_prefix_ok c p).
  destruct (host_prefix_ok c p); cbn [negb andb]; [|reflexivity].
  fold (extension_ok p).
  destruct (extension_ok p); cbn [negb andb]; [|reflexivity].
  unfold patterns_ok.
  destruct (cfg_include_re (cfg c)) as [inc|], (cfg_exclude_re (cfg c)) as [exc|];
    cbn [negb andb];
    repeat match goal with |- context [inc abs_url] => destruct (inc abs_url) end;
    repeat match goal with |- context [exc abs_url] => destruct (exc abs_url) end;
    reflexivity.
Qed.
End Manifest.

(** * The claims *)

(** C1, as amended.  In every run the URLs handed to [fetch] are pairwise
    distinct and all lie in [visited]: the loop body hands a URL to [fetch]
    only when it was not in [visited] when popped, and adds it to [visited]
    first.  The number of visited URLs never exceeds the larger of
    [max_pages] and the number of URLs preloaded from the manifest on
    resume. *)
Theorem no_url_fetched_twice {W : Capabilities} (cf : Config) (d : OutDir)
        (fuel : nat) (o : Outcome) (c : Crawler) :
  crawl cf d fuel = Some o ->
  final_state o = Some c ->
  NoDup (fetched c)
  /\ (forall u, u ∈ fetched c -> u ∈ visited c)
  /\ Z.of_nat (size (visited c))
     <= Z.max (cfg_max_pages cf) (Z.of_nat (size (preloaded_urls cf d)))
  /\ (forall s s' e, loop_body s = (s', e) ->
        fetched s' = fetched s
        \/ exists u q, queue s = u :: q /\ (u ∉ visited s) /\ (u ∈ visited s')
                       /\ fetched s' = fetched s ++ [u]).
Proof.
  intros Hc Hf.
  assert (Hinv : frontier_inv cf (Z.of_nat (size (preloaded_urls cf d))) c).
  { apply (crawl_invariant _ cf d) with (fuel := fuel) (o := o); try assumption.
    - intros c0 Hi. destruct (crawl_start cf d c0 Hi) as (H1 & H2 & H3 & _).
      unfold frontier_inv. rewrite H1, H2, H3.
      repeat split; [apply NoDup_nil_2 | intros u Hu; inversion Hu | lia].
    - intros. eapply frontier_inv_step; eauto. }
  destruct Hinv as (_ & Hnd & Hsub & Hsz).
  repeat split; try assumption.
  intros s s' e Hb.
  destruct (loop_body_cases _ _ _ Hb) as (_ & [(_ & -> & _) | [H | H]]).
  - left; reflexivity.
  - destruct H as (u & q & _ & _ & Hfe & _). left; exact Hfe.
  - destruct H as (u & q & Hq & Hnv & Hv & Hfe). right. exists u, q.
    repeat split; try assumption. rewrite Hv.
    apply elem_of_union_l, elem_of_singleton. reflexivity.
Qed.

Lemma no_url_fetched_twice_witness :
  exists o c,
    crawl (W := Site.world) (Site.config false 2) empty_dir 10 = Some o
    /\ final_state o = Some c
    /\ NoDup (fetched c)
    /\ fetched c = [Site.home; Site.page_x].
Proof.
  eexists. eexists.
  split; [vm_compute; reflexivity|].
  split; [reflexivity|].
  split; [|vm_compute; reflexivity].
  eapply (no_url_fetched_twice (W := Site.world) (Site.config false 2) empty_dir 10).
  - vm_compute. reflexivity.
  - reflexivity.
Defined.

(** C1, as stated, fails: a run resumed over a manifest of two URLs with
    [--max-pages 1] has two visited URLs. *)
Lemma visited_exceeds_max_pages_on_resume :
  match crawl (W := Site.world) (Site.config true 1) Site.after_first_run 10 with
  | Some (Completed c) =>
      cfg_max_pages (cfg c) = 1 /\ size (visited c) = 2%nat /\ fetched c = []
  | _ => False
  end.
Proof. vm_compute. repeat split. Qed.

(** C2.  In every run, each chunk hash computed by [write_records], however
    often it is produced, has exactly one line in what the run writes to
    [corpus_full.jsonl] and exactly one in what it writes to
    [corpus_min.jsonl]; [chunks_deduped] is the number of hashes computed
    less the number of lines written, that is the number of discarded
    duplicates; and a chunk whose hash is already in [chunk_hashes] leaves
    the set and both streams as they are and counts one more duplicate. *)
Theorem dedup_one_record_per_hash {W : Capabilities} (cf : Config) (d : OutDir)
        (fuel : nat) (o : Outcome) (c : Crawler) :
  crawl cf d fuel = Some o ->
  final_state o = Some c ->
  (forall h, h ∈ hashed c ->
     length (full_with_hash h (fw_full c)) = 1%nat
     /\ length (min_with_hash h (fw_min c)) = 1%nat)
  /\ chunks_deduped (stats c)
     = Z.of_nat (length (hashed c)) - Z.of_nat (length (fw_full c))
  /\ (forall pid url title total s k ci ck,
        hash_text ck ∈ chunk_hashes s ->
        let r := write_chunk pid url title total (s, k) (ci, ck) in
        chunk_hashes r.1 = chunk_hashes s /\ fw_full r.1 = fw_full s
        /\ fw_min r.1 = fw_min s /\ r.2 = k + 1).
Proof.
  intros Hc Hf.
  assert (Hinv : dedup_inv 0 c).
  { apply (crawl_invariant _ cf d) with (fuel := fuel) (o := o); try assumption.
    - intros c0 Hi. destruct (crawl_start cf d c0 Hi) as (_ & _ & _ & Ho & Hs).
      unfold outputs_of in Ho. injection Ho as H1 H2 H3 _ H5.
      unfold dedup_inv. rewrite H1, H2, H3, H5, Hs.
      split; [reflexivity|]. split.
      { intros h. split; intros Hh; [inversion Hh|].
        apply not_elem_of_empty in Hh. contradiction. }
      split; [constructor|]. split; [reflexivity|]. split; [constructor|reflexivity].
    - intros. eapply loop_body_dedup; eauto. }
  destruct Hinv as (Hset & Hmem & Hnd & Hmin & Hcons & Hcnt).
  split; [|split].
  - intros h Hh.
    assert (Hone : length (full_with_hash h (fw_full c)) = 1%nat).
    { apply one_full_record; [exact Hnd|].
      apply Hmem in Hh. rewrite Hset in Hh. apply elem_of_list_to_set in Hh. exact Hh. }
    split; [exact Hone|]. rewrite Hmin, min_records_follow; assumption.
  - lia.
  - intros pid url title total s k ci ck Hin. unfold write_chunk.
    cbn [chunk_hashes set_hashed].
    rewrite bool_decide_eq_true_2 by exact Hin. repeat split.
Qed.

Lemma dedup_one_record_per_hash_witness :
  exists o c,
  crawl (W := Site.world) (Site.config false 2) empty_dir 10 = Some o
  /\ final_state o = Some c
  /\ hashed c = [L "alpha"; L "alpha"]
  /\ length (full_with_hash (L "alpha") (fw_full c)) = 1%nat
  /\ chunks_deduped (stats c) = 1.
Proof.
  eexists. eexists.
  split; [vm_compute; reflexivity|].
  split; [reflexivity|].
  split; [vm_compute; reflexivity|].
  edestruct (dedup_one_record_per_hash (W := Site.world) (Site.config false 2)
  empty_dir 10) as (H1 & H2 & _);
  [vm_compute; reflexivity | reflexivity |].
  split.
  - apply (H1 (L "alpha")). vm_compute. left.
  - rewrite H2. vm_compute. reflexivity.
Defined.

(** C3 fails on the code.  A first run limited to two pages assigns ids 0
    and 1 and writes one line of [corpus_full.jsonl], the second page being
    a duplicate of the first.  The resumed run starts from that line count,
    so the next page, [/y/], is given id 1 again: the manifest ends with two
    rows of id [page-1]. *)
Theorem page_id_reused_after_resume :
  map (fun r => (mf_id r, mf_url r)) (existing (manifest_csv Site.after_first_run))
  = [(PageId 0, Site.home); (PageId 1, Site.page_x)]
  /\ length (existing (corpus_full Site.after_first_run)) = 1%nat
  /\ match main (W := Site.world) (Site.config true 3) Site.after_first_run 10 with
     | Some (code, d2) =>
         code = 0
         /\ map (fun r => (mf_id r, mf_url r)) (existing (manifest_csv d2))
            = [(PageId 0, Site.home); (PageId 1, Site.page_x);
               (PageId 1, Site.page_y)]
         /\ map (fun r => (fr_id r, fr_url r)) (existing (corpus_full d2))
            = [(PageId 0, Site.home); (PageId 1, Site.page_y)]
     | None => False
     end.
Proof. vm_compute. repeat split. Qed.

(** C4, as amended.  A discovered link is appended to the queue exactly
    when it is not a [mailto:] or [javascript:] link and its normalised
    absolute URL is non-empty, absent from [visited], inside the base host
    and path prefix, of an allowed extension and accepted by the include and
    exclude patterns.  Neither the robots policy nor the queue is consulted:
    both are left to the pop in [run]. *)
Theorem enqueue_link_scope {W : Capabilities} (c : Crawler)
        (page_url href joined abs_url : str) (p : UrlLib.ParseResult) :
  urljoin page_url (PyStr.strip href) = Ok joined ->
  normalize_url joined = Ok abs_url ->
  urlparse abs_url = Ok p ->
  enqueue_link page_url c href
  = Ok (if is_link (PyStr.strip href) && eligible c abs_url p
        then set_queue (queue c ++ [abs_url]) c else c).
Proof. apply enqueue_link_spec. Qed.

Lemma enqueue_link_scope_witness :
  let c := set_queue [Site.page_x] (Site.fresh (Site.config_with false 5 10 false true)) in
  enqueue_link (W := Site.linked_home) Site.home c Site.page_x
  = Ok (set_queue [Site.page_x; Site.page_x] c)
  /\ can_fetch (W := Site.linked_home) c Site.page_x = false.
Proof.
  intros c. split; [|vm_compute; reflexivity].
  rewrite (enqueue_link_scope (W := Site.linked_home) c Site.home Site.page_x
             Site.page_x Site.page_x
             (UrlLib.mkParse (L "http") (L "a") (L "/x/") [] [] []));
    vm_compute; reflexivity.
Defined.

(** C4, as stated, fails: after the home page, which links to [/x/] twice,
    the queue holds two copies of [/x/], a URL that is not visited and that
    the robots policy disallows. *)
Lemma queue_holds_duplicates :
  match crawl (W := Site.linked_home) (Site.config_with false 1 10 false true)
              empty_dir 10 with
  | Some (Completed c) =>
      queue c = [Site.page_x; Site.page_x]
      /\ bool_decide (Site.page_x ∈ visited c) = false
      /\ can_fetch (W := Site.linked_home) c Site.page_x = false
  | _ => False
  end.
Proof. vm_compute. repeat split. Qed.






(** C7 fails on the code.  When extraction raises on the home page, the
    exception leaves [run]: the page is not counted in [pages_failed], the
    two URLs still queued are never fetched, and [main] exits with status 1
    without writing [stats.json]. *)
Theorem extraction_error_ends_the_crawl :
  match crawl (W := Site.broken_home) (Site.config false 5) empty_dir 10 with
  | Some (Crashed e (Some c)) =>
      e = ExtractionError
      /\ pages_failed (stats c) = 0
      /\ fetched c = [Site.home]
      /\ queue c = [Site.page_x; Site.page_y]
  | _ => False
  end
  /\ match main (W := Site.broken_home) (Site.config false 5) empty_dir 10 with
     | Some (code, d) => code = 1 /\ stats_json d = None
     | None => False
     end.
Proof. vm_compute. repeat split. Qed.

(** C8, as amended.  For the two-paragraph input and an overlap of 10, a
    limit of 39 characters or more, 50 among them, gives one chunk, the two
    paragraphs joined by a line feed; a positive limit below 39 gives two
    chunks, the second made of the last 10 characters of the first, a line
    feed and the second paragraph. *)
Theorem chunk_text_two_paragraphs (m : Z) :
  (39 <= m ->
   chunk_text two_paragraphs m 10 = [para_one ++ [LF] ++ para_two])
  /\ (0 < m < 39 ->
      chunk_text two_paragraphs m 10
      = [para_one; PyStr.slice_from (-10) para_one ++ [LF] ++ para_two]
      /\ PyStr.slice_from (-10) para_one = L "text here.").
Proof.
  destruct (chunk_text_two_paragraphs_cases m) as [H1 H2].
  split; [exact H2|]. intros Hm. split; [apply H1, Hm | reflexivity].
Qed.

Lemma chunk_text_two_paragraphs_witness :
  chunk_text two_paragraphs 50 10 = [para_one ++ [LF] ++ para_two]
  /\ chunk_text two_paragraphs 30 10
     = [para_one; L "text here." ++ [LF] ++ para_two].
Proof.
  split.
  - apply (proj1 (chunk_text_two_paragraphs 50)). lia.
  - apply (proj2 (chunk_text_two_paragraphs 30)). lia.
Defined.

(** C8, as stated, fails: with a limit of 50 the two paragraphs, 39
    characters once joined, make one chunk, not two. *)
Lemma chunk_scenario_single_chunk :
  length (chunk_text two_paragraphs 50 10) <> 2%nat.
Proof. vm_compute. discriminate. Qed.




(** * Further properties *)

(** ** Stripping *)

Lemma lstrip_by_nil_iff (P : ascii -> bool) (s : str) :
  PyStr.lstrip_by P s = [] <-> forallb P s = true.
Proof.
  induction s as [|c s IH]; simpl; [tauto|].
  destruct (P c); simpl; [exact IH|]. split; discriminate.
Qed.

Lemma rstrip_by_nil_iff (P : ascii -> bool) (s : str) :
  PyStr.rstrip_by P s = [] <-> forallb P s = true.
Proof.
  unfold PyStr.rstrip_by. rewrite <- (forallb_rev P s), <- lstrip_by_nil_iff.
  split; intros H.
  - apply (f_equal (@rev ascii)) in H. rewrite rev_involutive in H. exact H.
  - rewrite H. reflexivity.
Qed.

Lemma lstrip_by_suffix (P : ascii -> bool) (s : str) :
  exists a, s = a ++ PyStr.lstrip_by P s /\ forallb P a = true.
Proof.
  induction s as [|c s (a & Ha & Hp)]; simpl.
  - exists []. auto.
  - destruct (P c) eqn:E.
    + exists (c :: a). simpl. rewrite E, Hp. split; [f_equal; exact Ha | reflexivity].
    + exists []. auto.
Qed.

Lemma rstrip_by_prefix (P : ascii -> bool) (s : str) :
  exists b, s = PyStr.rstrip_by P s ++ b /\ forallb P b = true.
Proof.
  unfold PyStr.rstrip_by.
  destruct (lstrip_by_suffix P (rev s)) as (a & Ha & Hp).
  exists (rev a). split.
  - rewrite <- rev_app_distr, <- Ha, rev_involutive. reflexivity.
  - rewrite forallb_rev. exact Hp.
Qed.

Lemma strip_nil_iff (s : str) :
  PyStr.strip s = [] <-> forallb PyStr.isspace s = true.
Proof.
  unfold PyStr.strip. rewrite rstrip_by_nil_iff.
  destruct (lstrip_by_suffix PyStr.isspace s) as (a & Ha & Hp).
  pose proof (lstrip_by_head PyStr.isspace s) as Hh.
  split; intros H.
  - rewrite Ha, forallb_app, Hp, H. reflexivity.
  - rewrite Ha, forallb_app in H. apply andb_prop in H. tauto.
Qed.


Lemma lstrip_by_fixed (P : ascii -> bool) (s : str) :
  match s with [] => True | c :: _ => P c = false end ->
  PyStr.lstrip_by P s = s.
Proof. destruct s as [|c s]; [reflexivity|]. simpl. intros ->. reflexivity. Qed.

Lemma lstrip_by_app_space (P : ascii -> bool) (a s : str) :
  forallb P a = true -> PyStr.lstrip_by P (a ++ s) = PyStr.lstrip_by P s.
Proof.
  induction a as [|c a IH]; simpl; [reflexivity|].
  intros H. apply andb_prop in H as [-> H]. auto.
Qed.

Lemma lstrip_by_idem (P : ascii -> bool) (s : str) :
  PyStr.lstrip_by P (PyStr.lstrip_by P s) = PyStr.lstrip_by P s.
Proof. apply lstrip_by_fixed, lstrip_by_head. Qed.

(** Stripping on the right leaves the first character in place. *)
Lemma rstrip_by_head (P : ascii -> bool) (c : ascii) (s : str) :
  P c = false -> exists r, PyStr.rstrip_by P (c :: s) = c :: r.
Proof.
  intros Hc. destruct (rstrip_by_prefix P (c :: s)) as (b & Hb & Hp).
  destruct (PyStr.rstrip_by P (c :: s)) as [|x r] eqn:E.
  - simpl in Hb. subst b. simpl in Hp. rewrite Hc in Hp. discriminate.
  - inversion Hb; subst. eauto.
Qed.

Lemma strip_head (s : str) :
  match PyStr.strip s with [] => True | c :: _ => PyStr.isspace c = false end.
Proof.
  unfold PyStr.strip. pose proof (lstrip_by_head PyStr.isspace s) as H.
  destruct (PyStr.lstrip_by PyStr.isspace s) as [|c r]; [exact I|].
  destruct (rstrip_by_head PyStr.isspace c r H) as [r' ->]. exact H.
Qed.

Lemma rstrip_by_idem (P : ascii -> bool) (s : str) :
  PyStr.rstrip_by P (PyStr.rstrip_by P s) = PyStr.rstrip_by P s.
Proof.
  unfold PyStr.rstrip_by. rewrite rev_involutive, lstrip_by_idem. reflexivity.
Qed.

(** [strip] undoes whitespace put in front of a stripped string. *)
Lemma strip_space_strip (a s : str) :
  forallb PyStr.isspace a = true ->
  PyStr.strip (a ++ PyStr.strip s) = PyStr.strip s.
Proof.
  intros Ha. unfold PyStr.strip at 1.
  rewrite lstrip_by_app_space by exact Ha.
  rewrite (lstrip_by_fixed _ _ (strip_head s)).
  unfold PyStr.strip. apply rstrip_by_idem.
Qed.

(** ** Paragraphs and chunks *)

Lemma chunk_text_unfold (text : str) (m ov : Z) :
  chunk_text text m ov =
  if m <=? 0 then (if PyStr.truthy text then [text] else [])
  else
    let '(chunks, buf) := fold_left (chunk_step m ov) (paragraphs text) ([], []) in
    let chunks := if PyStr.truthy buf then chunks ++ [buf] else chunks in
    match chunks with
    | _ :: _ => chunks
    | [] => if PyStr.truthy (PyStr.strip text) then [PyStr.slice_to m text] else []
    end.
Proof. reflexivity. Qed.

Lemma re_split_forall (Q : ascii -> bool) (s : str) : forall (cur : str) (run : nat),
  Q LF = true -> forallb Q s = true -> forallb Q cur = true ->
  Forall (fun p => forallb Q p = true) (re_split_blank_lines s cur run).
Proof.
  intros cur run HLF. revert cur run.
  induction s as [|c s IH]; intros cur run Hs Hcur; simpl.
  - destruct run as [|[|run]]; repeat constructor;
      rewrite ?forallb_app, ?forallb_rev; simpl; rewrite ?HLF, ?Hcur; auto.
  - simpl in Hs. apply andb_prop in Hs as [Hc Hs].
    destruct (Ascii.eqb c LF); [apply IH; assumption|].
    destruct run as [|[|run]].
    + apply IH; [assumption|]. simpl. rewrite Hc, Hcur. reflexivity.
    + apply IH; [assumption|]. simpl. rewrite Hc, HLF, Hcur. reflexivity.
    + constructor; [rewrite forallb_rev; exact Hcur|].
      apply IH; [assumption|]. simpl. rewrite Hc. reflexivity.
Qed.

Lemma paragraphs_blank (text : str) :
  forallb PyStr.isspace text = true -> paragraphs text = [].
Proof.
  intros H. unfold paragraphs, re_split_paragraphs.
  pose proof (re_split_forall PyStr.isspace text [] 0%nat eq_refl H eq_refl) as Hf.
  induction Hf as [|p ps Hp _ IH]; [reflexivity|].
  simpl. apply strip_nil_iff in Hp. rewrite Hp. exact IH.
Qed.

Lemma paragraphs_nonempty (text : str) :
  Forall (fun p => p <> []) (paragraphs text).
Proof.
  unfold paragraphs. apply Forall_map, Forall_forall. intros p Hp.
  apply list_elem_of_In, filter_In in Hp as [_ Hp]. apply truthy_true, Hp.
Qed.

(** A text without a blank line is one piece. *)
Lemma re_split_one_piece (s : str) : forall (cur : str) (run : nat),
  PyStr.contains [LF; LF] s = false ->
  (run = 0%nat \/ (run = 1%nat /\ PyStr.startswith [LF] s = false)) ->
  re_split_blank_lines s cur run
  = [rev cur ++ (if Nat.eqb run 1 then [LF] else []) ++ s].
Proof.
  induction s as [|c s IH]; intros cur run Hc Hrun.
  - destruct Hrun as [->|[-> _]]; simpl; rewrite ?app_nil_r; reflexivity.
  - cbn [PyStr.contains] in Hc. apply orb_false_iff in Hc as [Hst Hc].
    cbn [re_split_blank_lines].
    destruct (Ascii.eqb c LF) eqn:E.
    + apply Ascii.eqb_eq in E. subst c.
      destruct Hrun as [->|[-> Hs]].
      * rewrite IH; [|exact Hc|].
        -- simpl. reflexivity.
        -- right. split; [reflexivity|].
           destruct s as [|x s]; [reflexivity|].
           cbn [PyStr.startswith] in Hst |- *. rewrite Ascii.eqb_refl in Hst.
           exact Hst.
      * cbn [PyStr.startswith] in Hs. rewrite Ascii.eqb_refl in Hs. discriminate.
    + destruct Hrun as [->|[-> _]].
      * rewrite IH by auto. simpl. rewrite <- app_assoc. reflexivity.
      * rewrite IH by auto. simpl. rewrite <- !app_assoc. reflexivity.
Qed.

Lemma paragraphs_single (text : str) :
  PyStr.contains [LF; LF] text = false ->
  PyStr.strip text <> [] ->
  paragraphs text = [PyStr.strip text].
Proof.
  intros Hc Hne. unfold paragraphs, re_split_paragraphs.
  rewrite (re_split_one_piece text [] 0%nat Hc) by auto.
  cbn [rev app Nat.eqb List.filter].
  destruct (PyStr.truthy (PyStr.strip text)) eqn:E; [reflexivity|].
  apply truthy_false in E. contradiction.
Qed.

(** The first paragraph opens the buffer, whether it fits or not. *)
Lemma chunk_step_open (m ov : Z) (t : str) :
  chunk_step m ov ([], []) (PyStr.strip t) = ([], PyStr.strip t).
Proof.
  unfold chunk_step. cbn [PyStr.truthy].
  assert (H : PyStr.strip ([] ++ [LF] ++ PyStr.strip t) = PyStr.strip t)
    by (apply (strip_space_strip [LF]); reflexivity).
  assert (Hs : PyStr.slice_from (- ov) [] = []).
  { unfold PyStr.slice_from. destruct (PyStr.clamp_index (- ov) []); reflexivity. }
  rewrite Hs, H.
  destruct (_ <=? m); [reflexivity|].
  destruct (negb (ov =? 0) && (ov <? PyStr.len [])); reflexivity.
Qed.

Lemma chunk_fold_nonempty (m ov : Z) (ps : list str) : forall (chunks : list str) (buf : str),
  Forall (fun ck => ck <> []) chunks ->
  Forall (fun ck => ck <> []) (fold_left (chunk_step m ov) ps (chunks, buf)).1.
Proof.
  induction ps as [|p ps IH]; intros chunks buf H; cbn [fold_left]; [exact H|].
  unfold chunk_step at 2.
  destruct (_ <=? m); [apply IH, H|].
  apply IH. destruct (PyStr.truthy buf) eqn:E; [|exact H].
  apply Forall_app. split; [exact H|]. constructor; [apply truthy_true, E | constructor].
Qed.

Lemma slice_to_nonempty (m : Z) (s : str) :
  0 < m -> s <> [] -> PyStr.slice_to m s <> [].
Proof.
  intros Hm Hs. unfold PyStr.slice_to, PyStr.clamp_index, PyStr.len.
  destruct (Z.ltb_spec m 0); [lia|].
  destruct s as [|c s]; [contradiction|].
  destruct (Z.to_nat (Z.min m (Z.of_nat (length (c :: s))))) eqn:E;
    [simpl length in E; lia | discriminate].
Qed.






(** ** Further properties of [chunk_text] *)

(** X1.  [chunk_text] never returns an empty chunk, whatever the limit and
    the overlap. *)
Theorem chunk_text_no_empty_chunk (text : str) (m ov : Z) :
  Forall (fun ck => ck <> []) (chunk_text text m ov).
Proof.
  rewrite chunk_text_unfold. destruct (Z.leb_spec m 0) as [Hm|Hm].
  - destruct (PyStr.truthy text) eqn:E; repeat constructor. apply truthy_true, E.
  - pose proof (chunk_fold_nonempty m ov (paragraphs text) [] [] (List.Forall_nil _)) as H.
    destruct (fold_left _ _ _) as [chunks buf]. cbn [fst] in H.
    assert (H' : Forall (fun ck => ck <> [])
                   (if PyStr.truthy buf then chunks ++ [buf] else chunks)).
    { destruct (PyStr.truthy buf) eqn:E; [|exact H].
      apply Forall_app. split; [exact H|]. constructor; [apply truthy_true, E|constructor]. }
    destruct (if PyStr.truthy buf then chunks ++ [buf] else chunks) as [|c cs];
      [|exact H'].
    destruct (PyStr.truthy (PyStr.strip text)) eqn:E; [|constructor].
    repeat constructor. apply slice_to_nonempty; [exact Hm|].
    intros ->. discriminate.
Qed.

(** X2.  The result is empty exactly when there is nothing to keep: an
    empty text when chunking is off, a text of whitespace alone when it is
    on. *)
Theorem chunk_text_nil_iff (text : str) (m ov : Z) :
  chunk_text text m ov = []
  <-> if m <=? 0 then text = [] else forallb PyStr.isspace text = true.
Proof.
  rewrite chunk_text_unfold. destruct (Z.leb_spec m 0) as [Hm|Hm].
  - destruct text; simpl; split; intros H; try reflexivity; discriminate.
  - split.
    + intros H. destruct (fold_left _ _ _) as [chunks buf].
      destruct (if PyStr.truthy buf then chunks ++ [buf] else chunks);
        [|discriminate].
      destruct (PyStr.truthy (PyStr.strip text)) eqn:E; [discriminate|].
      apply strip_nil_iff, truthy_false, E.
    + intros H. rewrite (paragraphs_blank text H). cbn.
      apply strip_nil_iff in H. rewrite H. reflexivity.
Qed.

(** X3.  A text without a blank line is never split: with chunking on it
    comes back as one chunk, stripped, however long it is. *)
Theorem chunk_text_single_paragraph (text : str) (m ov : Z) :
  0 < m ->
  PyStr.contains [LF; LF] text = false ->
  PyStr.strip text <> [] ->
  chunk_text text m ov = [PyStr.strip text].
Proof.
  intros Hm Hc Hne. rewrite chunk_text_unfold.
  destruct (Z.leb_spec m 0); [lia|].
  rewrite (paragraphs_single text Hc Hne). cbn [fold_left].
  rewrite chunk_step_open.
  destruct (PyStr.strip text) eqn:E; [contradiction | reflexivity].
Qed.

Lemma chunk_text_single_paragraph_witness :
  chunk_text (L "  one long line, no blank line  ") 5 2
  = [L "one long line, no blank line"].
Proof.
  apply (chunk_text_single_paragraph (L "  one long line, no blank line  ") 5 2).
  - lia.
  - vm_compute. reflexivity.
  - vm_compute. discriminate.
Defined.



(** ** The shape of a key *)




Section KeyShape.
Context {W : Capabilities}.


End KeyShape.


(** ** Directory URLs *)

Lemma startswith_dotdot_app (c : ascii) (a b : str) :
  a <> [] ->
  PyStr.startswith (L "..") ((c :: a) ++ b) = PyStr.startswith (L "..") (c :: a).
Proof. destruct a as [|x a]; [contradiction|]. reflexivity. Qed.

(** [replace("..", "_")] stops before a tail that starts with a slash and
    has no two dots in a row. *)
Lemma replace_dotdot_app (b : str) :
  PyStr.startswith (L ".") b = false ->
  PyStr.replace_from (L "..") (L "_") 0 b = b ->
  forall (a : str) (k : nat),
    (k <= length a)%nat ->
    PyStr.replace_from (L "..") (L "_") k (a ++ b)
    = PyStr.replace_from (L "..") (L "_") k a ++ b.
Proof.
  intros Hb0 Hb. induction a as [|c a IH]; intros k Hk.
  - simpl in Hk. assert (k = 0%nat) by lia. subst k. rewrite replace_dotdot_nil.
    exact Hb.
  - cbn [app PyStr.replace_from]. destruct k as [|k].
    + destruct a as [|x a].
      * (* the last character of [a] *)
        assert (E : PyStr.startswith (L "..") (c :: [] ++ b) = false).
        { destruct b as [|y b]; cbn [app PyStr.startswith L list_ascii_of_string].
          - rewrite andb_false_r. reflexivity.
          - cbn [PyStr.startswith L list_ascii_of_string] in Hb0.
            rewrite andb_true_r in Hb0. rewrite Hb0. cbn. rewrite andb_false_r.
            reflexivity. }
        rewrite E. change (PyStr.startswith (L "..") [c]) with (Ascii.eqb "." c && false).
        rewrite andb_false_r. rewrite (IH 0%nat) by (simpl; lia). reflexivity.
      * change (PyStr.startswith (L "..") (c :: (x :: a) ++ b))
          with (PyStr.startswith (L "..") (c :: x :: a)).
        destruct (PyStr.startswith (L "..") (c :: x :: a)).
        -- change (Nat.pred (length (L ".."))) with 1%nat.
           rewrite (IH 1%nat) by (simpl; lia). reflexivity.
        -- rewrite (IH 0%nat) by lia. reflexivity.
    + rewrite (IH k) by (simpl in Hk; lia). reflexivity.
Qed.

Lemma endswith_suffix (p a t : str) :
  p <> [] -> (length p <= length t)%nat ->
  PyStr.endswith p (a ++ t) = PyStr.endswith p t.
Proof.
  intros _ Hlen. unfold PyStr.endswith. rewrite rev_app_distr.
  assert (Hl : (length (rev p) <= length (rev t))%nat) by (rewrite !length_rev; exact Hlen).
  generalize dependent (rev t). generalize (rev p). clear.
  induction l as [|x l IH]; intros l0 Hl; [reflexivity|].
  destruct l0 as [|y l0]; [simpl in Hl; lia|].
  cbn [app PyStr.startswith]. rewrite IH by (simpl in Hl; lia). reflexivity.
Qed.

Lemma endswith_slash_suffix (a t : str) :
  PyStr.endswith (L "/") (a ++ t) = true -> t = [] \/ PyStr.endswith (L "/") t = true.
Proof.
  intros H. destruct t as [|c t]; [left; reflexivity|right].
  rewrite endswith_suffix in H; [exact H | discriminate | simpl; lia].
Qed.

Lemma lstrip_chars_suffix (chars s : str) :
  exists a, s = a ++ PyStr.lstrip_chars chars s.
Proof.
  unfold PyStr.lstrip_chars. destruct (lstrip_by_suffix (fun c => PyStr.has_char c chars) s)
    as (a & Ha & _). eauto.
Qed.

Lemma relpath_index_tail (y : str) :
  PyStr.startswith (L "/") y = false ->
  PyStr.endswith (L "/") y = false ->
  let rel := PyStr.replace (L "..") (L "_")
               (PyStr.lstrip_chars (L "/") (y ++ L "/index.html")) in
  PyStr.endswith (L "index.html") (if PyStr.truthy rel then rel else L "index.html") = true.
Proof.
  intros Hs He. destruct y as [|c y].
  - reflexivity.
  - cbv zeta.
    assert (Hl : PyStr.lstrip_chars (L "/") ((c :: y) ++ L "/index.html")
                 = (c :: y) ++ L "/index.html").
    { unfold PyStr.lstrip_chars. apply lstrip_by_fixed. cbn [app].
      cbn [PyStr.startswith L list_ascii_of_string] in Hs. rewrite andb_true_r in Hs.
      unfold PyStr.has_char. cbn [existsb L list_ascii_of_string].
      rewrite orb_false_r, Ascii.eqb_sym. exact Hs. }
    rewrite Hl. unfold PyStr.replace.
    rewrite replace_dotdot_app; [|reflexivity|reflexivity|lia].
    set (r := PyStr.replace_from _ _ _ (c :: y)).
    replace (PyStr.truthy (r ++ L "/index.html")) with true by (destruct r; reflexivity).
    rewrite endswith_suffix; [reflexivity | discriminate | simpl; lia].
Qed.

Lemma rstrip_slash_no_trail (s : str) :
  PyStr.endswith (L "/") (PyStr.rstrip_chars (L "/") s) = false.
Proof.
  unfold PyStr.endswith, PyStr.rstrip_chars, PyStr.rstrip_by.
  rewrite rev_involutive.
  pose proof (lstrip_by_head (fun c => PyStr.has_char c (L "/")) (rev s)) as H.
  destruct (PyStr.lstrip_by _ (rev s)) as [|c r]; [reflexivity|].
  unfold PyStr.has_char in H. cbn [existsb L list_ascii_of_string] in H.
  rewrite orb_false_r in H. cbn [rev L list_ascii_of_string app PyStr.startswith].
  rewrite Ascii.eqb_sym, H. reflexivity.
Qed.

Lemma rstrip_slash_no_lead (s : str) :
  PyStr.startswith (L "/") s = false ->
  PyStr.startswith (L "/") (PyStr.rstrip_chars (L "/") s) = false.
Proof.
  intros H. unfold PyStr.rstrip_chars.
  destruct (rstrip_by_prefix (fun c => PyStr.has_char c (L "/")) s) as (b & Hb & _).
  destruct (PyStr.rstrip_by _ s) as [|c r]; [reflexivity|].
  rewrite Hb in H. exact H.
Qed.

Lemma relpath_of_path_index (path base_path : str) :
  path = [] \/ PyStr.endswith (L "/") path = true ->
  PyStr.endswith (L "index.html") (relpath_of_path path base_path) = true.
Proof.
  intros Hdir. unfold relpath_of_path.
  set (rel0 := if negb (PyStr.startswith base_path path) then _ else _).
  assert (Hlead : PyStr.startswith (L "/") rel0 = false).
  { subst rel0. destruct (negb _); apply lstrip_slash_no_lead. }
  assert (Hroot : negb (PyStr.truthy rel0) || PyStr.endswith (L "/") rel0 = true).
  { assert (Hsuf : exists a, path = a ++ rel0).
    { subst rel0. destruct (negb _).
      - apply lstrip_chars_suffix.
      - destruct (lstrip_chars_suffix (L "/") (skipn (length base_path) path)) as [a Ha].
        exists (firstn (length base_path) path ++ a).
        rewrite <- app_assoc, <- Ha, firstn_skipn. reflexivity. }
    destruct Hsuf as [a Ha]. destruct Hdir as [Hp|Hp].
    - rewrite Hp in Ha. symmetry in Ha. apply app_eq_nil in Ha as [_ ->]. reflexivity.
    - rewrite Ha in Hp. destruct (endswith_slash_suffix _ _ Hp) as [-> | ->];
        [reflexivity | apply orb_true_r]. }
  clearbody rel0. rewrite Hroot. cbn [orb].
  apply relpath_index_tail.
  - apply rstrip_slash_no_lead, Hlead.
  - apply rstrip_slash_no_trail.
Qed.

Section DirectoryUrls.
Context {W : Capabilities}.

(** X6.  A URL whose path is empty or ends with a slash is saved as an
    [index.html]: its relative artifact path ends with [index.html],
    whatever the base path. *)
Theorem url_to_relpath_directory_index (url base_path : str) (p : UrlLib.ParseResult) :
  urlparse url = Ok p ->
  UrlLib.path p = [] \/ PyStr.endswith (L "/") (UrlLib.path p) = true ->
  exists rel,
    url_to_relpath url base_path = Ok rel
    /\ PyStr.endswith (L "index.html") rel = true.
Proof.
  intros Hp Hdir. unfold url_to_relpath. rewrite Hp. cbn [rbind].
  eexists. split; [reflexivity|]. apply relpath_of_path_index, Hdir.
Qed.
End DirectoryUrls.

Lemma url_to_relpath_directory_index_witness :
  exists rel,
    url_to_relpath (W := Site.world) (L "http://a/doc/guide/../intro/") (L "/doc/") = Ok rel
    /\ PyStr.endswith (L "index.html") rel = true.
Proof.
  apply (url_to_relpath_directory_index (W := Site.world)
           (L "http://a/doc/guide/../intro/") (L "/doc/")
           (UrlLib.mkParse (L "http") (L "a") (L "/doc/guide/../intro/") [] [] []));
    [vm_compute; reflexivity | right; vm_compute; reflexivity].
Defined.

(** ** What a pass of the loop does *)

Lemma enumerate_spec {A : Type} (l : list A) : forall (s i : nat) (x : A),
  In (i, x) (combine (seq s (length l)) l) ->
  (s <= i)%nat /\ l !! (i - s)%nat = Some x.
Proof.
  induction l as [|y l IH]; intros s i x H; [contradiction|].
  cbn [length seq combine] in H. destruct H as [H|H].
  - inversion H; subst. rewrite Nat.sub_diag. split; [lia | reflexivity].
  - destruct (IH (S s) i x H) as [Hs Hl]. split; [lia|].
    replace (i - s)%nat with (S (i - S s)) by lia. exact Hl.
Qed.

Lemma enumerate_fst {A : Type} (l : list A) (s : nat) :
  map fst (combine (seq s (length l)) l) = seq s (length l).
Proof.
  revert s. induction l as [|y l IH]; intros s; [reflexivity|].
  cbn [length seq combine map fst]. rewrite IH. reflexivity.
Qed.

Lemma enumerate_snd {A : Type} (l : list A) (s : nat) :
  map snd (combine (seq s (length l)) l) = l.
Proof.
  revert s. induction l as [|y l IH]; intros s; [reflexivity|].
  cbn [length seq combine map snd]. rewrite IH. reflexivity.
Qed.

Section Effects.
Context {W : Capabilities}.

Lemma loop_body_unfold (c : Crawler) :
  loop_body c =
  match queue c with
  | [] => (c, None)
  | url :: q =>
      if bool_decide (url ∈ visited c) then (set_queue q c, None)
      else if negb (can_fetch c url)
      then (set_stats (bump_skipped (stats c)) (set_queue q c), None)
      else
        match fetch (length (fetched c)) url with
        | None =>
            (set_stats (bump_failed (stats (about_to_fetch url q c)))
                       (about_to_fetch url q c), None)
        | Some html => process_page url html (about_to_fetch url q c)
        end
  end.
Proof. unfold loop_body. destruct (queue c); reflexivity. Qed.

Lemma write_chunk_effect pid url title (chunks : list str) c d ci ck :
  chunks !! ci = Some ck ->
  hashed (write_chunk pid url title (length chunks) (c, d) (ci, ck)).1
  = hashed c ++ [hash_text ck]
  /\ exists new,
       fw_full (write_chunk pid url title (length chunks) (c, d) (ci, ck)).1
       = fw_full c ++ new
       /\ Forall (record_of_page pid url title chunks) new
       /\ (forall f, f ∈ new -> fr_chunk_index f = ci)
       /\ (length new <= 1)%nat.
Proof.
  intros Hck. unfold write_chunk. cbn [chunk_hashes set_hashed].
  destruct (bool_decide _); cbn [fst].
  - split; [reflexivity|]. exists []. rewrite app_nil_r.
    split; [reflexivity|]. split; [constructor|]. split; [|simpl; lia].
    intros f Hf. inversion Hf.
  - split; [reflexivity|]. eexists [_]. split; [reflexivity|]. split; [|split].
    + constructor; [|constructor]. unfold record_of_page. cbn.
      split; [apply lookup_lt_Some in Hck; exact Hck|]. split; [exact Hck|reflexivity].
    + intros f Hf. apply list_elem_of_singleton in Hf. subst f. reflexivity.
    + simpl. lia.
Qed.

Lemma fold_write_chunk_effect pid url title (chunks : list str)
      (xs : list (nat * str)) :
  (forall ci ck, In (ci, ck) xs -> chunks !! ci = Some ck) ->
  NoDup (map fst xs) ->
  forall c d,
    hashed (fold_left (write_chunk pid url title (length chunks)) xs (c, d)).1
    = hashed c ++ map (fun x => hash_text x.2) xs
    /\ exists new,
         fw_full (fold_left (write_chunk pid url title (length chunks)) xs (c, d)).1
         = fw_full c ++ new
         /\ Forall (record_of_page pid url title chunks) new
         /\ (forall f, f ∈ new -> fr_chunk_index f ∈ map fst xs)
         /\ NoDup (map fr_chunk_index new).
Proof.
  induction xs as [|[ci ck] xs IH]; intros Hin Hnd c d; cbn [fold_left].
  - cbn [map fst]. rewrite app_nil_r. split; [reflexivity|]. exists [].
    rewrite app_nil_r. repeat split; try constructor. intros f Hf. inversion Hf.
  - cbn [map fst] in Hnd. apply NoDup_cons in Hnd as [Hci Hnd].
    destruct (write_chunk_effect pid url title chunks c d ci ck (Hin ci ck (or_introl eq_refl)))
      as (Hh1 & new1 & Hf1 & Hr1 & Hi1 & Hl1).
    destruct (write_chunk pid url title (length chunks) (c, d) (ci, ck)) as [c1 d1].
    cbn [fst] in Hh1, Hf1.
    destruct (IH (fun i k H => Hin i k (or_intror H)) Hnd c1 d1)
      as (Hh2 & new2 & Hf2 & Hr2 & Hi2 & Hn2).
    split.
    + rewrite Hh2, Hh1, <- app_assoc. reflexivity.
    + exists (new1 ++ new2). split; [rewrite Hf2, Hf1, <- app_assoc; reflexivity|].
      split; [apply Forall_app; auto|]. split.
      * intros f Hf. cbn [map fst]. apply elem_of_app in Hf as [Hf|Hf].
        -- rewrite (Hi1 f Hf). left.
        -- right. apply Hi2, Hf.
      * rewrite map_app. apply NoDup_app. split; [|split; [|exact Hn2]].
        -- destruct new1 as [|f1 [|f2 new1]];
             [constructor | apply NoDup_singleton | simpl in Hl1; lia].
        -- intros i Hi Hi'. apply list_elem_of_fmap in Hi as (f & -> & Hf).
           apply list_elem_of_fmap in Hi' as (g & Hg & Hg').
           apply Hi2 in Hg'. rewrite <- Hg, (Hi1 f Hf) in Hg'. contradiction.
Qed.

(** What [write_records] adds for a page. *)
Lemma write_records_effect pid url title text hp tp c :
  let r := write_records pid url title text hp tp c in
  let chunks := page_chunks c text in
  outputs_only c r.1
  /\ r.2.1 = Z.of_nat (length chunks)
  /\ hashed r.1 = hashed c ++ map hash_text chunks
  /\ (exists new,
        fw_full r.1 = fw_full c ++ new
        /\ Forall (record_of_page pid url title chunks) new
        /\ NoDup (map fr_chunk_index new))
  /\ fw_mani r.1
     = fw_mani c ++ match chunks with
                    | [] => []
                    | _ :: _ => [mkRow (PageId pid) url title (path_field hp)
                                       (path_field tp) (PyStr.len text)]
                    end.
Proof.
  cbv zeta. split; [apply write_records_outputs_only|].
  destruct (page_chunks c text) as [|ck cks] eqn:E.
  - rewrite (write_records_mani_empty _ _ _ _ _ _ _ E). cbn.
    rewrite !app_nil_r. repeat split. exists []. rewrite app_nil_r.
    repeat split; constructor.
  - split; [|split; [|split]].
    + unfold write_records. fold (page_chunks c text). rewrite E.
      destruct (fold_left _ _ _). reflexivity.
    + unfold write_records. fold (page_chunks c text). rewrite E.
      destruct (fold_write_chunk_effect pid url title (ck :: cks)
                  (combine (seq 0 (length (ck :: cks))) (ck :: cks))) with (c := c) (d := 0)
        as (Hh & _).
      * intros i k Hik. apply enumerate_spec in Hik as [_ Hik].
        rewrite Nat.sub_0_r in Hik. exact Hik.
      * rewrite enumerate_fst. apply NoDup_ListNoDup, seq_NoDup.
      * destruct (fold_left _ _ _) as [c1 d1]. cbn [fst snd hashed write_manifest_row] in *.
        rewrite Hh. f_equal.
        transitivity (map hash_text
                        (map snd (combine (seq 0 (length (ck :: cks))) (ck :: cks))));
          [symmetry; apply map_map | rewrite enumerate_snd; reflexivity].
    + unfold write_records. fold (page_chunks c text). rewrite E.
      destruct (fold_write_chunk_effect pid url title (ck :: cks)
                  (combine (seq 0 (length (ck :: cks))) (ck :: cks))) with (c := c) (d := 0)
        as (_ & new & Hf & Hr & _ & Hn).
      * intros i k Hik. apply enumerate_spec in Hik as [_ Hik].
        rewrite Nat.sub_0_r in Hik. exact Hik.
      * rewrite enumerate_fst. apply NoDup_ListNoDup, seq_NoDup.
      * destruct (fold_left _ _ _) as [c1 d1]. cbn [fst snd fw_full write_manifest_row] in *.
        exists new. auto.
    + rewrite write_records_mani by (rewrite E; discriminate). reflexivity.
Qed.

Lemma link_ok_settings (c c' : Crawler) (u : str) :
  settings_of c' = settings_of c -> link_ok c u -> link_ok c' u.
Proof.
  unfold settings_of, link_ok. intros H. injection H as _ _ H1 H2.
  rewrite H1, H2. tauto.
Qed.

Lemma queue_only_settings (c c' : Crawler) :
  queue_only c c' -> settings_of c' = settings_of c.
Proof. unfold queue_only. intros ->. reflexivity. Qed.

Lemma appends_refl (c : Crawler) : appends c c.
Proof.
  split; [apply queue_only_refl|]. exists []. rewrite app_nil_r. split; constructor.
Qed.

Lemma appends_trans (a b c : Crawler) : appends a b -> appends b c -> appends a c.
Proof.
  intros (Hq1 & l1 & Hl1 & Hf1) (Hq2 & l2 & Hl2 & Hf2).
  split; [eapply queue_only_trans; eauto|].
  exists (l1 ++ l2). split; [rewrite Hl2, Hl1, <- app_assoc; reflexivity|].
  apply Forall_app. split; [exact Hf1|].
  eapply Forall_impl; [exact Hf2|]. cbv beta.
  intros u Hu. eapply link_ok_settings; [|exact Hu].
  symmetry. apply queue_only_settings, Hq1.
Qed.

Lemma enqueue_link_appends (page_url : str) (c : Crawler) (href : str) (c' : Crawler) :
  enqueue_link page_url c href = Ok c' -> appends c c'.
Proof.
  unfold enqueue_link. intros H.
  destruct (_ || _); [inversion H; subst; apply appends_refl|].
  destruct (urljoin page_url (PyStr.strip href)) as [joined|]; [|discriminate].
  cbn [rbind] in H.
  destruct (normalize_url joined) as [abs_url|] eqn:En; [|discriminate].
  cbn [rbind] in H.
  destruct (PyStr.truthy abs_url) eqn:Et; cbn [negb orb] in H;
    [|inversion H; subst; apply appends_refl].
  destruct (bool_decide _); [inversion H; subst; apply appends_refl|].
  destruct (is_within_base abs_url (base_netloc c) (base_path c)) as [[|]|] eqn:Ew;
    cbn [rbind negb] in H; [|inversion H; subst; apply appends_refl|discriminate].
  destruct (urlparse abs_url) as [p|]; [|discriminate]. cbn [rbind] in H.
  repeat match type of H with
  | (if ?b then _ else _) = _ => destruct b
  end; inversion H; subst; try apply appends_refl.
  split; [apply queue_only_set|]. exists [abs_url]. split; [reflexivity|].
  constructor; [|constructor]. split; [apply truthy_true, Et|].
  split; [apply (normalize_url_idem joined), En | exact Ew].
Qed.

Lemma enqueue_links_appends (html page_url : str) (c : Crawler) :
  appends c (enqueue_links html page_url c).1.
Proof.
  unfold enqueue_links. apply for_each_ind.
  - apply appends_refl.
  - apply appends_trans.
  - intros. eapply enqueue_link_appends; eauto.
Qed.

Lemma seed_link_appends (c : Crawler) (link : str) (c' : Crawler) :
  seed_link c link = Ok c' -> appends c c'.
Proof.
  unfold seed_link. intros H.
  destruct (normalize_url link) as [n|] eqn:En; [|discriminate]. cbn [rbind] in H.
  destruct (PyStr.truthy n) eqn:Et; [|inversion H; subst; apply appends_refl].
  destruct (is_within_base n (base_netloc c) (base_path c)) as [[|]|] eqn:Ew;
    cbn [rbind] in H; inversion H; subst; [|apply appends_refl].
  split; [apply queue_only_set|]. exists [n]. split; [reflexivity|].
  constructor; [|constructor]. split; [apply truthy_true, Et|].
  split; [apply (normalize_url_idem link), En | exact Ew].
Qed.

Lemma process_page_effect (url html : str) (c0 c' : Crawler) (e : option exn) :
  process_page url html c0 = (c', e) ->
  (c' = c0 /\ e <> None) \/ page_processed url html c0 c' e.
Proof.
  unfold process_page. intros H.
  destruct (url_to_relpath url (base_path c0)) as [rel|x] eqn:Er.
  2:{ inversion H; subst. left. split; [reflexivity | discriminate]. }
  destruct (extract_text_and_title html) as [[text title]|x] eqn:Ex.
  2:{ inversion H; subst. left. split; [reflexivity | discriminate]. }
  right.
  match type of H with context [write_records ?a ?b ?c1 ?d ?e0 ?f ?g] =>
    pose proof (write_records_effect a b c1 d e0 f g) as Hw;
    destruct (write_records a b c1 d e0 f g) as [c1' [total deduped]] end.
  cbv zeta in Hw. cbn [fst snd] in Hw.
  destruct Hw as ((Hs & Hv & Hq & Hp & Hst & Hfe) & Htot & Hh & (new & Hfull & Hrec & Hnd) & Hmani).
  match type of H with context [enqueue_links ?a ?b ?c2] =>
    pose proof (enqueue_links_appends a b c2) as Ha;
    destruct (enqueue_links a b c2) as [c3 oe] end.
  cbn [fst] in Ha. destruct Ha as (Hqo & l & Hl & Hlok).
  cbn [queue set_stats] in Hl.
  assert (Hc3 : forall c4 : Crawler,
             (c4 = c3 \/ c4 = set_page_id (page_id c3 + 1) c3) ->
             settings_of c4 = settings_of c0 /\ visited c4 = visited c0
             /\ fetched c4 = fetched c0 /\ queue c4 = queue c0 ++ l
             /\ hashed c4 = hashed c0 ++ map hash_text (page_chunks c0 text)
             /\ fw_full c4 = fw_full c0 ++ new
             /\ fw_mani c4 = fw_mani c0 ++ match page_chunks c0 text with
                                          | [] => []
                                          | _ :: _ => [manifest_row c0 url title text rel]
                                          end
             /\ stats c4 = count_page (Z.of_nat (length (page_chunks c0 text)))
                                      deduped (stats c0)).
  { intros c4 Hc4. unfold queue_only in Hqo.
    assert (Hm : fw_mani c1' = fw_mani c0 ++ match page_chunks c0 text with
                                            | [] => []
                                            | _ :: _ => [manifest_row c0 url title text rel]
                                            end).
    { rewrite Hmani. unfold manifest_row.
      destruct (cfg_save_html _), (cfg_save_text _); reflexivity. }
    assert (H1 : settings_of c3 = settings_of c0)
      by (transitivity (settings_of c1'); [rewrite Hqo; reflexivity | exact Hs]).
    assert (H2 : visited c3 = visited c0)
      by (transitivity (visited c1'); [rewrite Hqo; reflexivity | exact Hv]).
    assert (H3 : fetched c3 = fetched c0)
      by (transitivity (fetched c1'); [rewrite Hqo; reflexivity | exact Hfe]).
    assert (H4 : queue c3 = queue c0 ++ l) by (rewrite Hl, Hq; reflexivity).
    assert (H5 : hashed c3 = hashed c0 ++ map hash_text (page_chunks c0 text))
      by (transitivity (hashed c1'); [rewrite Hqo; reflexivity | exact Hh]).
    assert (H6 : fw_full c3 = fw_full c0 ++ new)
      by (transitivity (fw_full c1'); [rewrite Hqo; reflexivity | exact Hfull]).
    assert (H7 : fw_mani c3 = fw_mani c0 ++ match page_chunks c0 text with
                                           | [] => []
                                           | _ :: _ => [manifest_row c0 url title text rel]
                                           end)
      by (transitivity (fw_mani c1'); [rewrite Hqo; reflexivity | exact Hm]).
    assert (H8 : stats c3 = count_page (Z.of_nat (length (page_chunks c0 text)))
                                       deduped (stats c0)).
    { transitivity (count_page total deduped (stats c1')); [rewrite Hqo; reflexivity|].
      rewrite Hst, Htot. reflexivity. }
    destruct Hc4 as [-> | ->]; repeat split; assumption. }
  assert (Hlok' : Forall (link_ok c0) l).
  { eapply Forall_impl; [exact Hlok|]. cbv beta. intros u Hu.
    eapply link_ok_settings; [|exact Hu]. symmetry. exact Hs. }
  assert (Hpid : page_id c3 = page_id c0).
  { unfold queue_only in Hqo. rewrite Hqo. cbn. exact Hp. }
  destruct oe as [x|].
  - inversion H; subst c' e.
    destruct (Hc3 c3 (or_introl eq_refl)) as (?&?&?&?&?&?&?&?).
    exists rel, text, title, deduped, new, l.
    repeat split; try assumption. right. split; [exact Hpid | discriminate].
  - destruct (Hc3 (set_page_id (page_id c3 + 1) c3) (or_intror eq_refl))
      as (?&?&?&?&?&?&?&?).
    assert (Hc' : c' = set_page_id (page_id c3 + 1) c3
                  /\ (e = None \/ e = Some ZeroDivisionError)).
    { destruct (_ =? 0); inversion H; subst; auto. }
    destruct Hc' as [-> He].
    exists rel, text, title, deduped, new, l.
    repeat split; try assumption. left. split; [|exact He].
    cbn. rewrite Hpid. reflexivity.
Qed.

(** The five ways through the body of the loop. *)
Lemma loop_body_effect (c c' : Crawler) (e : option exn) :
  loop_body c = (c', e) ->
  (queue c = [] /\ c' = c /\ e = None)
  \/ exists u q,
       queue c = u :: q
       /\ ((u ∈ visited c /\ c' = set_queue q c /\ e = None)
           \/ ((u ∉ visited c) /\ can_fetch c u = false
               /\ c' = set_stats (bump_skipped (stats c)) (set_queue q c)
               /\ e = None)
           \/ ((u ∉ visited c) /\ can_fetch c u = true
               /\ fetch (length (fetched c)) u = None
               /\ c' = set_stats (bump_failed (stats (about_to_fetch u q c)))
                                 (about_to_fetch u q c)
               /\ e = None)
           \/ ((u ∉ visited c) /\ can_fetch c u = true
               /\ exists html,
                    fetch (length (fetched c)) u = Some html
                    /\ process_page u html (about_to_fetch u q c) = (c', e))).
Proof.
  rewrite loop_body_unfold. intros H.
  destruct (queue c) as [|u q]; [inversion H; subst; left; auto|].
  right. exists u, q. split; [reflexivity|].
  destruct (bool_decide (u ∈ visited c)) eqn:Ev.
  { apply bool_decide_eq_true in Ev. inversion H; subst. left. auto. }
  apply bool_decide_eq_false in Ev.
  destruct (can_fetch c u) eqn:Ec; cbn [negb] in H.
  2:{ inversion H; subst. right; left. auto. }
  destruct (fetch (length (fetched c)) u) as [html|] eqn:Ef.
  - right; right; right. split; [exact Ev|]. split; [reflexivity|]. eauto.
  - inversion H; subst. right; right; left. auto.
Qed.
End Effects.

(** ** The frontier throughout a run *)

Section Frontier.
Context {W : Capabilities}.

Lemma settings_fields (c c' : Crawler) :
  settings_of c' = settings_of c ->
  cfg c' = cfg c /\ base_url c' = base_url c
  /\ base_netloc c' = base_netloc c /\ base_path c' = base_path c.
Proof. unfold settings_of. intros H. injection H as -> -> -> ->. auto. Qed.

Lemma can_fetch_cfg (c c' : Crawler) (u : str) :
  cfg c' = cfg c -> can_fetch c' u = can_fetch c u.
Proof. unfold can_fetch. intros ->. reflexivity. Qed.

(** What a pass does to the frontier: links are appended behind the rest
    of the queue, and either nothing is fetched or the head of the queue,
    not visited and allowed, is marked and fetched. *)
Lemma loop_body_frontier (c c' : Crawler) (e : option exn) :
  loop_body c = (c', e) ->
  settings_of c' = settings_of c
  /\ exists l,
       Forall (link_ok c) l
       /\ queue c' = tl (queue c) ++ l
       /\ ((visited c' = visited c /\ fetched c' = fetched c)
           \/ exists u q,
                queue c = u :: q /\ (u ∉ visited c) /\ can_fetch c u = true
                /\ visited c' = {[ u ]} ∪ visited c
                /\ fetched c' = fetched c ++ [u]).
Proof.
  intros H. destruct (loop_body_effect _ _ _ H) as [(Hq & -> & _) | (u & q & Hq & Hc)].
  { split; [reflexivity|]. exists []. rewrite Hq. repeat split; auto. }
  rewrite Hq. cbn [tl].
  destruct Hc as [(Hv & -> & _) | [(Hv & Hcf & -> & _) | [(Hv & Hcf & Hf & -> & _) | (Hv & Hcf & html & Hf & Hp)]]].
  - split; [reflexivity|]. exists []. rewrite app_nil_r. repeat split; auto.
  - split; [reflexivity|]. exists []. rewrite app_nil_r. repeat split; auto.
  - split; [reflexivity|]. exists []. rewrite app_nil_r.
    split; [constructor|]. split; [reflexivity|]. right. exists u, q. repeat split; auto.
  - destruct (process_page_effect _ _ _ _ _ Hp) as [(-> & _) | Hpp].
    + split; [reflexivity|]. exists []. rewrite app_nil_r.
      split; [constructor|]. split; [reflexivity|]. right. exists u, q. repeat split; auto.
    + destruct Hpp as (rel & text & title & deduped & new & l & _ & _ & Hs & Hvi & Hfe & Hqu & Hl & _).
      split; [exact Hs|]. exists l. split; [|split].
      * eapply Forall_impl; [exact Hl|]. cbv beta. intros x Hx.
        eapply link_ok_settings; [|exact Hx]. reflexivity.
      * exact Hqu.
      * right. exists u, q. repeat split; auto.
Qed.

Lemma frontier_facts_step (cf : Config) (d : OutDir) (c c' : Crawler) (e : option exn) :
  frontier_facts cf d c -> loop_body c = (c', e) -> frontier_facts cf d c'.
Proof.
  intros (Hcf & Hok & Hrob & Hvis & Hpre) Hb.
  destruct (loop_body_frontier _ _ _ Hb) as (Hs & l & Hl & Hq & Hcase).
  destruct (settings_fields _ _ Hs) as (Hc1 & Hc2 & Hc3 & Hc4).
  assert (Hqueue : forall u, u ∈ queue c' ->
            u <> [] /\ normalize_url u = Ok u
            /\ (u = base_url c \/ is_within_base u (base_netloc c) (base_path c) = Ok true)).
  { intros u Hu. rewrite Hq in Hu. apply elem_of_app in Hu as [Hu|Hu].
    - apply Hok. left. destruct (queue c); [inversion Hu | right; exact Hu].
    - rewrite Forall_forall in Hl. destruct (Hl u Hu) as (H1 & H2 & H3). auto. }
  unfold frontier_facts. rewrite Hc1, Hc2, Hc3, Hc4.
  split; [exact Hcf|].
  destruct Hcase as [(Hv & Hf) | (u & q & Hqc & Hnv & Hcan & Hv & Hf)].
  - rewrite Hv, Hf. split; [|split; [|split]]; try assumption.
    + intros x [Hx|Hx]; [apply Hqueue, Hx | apply Hok; right; exact Hx].
    + intros x Hx. rewrite (can_fetch_cfg c c') by exact Hc1. apply Hrob, Hx.
  - assert (Hu : u ∈ queue c) by (rewrite Hqc; left).
    assert (Hup : u ∉ preloaded_urls cf d).
    { intros Hin. apply Hnv. rewrite Hvis. apply elem_of_union_l, Hin. }
    rewrite Hv, Hf. split; [|split; [|split]].
    + intros x [Hx|Hx]; [apply Hqueue, Hx|].
      apply elem_of_app in Hx as [Hx|Hx]; [apply Hok; right; exact Hx|].
      apply list_elem_of_singleton in Hx. subst x. apply Hok. left. exact Hu.
    + intros x Hx. rewrite (can_fetch_cfg c c') by exact Hc1.
      apply elem_of_app in Hx as [Hx|Hx]; [apply Hrob, Hx|].
      apply list_elem_of_singleton in Hx. subst x. exact Hcan.
    + rewrite Hvis, list_to_set_app_L. cbn [list_to_set foldr].
      rewrite (right_id_L ∅ (∪)).
      rewrite (comm_L (∪) {[u]}), <- (assoc_L (∪)). reflexivity.
    + intros x Hx. apply elem_of_app in Hx as [Hx|Hx]; [apply Hpre, Hx|].
      apply list_elem_of_singleton in Hx. subst x. exact Hup.
Qed.

Lemma seed_queue_appends (c : Crawler) :
  appends (set_queue (queue c ++ [base_url c]) c) (seed_queue c).1.
Proof.
  unfold seed_queue. destruct (cfg_use_sitemap _); cbn [fst].
  - apply for_each_ind.
    + apply appends_refl.
    + apply appends_trans.
    + intros. eapply seed_link_appends; eauto.
  - apply appends_refl.
Qed.

(** The state the loop starts from. *)
Lemma crawl_seeded (cf : Config) (d : OutDir) (c0 : Crawler) :
  init_state cf d = Ok c0 ->
  let c1 := (seed_queue c0).1 in
  cfg c1 = cf /\ visited c1 = preloaded_urls cf d /\ fetched c1 = []
  /\ page_id c1 = start_page_id cf d /\ stats c1 = Stats0
  /\ outputs_of c1 = (∅, [], [], [], [])
  /\ base_url c1 <> [] /\ normalize_url (base_url c1) = Ok (base_url c1)
  /\ PyStr.endswith (L "/") (base_path c1) = true
  /\ exists l, queue c1 = base_url c1 :: l /\ Forall (link_ok c1) l.
Proof.
  intros H. unfold init_state in H.
  destruct (normalize_url (cfg_base_url cf)) as [bu|] eqn:En; [|discriminate].
  cbn [rbind] in H. destruct (PyStr.truthy bu) eqn:Et; cbn [negb] in H; [|discriminate].
  destruct (urlparse bu) as [bp|]; [|discriminate]. cbn [rbind] in H.
  inversion H; subst c0; clear H. cbv zeta.
  match goal with |- context [seed_queue ?x] =>
    pose proof (seed_queue_appends x) as Ha; set (c0 := x) in * end.
  destruct Ha as (Hqo & l & Hl & Hlok).
  unfold queue_only in Hqo. cbn [queue set_queue] in Hl.
  set (c1 := (seed_queue c0).1) in *.
  assert (Hfields : cfg c1 = cf /\ visited c1 = preloaded_urls cf d /\ fetched c1 = []
                    /\ page_id c1 = start_page_id cf d /\ stats c1 = Stats0
                    /\ outputs_of c1 = (∅, [], [], [], [])
                    /\ base_url c1 = bu
                    /\ base_path c1 = base_path c0).
  { rewrite Hqo. repeat split. }
  destruct Hfields as (H1 & H2 & H3 & H4 & H5 & H6 & H7 & H8).
  rewrite H7. repeat split; try assumption.
  - apply truthy_true, Et.
  - apply (normalize_url_idem (cfg_base_url cf)), En.
  - rewrite H8. subst c0. cbn [base_path].
    change ["/"%char] with (L "/").
    destruct (PyStr.endswith (L "/") (UrlLib.path bp)) eqn:E; [exact E|].
    apply endswith_slash_app.
  - exists l. split; [rewrite Hl; reflexivity|].
    eapply Forall_impl; [exact Hlok|]. cbv beta. intros u Hu.
    eapply link_ok_settings; [|exact Hu]. rewrite Hqo. reflexivity.
Qed.

Lemma frontier_facts_run (cf : Config) (d : OutDir) (fuel : nat) (o : Outcome)
      (c : Crawler) :
  crawl cf d fuel = Some o -> final_state o = Some c -> frontier_facts cf d c.
Proof.
  apply (crawl_invariant (frontier_facts cf d)).
  - intros c0 Hi. destruct (crawl_seeded cf d c0 Hi)
      as (H1 & H2 & H3 & _ & _ & _ & H7 & H8 & _ & l & Hl & Hlok).
    unfold frontier_facts. rewrite H2, H3. split; [exact H1|]. split; [|split; [|split]].
    + intros u [Hu|Hu]; [|inversion Hu]. rewrite Hl in Hu.
      apply elem_of_cons in Hu as [->|Hu]; [auto|].
      rewrite Forall_forall in Hlok. destruct (Hlok u Hu) as (?&?&?). auto.
    + intros u Hu. inversion Hu.
    + cbn [list_to_set foldr]. rewrite (right_id_L ∅ (∪)). reflexivity.
    + intros u Hu. inversion Hu.
  - intros c1 c' e Hf _ Hb. eapply frontier_facts_step; eauto.
Qed.
End Frontier.

(** ** Scope, robots and resume *)



(** X8.  With [--respect-robots], no URL for which the robots parser
    answers "disallowed" is ever fetched; a robots check that raises counts
    as allowed.  Skipped URLs are not marked visited. *)
Theorem crawl_respects_robots {W : Capabilities} (cf : Config) (d : OutDir)
        (fuel : nat) (o : Outcome) (c : Crawler) (u : str) :
  cfg_respect_robots cf = true ->
  crawl cf d fuel = Some o ->
  final_state o = Some c ->
  u ∈ fetched c ->
  robots_can_fetch u <> Ok false.
Proof.
  intros Hr Hc Hf Hu.
  destruct (frontier_facts_run cf d fuel o c Hc Hf) as (Hcf & _ & H & _).
  specialize (H u Hu). unfold can_fetch in H. rewrite Hcf, Hr in H.
  intros E. rewrite E in H. discriminate.
Qed.

Lemma crawl_respects_robots_witness :
  exists o c,
    crawl (W := Site.linked_home) (Site.config_with false 5 10 false true)
          empty_dir 10 = Some o
    /\ final_state o = Some c
    /\ fetched c = [Site.home]
    /\ robots_can_fetch (Capabilities := Site.linked_home) Site.home <> Ok false.
Proof.
  eexists. eexists.
  split; [vm_compute; reflexivity|].
  split; [reflexivity|].
  split; [vm_compute; reflexivity|].
  eapply (crawl_respects_robots (W := Site.linked_home)
            (Site.config_with false 5 10 false true) empty_dir 10).
  - reflexivity.
  - vm_compute. reflexivity.
  - reflexivity.
  - vm_compute. apply list_elem_of_here.
Defined.

(** X9.  A resumed run fetches no URL that the manifest of the output
    directory already lists, and at every moment [visited] is exactly the
    URLs of that manifest together with the URLs fetched in this run. *)
Theorem resume_skips_manifest_urls {W : Capabilities} (cf : Config) (d : OutDir)
        (rows : list ManifestRow) (fuel : nat) (o : Outcome) (c : Crawler) :
  cfg_resume cf = true ->
  manifest_csv d = Some rows ->
  crawl cf d fuel = Some o ->
  final_state o = Some c ->
  (forall r, r ∈ rows -> mf_url r ∉ fetched c)
  /\ visited c = list_to_set (map mf_url rows) ∪ list_to_set (fetched c).
Proof.
  intros Hr Hm Hc Hf.
  destruct (frontier_facts_run cf d fuel o c Hc Hf) as (_ & _ & _ & Hv & Hp).
  assert (E : preloaded_urls cf d = list_to_set (map mf_url rows)).
  { unfold preloaded_urls. rewrite Hr, Hm. cbn [andb].
    rewrite bool_decide_eq_true_2 by eauto. reflexivity. }
  rewrite E in Hv, Hp. split; [|exact Hv].
  intros r Hin Hfe. apply (Hp _ Hfe).
  apply elem_of_list_to_set, list_elem_of_fmap. eauto.
Qed.

Lemma resume_skips_manifest_urls_witness :
  exists rows o c,
    manifest_csv Site.after_first_run = Some rows
    /\ map mf_url rows = [Site.home; Site.page_x]
    /\ crawl (W := Site.world) (Site.config true 5) Site.after_first_run 10 = Some o
    /\ final_state o = Some c
    /\ fetched c = [Site.page_y]
    /\ (forall r, r ∈ rows -> mf_url r ∉ fetched c).
Proof.
  eexists. eexists. eexists.
  split; [vm_compute; reflexivity|].
  split; [vm_compute; reflexivity|].
  split; [vm_compute; reflexivity|].
  split; [reflexivity|].
  split; [vm_compute; reflexivity|].
  refine (proj1 (resume_skips_manifest_urls (W := Site.world) (Site.config true 5)
                   Site.after_first_run _ 10 _ _ _ _ _ _)).
  - reflexivity.
  - vm_compute. reflexivity.
  - vm_compute. reflexivity.
  - reflexivity.
Defined.

(** ** How a run ends *)

Section Ending.
Context {W : Capabilities}.

Lemma run_loop_outcome (I : Crawler -> Prop) :
  (forall c c', I c -> loop_test c = true -> loop_body c = (c', None) -> I c') ->
  forall fuel n c o,
    I c -> run_loop fuel n c = Some o ->
    match o with
    | Completed c' | Interrupted c' => I c'
    | Crashed e (Some c') =>
        exists c0, I c0 /\ loop_test c0 = true /\ loop_body c0 = (c', Some e)
    | Crashed _ None => False
    end.
Proof.
  intros Hstep fuel. induction fuel as [|fuel IH]; intros n c o Hc H; [discriminate|].
  cbn [run_loop] in H.
  destruct (sigint_before n).
  { inversion H; subst. exact Hc. }
  destruct (loop_test c) eqn:Et.
  2:{ inversion H; subst. exact Hc. }
  destruct (loop_body c) as [c' [e|]] eqn:Eb.
  - inversion H; subst. eauto.
  - eapply IH; [|exact H]. eapply Hstep; eauto.
Qed.

(** A run ends between two passes of the loop, in a state that satisfies
    what the passes preserve, or inside a pass (or inside [seed_queue])
    that raised. *)
Lemma crawl_outcome (I : Crawler -> Prop) (cf : Config) (d : OutDir) :
  (forall c0, init_state cf d = Ok c0 -> I (seed_queue c0).1) ->
  (forall c c', I c -> loop_test c = true -> loop_body c = (c', None) -> I c') ->
  forall fuel o,
    crawl cf d fuel = Some o ->
    match o with
    | Completed c' | Interrupted c' => I c'
    | Crashed e (Some c') =>
        I c' \/ exists c0, I c0 /\ loop_test c0 = true /\ loop_body c0 = (c', Some e)
    | Crashed e None => init_state cf d = Raise e
    end.
Proof.
  intros Hinit Hstep fuel o H. unfold crawl in H.
  destruct (init_state cf d) as [c0|e] eqn:Ei.
  2:{ inversion H; subst. reflexivity. }
  specialize (Hinit c0 eq_refl).
  destruct (seed_queue c0) as [c1 [e|]].
  - inversion H; subst. left. exact Hinit.
  - pose proof (run_loop_outcome I Hstep fuel 0%nat c1 o Hinit H) as Ho.
    destruct o as [c'|c'|e [c'|]]; auto. contradiction.
Qed.


(** ** The counters *)



End Ending.

(** ** The counters and the files *)





(** ** The lines a run writes *)

Lemma NoDup_map_through {A B C : Type} (f : A -> B) (g : A -> C) (l : list A) :
  (forall x y, x ∈ l -> y ∈ l -> f x = f y -> g x = g y) ->
  NoDup (map g l) -> NoDup (map f l).
Proof.
  induction l as [|a l IH]; intros Hfg Hnd; cbn [map] in *; [constructor|].
  pose proof (NoDup_cons_1_1 _ _ Hnd) as Hni. apply NoDup_cons_1_2 in Hnd.
  apply NoDup_cons_2.
  - intros Hin. apply Hni.
    apply list_elem_of_fmap in Hin as (y & Hy & Hyl).
    apply list_elem_of_fmap. exists y. split; [|exact Hyl].
    apply Hfg; [left | right; exact Hyl | exact Hy].
  - apply IH; [|exact Hnd]. intros x y Hx Hy. apply Hfg; right; assumption.
Qed.

Lemma id_page_chunk_record_id (total : nat) (pid : Z) (ci : nat) :
  id_page (chunk_record_id total pid ci) = pid.
Proof. unfold chunk_record_id. destruct (1 <? total)%nat; reflexivity. Qed.

Section Ledger.
Context {W : Capabilities}.

Lemma page_chunks_nonempty (c : Crawler) (text : str) :
  Forall (fun ck => ck <> []) (page_chunks c text).
Proof.
  unfold page_chunks. destruct (PyStr.truthy text) eqn:Et; [|constructor].
  rewrite chunk_text_unfold. destruct (Z.leb_spec (cfg_chunk_size (cfg c)) 0) as [Hm|Hm].
  - rewrite Et. repeat constructor. apply truthy_true, Et.
  - pose proof (chunk_fold_nonempty (cfg_chunk_size (cfg c)) (cfg_chunk_overlap (cfg c))
                  (paragraphs text) [] [] (List.Forall_nil _)) as H.
    destruct (fold_left _ _ _) as [chunks buf]. cbn [fst] in H.
    assert (H' : Forall (fun ck => ck <> [])
                   (if PyStr.truthy buf then chunks ++ [buf] else chunks)).
    { destruct (PyStr.truthy buf) eqn:E; [|exact H].
      apply Forall_app. split; [exact H|].
      constructor; [apply truthy_true, E|constructor]. }
    destruct (if PyStr.truthy buf then chunks ++ [buf] else chunks) as [|c1 cs];
      [|exact H'].
    destruct (PyStr.truthy (PyStr.strip text)) eqn:E2; [|constructor].
    repeat constructor. apply slice_to_nonempty; [exact Hm|].
    intros ->. discriminate.
Qed.

Lemma ledger_ext (cf : Config) (d : OutDir) (s s' : Z) (c c' : Crawler) (l : list str) :
  fw_full c' = fw_full c -> fw_mani c' = fw_mani c -> page_id c' = page_id c ->
  fetched c' = fetched c ++ l -> s <= s' ->
  ledger cf d s c -> ledger cf d s' c'.
Proof.
  intros Hf Hm Hp Hfe Hs (L1 & L2 & L3 & L4 & L5 & L6).
  unfold ledger. rewrite Hf, Hm, Hp, Hfe.
  split; [|split; [|split; [|split; [|split]]]]; try assumption.
  - eapply Forall_impl; [exact L1|]. cbv beta.
    intros f (A1 & A2 & A3 & A4 & A5 & A6).
    split; [apply elem_of_app; left; exact A1|].
    repeat split; try assumption; lia.
  - eapply Forall_impl; [exact L3|]. cbv beta.
    intros r (p & Hr & Hb). exists p. split; [exact Hr | lia].
  - apply sublist_inserts_r, L5.
Qed.

Lemma ledger_page (cf : Config) (d : OutDir) (url html : str)
      (c0 c' : Crawler) (e : option exn) (b : Z) :
  url ∈ fetched c0 ->
  (forall r, r ∈ fw_mani c0 -> mf_url r <> url) ->
  map mf_url (fw_mani c0) ++ [url] `sublist_of` fetched c0 ->
  ledger cf d 0 c0 ->
  page_processed url html c0 c' e ->
  page_id c' + b = page_id c0 + 1 -> 0 <= b ->
  ledger cf d b c'.
Proof.
  intros Hu Hfresh Hsub (L1 & L2 & L3 & L4 & L5 & L6)
         (rel & text & title & deduped & new & l & _ & _ & Hs & Hvi & Hfe
          & Hqu & Hl & Hha & Hfu & Hrec & Hnd & Hma & Hst & Hpid) Hb Hb0.
  set (chunks := page_chunks c0 text) in *.
  pose proof (page_chunks_nonempty c0 text) as Hne. fold chunks in Hne.
  set (row := manifest_row c0 url title text rel) in *.
  assert (Hrowin : forall f, f ∈ new -> row ∈ fw_mani c').
  { intros f Hf. rewrite Forall_forall in Hrec. destruct (Hrec f Hf) as (Hi & _).
    rewrite Hma. destruct chunks; [cbn in Hi; lia|].
    apply elem_of_app. right. left. }
  assert (Hnew : Forall (fun f => fr_url f = url
                                  /\ (fr_chunk_index f < fr_chunk_count f)%nat
                                  /\ fr_chunk_count f = length chunks
                                  /\ fr_id f = chunk_record_id (length chunks) (page_id c0)
                                                               (fr_chunk_index f)
                                  /\ fr_contents f <> []) new).
  { eapply Forall_impl; [exact Hrec|]. cbv beta. intros f (Hi & Hlk & Hf).
    assert (Hc : fr_contents f <> []).
    { rewrite Forall_forall in Hne. apply Hne.
      eapply list_elem_of_lookup_2. exact Hlk. }
    rewrite Hf. cbn [fr_url fr_chunk_index fr_chunk_count fr_id fr_contents].
    rewrite Hf in Hi, Hc. cbn [fr_chunk_index fr_contents] in Hi, Hc. auto. }
  unfold ledger. rewrite Hfu, Hfe.
  split; [|split; [|split; [|split; [|split]]]].
  - apply Forall_app. split.
    + eapply Forall_impl; [exact L1|]. cbv beta.
      intros f (A1 & A2 & A3 & A4 & A5 & r & Hr1 & Hr2 & Hr3).
      repeat split; try assumption; try lia.
      exists r. split; [|auto]. rewrite Hma. apply elem_of_app. left. exact Hr1.
    + rewrite Forall_forall. intros f Hf.
      rewrite Forall_forall in Hnew. destruct (Hnew f Hf) as (N1 & N2 & N3 & N4 & N5).
      rewrite N1, N4, id_page_chunk_record_id, N3.
      split; [exact Hu|]. split; [rewrite <- N3; exact N2|]. split; [reflexivity|].
      split; [lia|]. split; [exact N5|].
      exists row. split; [apply (Hrowin f Hf)|]. split; reflexivity.
  - rewrite map_app. apply NoDup_app. split; [exact L2|]. split.
    + intros i Hi1 Hi2.
      apply list_elem_of_fmap in Hi1 as (f & -> & Hf).
      apply list_elem_of_fmap in Hi2 as (g & Hg & Hgn).
      rewrite Forall_forall in L1. destruct (L1 f Hf) as (_ & _ & _ & A4 & _).
      rewrite Forall_forall in Hnew. destruct (Hnew g Hgn) as (_ & _ & _ & N4 & _).
      rewrite Hg, N4, id_page_chunk_record_id in A4. lia.
    + apply (NoDup_map_through fr_id fr_chunk_index); [|exact Hnd].
      intros x y Hx Hy Hxy. rewrite Forall_forall in Hnew.
      destruct (Hnew x Hx) as (_ & X2 & X3 & X4 & _).
      destruct (Hnew y Hy) as (_ & Y2 & Y3 & Y4 & _).
      rewrite X4, Y4 in Hxy. unfold chunk_record_id in Hxy.
      destruct (1 <? length chunks)%nat eqn:E.
      * injection Hxy as Hxy. exact Hxy.
      * apply Nat.ltb_ge in E. lia.
  - rewrite Hma. apply Forall_app. split.
    + eapply Forall_impl; [exact L3|]. cbv beta.
      intros r (p & Hr & Hp). exists p. split; [exact Hr | lia].
    + destruct chunks; [constructor|]. constructor; [|constructor].
      exists (page_id c0). split; [reflexivity | lia].
  - rewrite Hma, map_app. apply NoDup_app. split; [exact L4|]. split.
    + intros i Hi1 Hi2. destruct chunks; [inversion Hi2|].
      apply list_elem_of_fmap in Hi1 as (r & -> & Hr).
      apply list_elem_of_singleton in Hi2.
      rewrite Forall_forall in L3. destruct (L3 r Hr) as (p & Hp & Hpb).
      rewrite Hp in Hi2. cbn in Hi2. injection Hi2 as Hi2. lia.
    + destruct chunks; [constructor|]. apply NoDup_singleton.
  - rewrite Hma, map_app. destruct chunks.
    + rewrite app_nil_r. exact L5.
    + exact Hsub.
  - lia.
Qed.

Lemma ledger_step (cf : Config) (d : OutDir) (c c' : Crawler) (e : option exn) :
  NoDup (fetched c) -> (forall u, u ∈ fetched c -> u ∈ visited c) ->
  ledger cf d 0 c -> loop_body c = (c', e) ->
  ledger cf d 1 c' /\ (e = None -> ledger cf d 0 c').
Proof.
  intros Hnd Hvis HL Hb.
  assert (Hkeep : forall l, fw_full c' = fw_full c -> fw_mani c' = fw_mani c ->
                            page_id c' = page_id c -> fetched c' = fetched c ++ l ->
                            ledger cf d 1 c' /\ (e = None -> ledger cf d 0 c')).
  { intros l H1 H2 H3 H4. split; [|intros _];
      eapply (ledger_ext cf d 0 _ c c' l); eauto; lia. }
  destruct (loop_body_effect _ _ _ Hb) as [(Hq & -> & _) | (u & q & Hq & Hc)].
  { apply (Hkeep []); auto. rewrite app_nil_r. reflexivity. }
  destruct Hc as [(Hv & -> & _) | [(Hv & Hcf & -> & _) | [(Hv & Hcf & Hf & -> & _) | (Hv & Hcf & html & Hf & Hp)]]].
  - apply (Hkeep []); auto. rewrite app_nil_r. reflexivity.
  - apply (Hkeep []); auto. rewrite app_nil_r. reflexivity.
  - apply (Hkeep [u]); reflexivity.
  - destruct (process_page_effect _ _ _ _ _ Hp) as [(-> & He) | Hpp].
    { apply (Hkeep [u]); reflexivity. }
    assert (Hu : u ∉ fetched c) by (intros Hin; apply Hv, Hvis, Hin).
    assert (L0 : ledger cf d 0 (about_to_fetch u q c)).
    { eapply (ledger_ext cf d 0 0 c _ [u]); eauto; try reflexivity. }
    assert (Hsub : map mf_url (fw_mani (about_to_fetch u q c)) ++ [u]
                     `sublist_of` fetched (about_to_fetch u q c)).
    { cbn [about_to_fetch fw_mani fetched set_fetched set_stats set_visited set_queue].
      destruct HL as (_ & _ & _ & _ & L5 & _). apply sublist_app; [exact L5|reflexivity]. }
    assert (Hfresh : forall r, r ∈ fw_mani (about_to_fetch u q c) -> mf_url r <> u).
    { intros r Hr Heq. apply Hu. destruct HL as (_ & _ & _ & _ & L5 & _).
      eapply elem_of_sublist; [|exact L5].
      apply list_elem_of_fmap. exists r. split; [symmetry; exact Heq | exact Hr]. }
    assert (Hin : u ∈ fetched (about_to_fetch u q c)).
    { cbn. apply elem_of_app. right. left. }
    pose proof Hpp as Hpp'.
    destruct Hpp' as (_ & _ & _ & _ & _ & _ & _ & _ & _ & _ & _ & _ & _ & _ & _ & _ & _ & _ & _ & Hpid).
    destruct Hpid as [(Hp1 & He) | (Hp0 & He)].
    + assert (T : ledger cf d 0 c').
      { eapply ledger_page; eauto; lia. }
      split; [|intros _; exact T].
      eapply (ledger_ext cf d 0 1 c' c' []); eauto; [rewrite app_nil_r; reflexivity | lia].
    + split; [|intros E; contradiction].
      eapply ledger_page; eauto; lia.
Qed.

Lemma ledger_run (cf : Config) (d : OutDir) (fuel : nat) (o : Outcome) (c : Crawler) :
  crawl cf d fuel = Some o -> final_state o = Some c ->
  NoDup (fetched c) /\ ledger cf d 1 c
  /\ match o with Crashed _ _ => True | _ => ledger cf d 0 c end.
Proof.
  intros Hc Hf.
  set (bound := Z.of_nat (size (preloaded_urls cf d))).
  set (I := fun c => frontier_inv cf bound c /\ ledger cf d 0 c).
  assert (Hinit : forall c0, init_state cf d = Ok c0 -> I (seed_queue c0).1).
  { intros c0 Hi. destruct (crawl_seeded cf d c0 Hi)
      as (H1 & H2 & H3 & H4 & _ & H6 & _).
    unfold outputs_of in H6. injection H6 as _ Hfu _ Hm _.
    split.
    - unfold frontier_inv. rewrite H1, H2, H3.
      repeat split; [apply NoDup_nil_2 | intros u Hu; inversion Hu | subst bound; lia].
    - unfold ledger. rewrite Hfu, Hm, H3, H4. cbn [map].
      repeat split; try constructor; try apply NoDup_nil_2; lia. }
  assert (Hstep : forall c1 c' e, I c1 -> loop_test c1 = true -> loop_body c1 = (c', e) ->
                                  frontier_inv cf bound c' /\ ledger cf d 1 c'
                                  /\ (e = None -> ledger cf d 0 c')).
  { intros c1 c' e (HF & HL) Ht Hb.
    split; [eapply frontier_inv_step; eauto|].
    destruct HF as (_ & Hnd & Hsub & _). eapply ledger_step; eauto. }
  pose proof (crawl_outcome I cf d Hinit
                (fun c1 c' Hc1 Ht Hb =>
                   match Hstep c1 c' None Hc1 Ht Hb with
                   | conj HF (conj _ H0) => conj HF (H0 eq_refl)
                   end) fuel o Hc) as Ho.
  assert (Hup : forall c1, I c1 -> NoDup (fetched c1) /\ ledger cf d 1 c1).
  { intros c1 ((_ & Hnd & _) & HL). split; [exact Hnd|].
    eapply (ledger_ext cf d 0 1 c1 c1 []); eauto; [rewrite app_nil_r; reflexivity | lia]. }
  destruct o as [c'|c'|e [c'|]]; cbn in Hf; inversion Hf; subst.
  - destruct (Hup c Ho). destruct Ho. auto.
  - destruct (Hup c Ho). destruct Ho. auto.
  - destruct Ho as [Ho | (c0 & Hc0 & Ht & Hb)].
    + destruct (Hup c Ho). auto.
    + destruct (Hstep c0 c (Some e) Hc0 Ht Hb) as ((_ & Hnd & _) & HL & _). auto.
Qed.
End Ledger.



(** X13.  The rows a run adds to [manifest.csv] follow the order of the
    fetches and name each URL and each page id at most once; every record
    of the run has the row of its page.  A row may be left without a record
    when all the chunks of its page were duplicates. *)
Theorem manifest_rows_of_a_run {W : Capabilities} (cf : Config) (d : OutDir)
        (fuel : nat) (o : Outcome) (c : Crawler) :
  crawl cf d fuel = Some o ->
  final_state o = Some c ->
  map mf_url (fw_mani c) `sublist_of` fetched c
  /\ NoDup (map mf_url (fw_mani c))
  /\ NoDup (map mf_id (fw_mani c))
  /\ forall f, f ∈ fw_full c ->
       exists r, r ∈ fw_mani c /\ mf_url r = fr_url f
                 /\ mf_id r = PageId (id_page (fr_id f)).
Proof.
  intros Hc Hf.
  destruct (ledger_run cf d fuel o c Hc Hf) as (Hnd & (L1 & _ & _ & L4 & L5 & _) & _).
  split; [exact L5|]. split; [eapply sublist_NoDup; eauto|]. split; [exact L4|].
  intros f Hin. rewrite Forall_forall in L1.
  destruct (L1 f Hin) as (_ & _ & _ & _ & _ & Hr). exact Hr.
Qed.

Lemma manifest_rows_of_a_run_witness :
  exists o c,
    crawl (W := Site.world) (Site.config false 3) empty_dir 10 = Some o
    /\ final_state o = Some c
    /\ map mf_url (fw_mani c) = [Site.home; Site.page_x; Site.page_y]
    /\ map fr_url (fw_full c) = [Site.home; Site.page_y]
    /\ NoDup (map mf_url (fw_mani c)).
Proof.
  eexists. eexists.
  split; [vm_compute; reflexivity|].
  split; [reflexivity|].
  split; [vm_compute; reflexivity|].
  split; [vm_compute; reflexivity|].
  refine (proj1 (proj2 (manifest_rows_of_a_run (W := Site.world) (Site.config false 3)
                          empty_dir 10 _ _ _ _))).
  - vm_compute. reflexivity.
  - reflexivity.
Defined.

(** X14.  With [--resume], a manifest whose URLs are pairwise distinct
    stays so: whatever the run fetches and however it ends, [main] leaves
    the old rows in place and adds rows for new URLs only. *)
Theorem resume_keeps_manifest_urls_distinct {W : Capabilities} (cf : Config)
        (d d' : OutDir) (rows : list ManifestRow) (fuel : nat) (code : Z) :
  cfg_resume cf = true ->
  manifest_csv d = Some rows ->
  NoDup (map mf_url rows) ->
  main cf d fuel = Some (code, d') ->
  exists added,
    manifest_csv d' = Some (rows ++ added)
    /\ NoDup (map mf_url (rows ++ added)).
Proof.
  intros Hr Hm Hnd H. unfold main in H.
  destruct (crawl cf d fuel) as [o|] eqn:Hc; [|discriminate].
  cbn [option_map] in H. inversion H as [Hfin]; clear H.
  destruct (final_state o) as [c|] eqn:Hf.
  2:{ destruct o as [c|c|e [c|]]; try discriminate.
      cbn [finish] in Hfin. inversion Hfin; subst.
      exists []. rewrite app_nil_r. auto. }
  assert (Hd : manifest_csv d' = Some (rows ++ fw_mani c)).
  { destruct o as [c'|c'|e [c'|]]; cbn in Hf; inversion Hf; subst;
      cbn [finish] in Hfin; inversion Hfin; subst;
      cbn [write_stats flush_writers manifest_csv]; rewrite Hm; reflexivity. }
  exists (fw_mani c). split; [exact Hd|].
  destruct (ledger_run cf d fuel o c Hc Hf) as (Hndf & (_ & _ & _ & _ & L5 & _) & _).
  destruct (frontier_facts_run cf d fuel o c Hc Hf) as (_ & _ & _ & _ & Hp).
  assert (E : preloaded_urls cf d = list_to_set (map mf_url rows)).
  { unfold preloaded_urls. rewrite Hr, Hm. cbn [andb].
    rewrite bool_decide_eq_true_2 by eauto. reflexivity. }
  rewrite map_app. apply NoDup_app. split; [exact Hnd|]. split.
  - intros u Hu1 Hu2. apply (Hp u).
    + eapply elem_of_sublist; eauto.
    + rewrite E. apply elem_of_list_to_set. exact Hu1.
  - eapply sublist_NoDup; eauto.
Qed.

Lemma resume_keeps_manifest_urls_distinct_witness :
  exists rows d',
    manifest_csv Site.after_first_run = Some rows
    /\ map mf_url rows = [Site.home; Site.page_x]
    /\ main (W := Site.world) (Site.config true 5) Site.after_first_run 10 = Some (0, d')
    /\ map mf_url (existing (manifest_csv d')) = [Site.home; Site.page_x; Site.page_y]
    /\ exists added,
         manifest_csv d' = Some (rows ++ added)
         /\ NoDup (map mf_url (rows ++ added)).
Proof.
  eexists. eexists.
  split; [vm_compute; reflexivity|].
  split; [vm_compute; reflexivity|].
  split; [vm_compute; reflexivity|].
  split; [vm_compute; reflexivity|].
  apply (resume_keeps_manifest_urls_distinct (W := Site.world) (Site.config true 5)
           Site.after_first_run _ _ 10 0).
  - reflexivity.
  - vm_compute. reflexivity.
  - vm_compute. repeat constructor; rewrite list_elem_of_In; cbn; intuition discriminate.
  - vm_compute. reflexivity.
Defined.

(** ** Requests and where the records come from *)

Section Requests.
Context {W : Capabilities}.

Lemma fetch_some (n : nat) (u html : str) :
  fetch n u = Some html ->
  exists status, http_get n u = Ok (status, html) /\ 200 <= status < 300.
Proof.
  unfold fetch. destruct (http_get n u) as [[st body]|e]; [|discriminate].
  destruct (200 <=? st) eqn:E1; [|discriminate].
  destruct (st <? 300) eqn:E2; [|discriminate].
  cbn [andb]. intros H. inversion H; subst. exists st. split; [reflexivity|]. lia.
Qed.

Lemma failed_requests_app (urls : list str) (u : str) : forall (i : nat),
  failed_requests i (urls ++ [u])
  = failed_requests i urls
    + match fetch (i + length urls) u with Some _ => 0 | None => 1 end.
Proof.
  induction urls as [|v urls IH]; intros i; cbn [app failed_requests length].
  - rewrite Nat.add_0_r. lia.
  - rewrite IH. replace (S i + length urls)%nat with (i + S (length urls))%nat by lia. lia.
Qed.

Lemma failed_requests_step (c c' : Crawler) (e : option exn) :
  pages_failed (stats c) = failed_requests 0 (fetched c) ->
  loop_body c = (c', e) ->
  pages_failed (stats c') = failed_requests 0 (fetched c').
Proof.
  intros H Hb.
  destruct (loop_body_effect _ _ _ Hb) as [(Hq & -> & _) | (u & q & Hq & Hc)];
    [exact H|].
  destruct Hc as [(Hv & -> & _) | [(Hv & Hcf & -> & _) | [(Hv & Hcf & Hf & -> & _) | (Hv & Hcf & html & Hf & Hp)]]].
  - exact H.
  - exact H.
  - cbn. rewrite failed_requests_app. cbn [Nat.add]. rewrite Hf. lia.
  - assert (Ha : pages_failed (stats (about_to_fetch u q c))
                 = failed_requests 0 (fetched (about_to_fetch u q c))).
    { cbn. rewrite failed_requests_app. cbn [Nat.add]. rewrite Hf. lia. }
    destruct (process_page_effect _ _ _ _ _ Hp) as [(-> & He) | Hpp]; [exact Ha|].
    destruct Hpp as (rel & text & title & deduped & new & l & _ & _ & Hs & Hvi & Hfe
                     & Hqu & Hl & Hha & Hfu & Hrec & Hnd & Hma & Hst & Hpid).
    rewrite Hst, Hfe. cbn [pages_failed count_page]. exact Ha.
Qed.

Lemma extracted_from_more (cf : Config) (n m : nat) (f : FullRecord) :
  (n <= m)%nat -> extracted_from cf n f -> extracted_from cf m f.
Proof.
  intros Hnm (i & st & html & text & title & Hi & H).
  exists i, st, html, text, title. split; [lia | exact H].
Qed.

Lemma extracted_from_step (cf : Config) (c c' : Crawler) (e : option exn) :
  cfg c = cf ->
  Forall (extracted_from cf (length (fetched c))) (fw_full c) ->
  loop_body c = (c', e) ->
  Forall (extracted_from cf (length (fetched c'))) (fw_full c').
Proof.
  intros Hcf H Hb.
  assert (Hup : Forall (extracted_from cf (length (fetched c ++ [hd [] (queue c)])))
                       (fw_full c)).
  { eapply Forall_impl; [exact H|]. cbv beta. intros f.
    apply extracted_from_more. rewrite length_app. lia. }
  destruct (loop_body_effect _ _ _ Hb) as [(Hq & -> & _) | (u & q & Hq & Hc)];
    [exact H|].
  rewrite Hq in Hup. cbn [hd] in Hup.
  destruct Hc as [(Hv & -> & _) | [(Hv & Hcf' & -> & _) | [(Hv & Hcf' & Hf & -> & _) | (Hv & Hcf' & html & Hf & Hp)]]].
  - exact H.
  - exact H.
  - exact Hup.
  - destruct (process_page_effect _ _ _ _ _ Hp) as [(-> & He) | Hpp]; [exact Hup|].
    destruct Hpp as (rel & text & title & deduped & new & l & _ & Hex & Hs & Hvi & Hfe
                     & Hqu & Hl & Hha & Hfu & Hrec & Hnd & Hma & Hst & Hpid).
    rewrite Hfu, Hfe. apply Forall_app. split; [exact Hup|].
    eapply Forall_impl; [exact Hrec|]. cbv beta. intros f (Hi & Hlk & Hrf).
    destruct (fetch_some _ _ _ Hf) as (st & Hget & Hst2).
    unfold page_chunks in Hi, Hlk, Hrf.
    destruct (PyStr.truthy text) eqn:Et; [|cbn in Hi; lia].
    change (cfg (about_to_fetch u q c)) with (cfg c) in Hi, Hlk, Hrf.
    rewrite Hcf in Hi, Hlk, Hrf.
    exists (length (fetched c)), st, html, text, title.
    rewrite Hrf. cbn [fr_url fr_title fr_chunk_count fr_chunk_index fr_contents].
    rewrite Hrf in Hlk. cbn [fr_chunk_index fr_contents] in Hlk.
    split; [cbn; rewrite length_app; cbn; lia|].
    split; [exact Hget|]. split; [exact Hst2|]. split; [exact Hex|].
    split; [apply truthy_true, Et|]. split; [reflexivity|]. split; [reflexivity|].
    exact Hlk.
Qed.

Lemma requests_run (cf : Config) (d : OutDir) (fuel : nat) (o : Outcome) (c : Crawler) :
  crawl cf d fuel = Some o -> final_state o = Some c ->
  cfg c = cf
  /\ pages_failed (stats c) = failed_requests 0 (fetched c)
  /\ Forall (extracted_from cf (length (fetched c))) (fw_full c).
Proof.
  apply (crawl_invariant
           (fun c => cfg c = cf
                     /\ pages_failed (stats c) = failed_requests 0 (fetched c)
                     /\ Forall (extracted_from cf (length (fetched c))) (fw_full c))).
  - intros c0 Hi. destruct (crawl_seeded cf d c0 Hi)
      as (H1 & _ & H3 & _ & H5 & H6 & _).
    unfold outputs_of in H6. injection H6 as _ Hfu _ _ _.
    rewrite H1, H3, H5, Hfu. repeat split. constructor.
  - intros c1 c' e (H1 & H2 & H3) _ Hb.
    split; [|split].
    + destruct (loop_body_cases _ _ _ Hb) as (Hs & _).
      unfold settings_of in Hs. injection Hs as -> _ _ _. exact H1.
    + eapply failed_requests_step; eauto.
    + eapply extracted_from_step; eauto.
Qed.
End Requests.

(** ** Failed requests and provenance *)

(** X15.  A request that raises or is answered with a status outside
    [200, 300) does not end the run: it is counted, and [pages_failed] is at
    the end exactly the number of such requests among the URLs handed to
    [fetch], however the run ends. *)
Theorem pages_failed_counts_failed_requests {W : Capabilities} (cf : Config)
        (d : OutDir) (fuel : nat) (o : Outcome) (c : Crawler) :
  crawl cf d fuel = Some o ->
  final_state o = Some c ->
  pages_failed (stats c) = failed_requests 0 (fetched c).
Proof.
  intros Hc Hf. destruct (requests_run cf d fuel o c Hc Hf) as (_ & H & _). exact H.
Qed.

Lemma pages_failed_counts_failed_requests_witness :
  let cf := mkConfig (L "http://a/q/") 5 None None false true false 0 120 10
                     false false in
  exists o c,
    crawl (W := Site.world) cf empty_dir 10 = Some o
    /\ final_state o = Some c
    /\ o = Completed c
    /\ fetched c = [L "http://a/q/"]
    /\ pages_failed (stats c) = 1
    /\ pages_failed (stats c) = failed_requests (W := Site.world) 0 (fetched c).
Proof.
  intros cf. eexists. eexists.
  split; [vm_compute; reflexivity|].
  split; [reflexivity|].
  split; [reflexivity|].
  split; [vm_compute; reflexivity|].
  split; [vm_compute; reflexivity|].
  refine (pages_failed_counts_failed_requests (W := Site.world) cf empty_dir 10 _ _ _ _).
  - vm_compute. reflexivity.
  - reflexivity.
Defined.

(** X16.  Every record a run writes comes from a page it fetched: one of
    its requests to the record's URL was answered with a 2xx status, the
    extraction of that body gave a non-empty text and the record's title,
    and the record's text is the chunk of that text at the record's index,
    out of [chunk_count] chunks.  So a URL whose requests all fail, or
    whose text is empty, leaves no record. *)
Theorem records_come_from_fetched_pages {W : Capabilities} (cf : Config)
        (d : OutDir) (fuel : nat) (o : Outcome) (c : Crawler) (f : FullRecord) :
  crawl cf d fuel = Some o ->
  final_state o = Some c ->
  f ∈ fw_full c ->
  extracted_from cf (length (fetched c)) f.
Proof.
  intros Hc Hf Hin. destruct (requests_run cf d fuel o c Hc Hf) as (_ & _ & H).
  rewrite Forall_forall in H. apply H, Hin.
Qed.

Lemma records_come_from_fetched_pages_witness :
  exists o c f,
    crawl (W := Site.world) (Site.config false 3) empty_dir 10 = Some o
    /\ final_state o = Some c
    /\ fr_url f = Site.page_y /\ fr_contents f = L "gamma"
    /\ extracted_from (W := Site.world) (Site.config false 3) (length (fetched c)) f.
Proof.
  eexists. eexists.
  exists (mkFull (PageId 2) Site.page_y (L "Y") 0 1 (L "gamma") (L "gamma")).
  split; [vm_compute; reflexivity|].
  split; [reflexivity|].
  split; [reflexivity|].
  split; [reflexivity|].
  refine (records_come_from_fetched_pages (W := Site.world) (Site.config false 3)
            empty_dir 10 _ _ _ _ _ _).
  - vm_compute. reflexivity.
  - reflexivity.
  - vm_compute. apply list_elem_of_further, list_elem_of_here.
Defined.

(** ** The base URL and the page budget *)

Section BaseUrl.
Context {W : Capabilities}.


Lemma init_state_rejects (cf : Config) (d : OutDir) :
  (forall p, urlparse (cfg_base_url cf) = Ok p ->
             UrlLib.str_in (UrlLib.scheme p) ALLOWED_SCHEMES = false) ->
  exists e, init_state cf d = Raise e.
Proof.
  intros H. unfold init_state.
  destruct (urlparse (cfg_base_url cf)) as [p|e] eqn:Ep.
  - rewrite (normalize_url_unfold _ _ Ep), (H p eq_refl). cbn. eauto.
  - unfold normalize_url. rewrite Ep. cbn. eauto.
Qed.

Lemma frontier_inv_run (cf : Config) (d : OutDir) (fuel : nat) (o : Outcome)
      (c : Crawler) :
  crawl cf d fuel = Some o -> final_state o = Some c ->
  frontier_inv cf (Z.of_nat (size (preloaded_urls cf d))) c.
Proof.
  apply (crawl_invariant _ cf d).
  - intros c0 Hi. destruct (crawl_start cf d c0 Hi) as (H1 & H2 & H3 & _).
    unfold frontier_inv. rewrite H1, H2, H3.
    repeat split; [apply NoDup_nil_2 | intros u Hu; inversion Hu | lia].
  - intros. eapply frontier_inv_step; eauto.
Qed.
End BaseUrl.

(** X17.  A base URL that does not parse, or whose scheme is neither
    [http] nor [https], makes [Crawler(...)] raise before any file is
    opened: [main] exits with status 1 and the four output files are as
    they were. *)
Theorem invalid_base_url_exits_1 {W : Capabilities} (cf : Config) (d : OutDir)
        (fuel : nat) :
  (forall p, urlparse (cfg_base_url cf) = Ok p ->
             UrlLib.str_in (UrlLib.scheme p) ALLOWED_SCHEMES = false) ->
  (exists e, crawl cf d fuel = Some (Crashed e None))
  /\ main cf d fuel = Some (1, d).
Proof.
  intros H. destruct (init_state_rejects cf d H) as (e & He).
  unfold main, crawl. rewrite He. split; [eauto | reflexivity].
Qed.

Lemma invalid_base_url_exits_1_witness :
  let cf := mkConfig (L "ftp://a/") 5 None None false true false 0 120 10
                     false false in
  main (W := Site.world) cf Site.after_first_run 0 = Some (1, Site.after_first_run).
Proof.
  intros cf.
  refine (proj2 (invalid_base_url_exits_1 (W := Site.world) cf Site.after_first_run 0 _)).
  intros p Hp. vm_compute in Hp. inversion Hp; subst. reflexivity.
Defined.



(** X19.  The page budget of a run.  The URLs handed to [fetch] are at
    most [max_pages] less the URLs preloaded from the manifest, and none
    when the manifest already holds [max_pages] URLs or more. *)
Theorem fetches_within_budget {W : Capabilities} (cf : Config) (d : OutDir)
        (fuel : nat) (o : Outcome) (c : Crawler) :
  crawl cf d fuel = Some o ->
  final_state o = Some c ->
  size (visited c) = (size (preloaded_urls cf d) + length (fetched c))%nat
  /\ Z.of_nat (length (fetched c))
     <= Z.max 0 (cfg_max_pages cf - Z.of_nat (size (preloaded_urls cf d))).
Proof.
  intros Hc Hf.
  destruct (frontier_inv_run cf d fuel o c Hc Hf) as (_ & Hnd & _ & Hsz).
  destruct (frontier_facts_run cf d fuel o c Hc Hf) as (_ & _ & _ & Hv & Hp).
  assert (E : size (visited c) = (size (preloaded_urls cf d) + length (fetched c))%nat).
  { rewrite Hv, size_union.
    - rewrite size_list_to_set by exact Hnd. reflexivity.
    - intros u Hu1 Hu2. apply elem_of_list_to_set in Hu2. exact (Hp u Hu2 Hu1). }
  split; [exact E|]. lia.
Qed.

Lemma fetches_within_budget_witness :
  exists o c,
    crawl (W := Site.world) (Site.config true 3) Site.after_first_run 10 = Some o
    /\ final_state o = Some c
    /\ size (preloaded_urls (Site.config true 3) Site.after_first_run) = 2%nat
    /\ Z.of_nat (length (fetched c))
       <= Z.max 0 (3 - Z.of_nat (size (preloaded_urls (Site.config true 3)
                                                       Site.after_first_run))).
Proof.
  eexists. eexists.
  split; [vm_compute; reflexivity|].
  split; [reflexivity|].
  split; [vm_compute; reflexivity|].
  refine (proj2 (fetches_within_budget (W := Site.world) (Site.config true 3)
                   Site.after_first_run 10 _ _ _ _)).
  - vm_compute. reflexivity.
  - reflexivity.
Defined.

(** ** Why a run stops *)

Section Stopping.
Context {W : Capabilities}.

End Stopping.



(** ** The clean-up of the extracted text *)

Lemma is_blank_space : is_blank " " = true.
Proof. reflexivity. Qed.

Lemma is_blank_LF : is_blank LF = false.
Proof. reflexivity. Qed.

Lemma LF_not_blank (c : ascii) : Ascii.eqb c LF = true -> is_blank c = false.
Proof. intros H. apply Ascii.eqb_eq in H. subst c. reflexivity. Qed.

Lemma sub_blanks_single (s : str) : forall (b : bool),
  single_blanks b (sub_blanks b s) = true.
Proof.
  induction s as [|c s IH]; intros b; cbn [sub_blanks]; [reflexivity|].
  destruct (is_blank c) eqn:Ec.
  - destruct b; [apply IH|].
    cbn [single_blanks]. rewrite is_blank_space, IH. reflexivity.
  - cbn [single_blanks]. rewrite Ec. apply IH.
Qed.

Lemma single_blanks_fixed (s : str) : forall (b : bool),
  single_blanks b s = true -> sub_blanks b s = s.
Proof.
  induction s as [|c s IH]; intros b H; cbn [sub_blanks single_blanks] in *; [reflexivity|].
  destruct (is_blank c) eqn:Ec.
  - apply andb_prop in H as [H H3]. apply andb_prop in H as [H1 H2].
    apply Ascii.eqb_eq in H1. subst c. destruct b; [discriminate|].
    rewrite (IH true H3). reflexivity.
  - rewrite (IH false H). reflexivity.
Qed.

Lemma single_blanks_weaken (s : str) (b : bool) :
  single_blanks b s = true -> single_blanks false s = true.
Proof.
  destruct s as [|c s]; [reflexivity|]. cbn [single_blanks].
  destruct (is_blank c); [|auto]. intros H.
  apply andb_prop in H as [H H3]. apply andb_prop in H as [H1 H2].
  rewrite H1, H3. reflexivity.
Qed.

Lemma single_blanks_app (a : str) : forall (b : bool) (t : str),
  single_blanks b (a ++ t) = true -> single_blanks b a = true.
Proof.
  induction a as [|c a IH]; intros b t H; cbn [app single_blanks] in *; [reflexivity|].
  destruct (is_blank c).
  - apply andb_prop in H as [H H3]. rewrite H. cbn [andb]. eapply IH, H3.
  - eapply IH, H.
Qed.

Lemma single_blanks_lstrip (P : ascii -> bool) (s : str) : forall (b : bool),
  single_blanks b s = true -> single_blanks false (PyStr.lstrip_by P s) = true.
Proof.
  induction s as [|c s IH]; intros b H; cbn [PyStr.lstrip_by]; [reflexivity|].
  destruct (P c); [|eapply single_blanks_weaken, H].
  cbn [single_blanks] in H. destruct (is_blank c).
  - apply andb_prop in H as [_ H]. eapply IH, H.
  - eapply IH, H.
Qed.

Lemma single_blanks_strip (s : str) :
  single_blanks false s = true -> single_blanks false (PyStr.strip s) = true.
Proof.
  intros H. unfold PyStr.strip.
  pose proof (single_blanks_lstrip PyStr.isspace s false H) as H1.
  destruct (rstrip_by_prefix PyStr.isspace (PyStr.lstrip_by PyStr.isspace s)) as (t & Ht & _).
  rewrite Ht in H1. eapply single_blanks_app, H1.
Qed.

Lemma single_blanks_newlines (s : str) : forall (r : nat) (b : bool),
  (r = O \/ b = false) ->
  single_blanks b s = true -> single_blanks b (sub_newlines r s) = true.
Proof.
  induction s as [|c s IH]; intros r b Hr H; cbn [sub_newlines]; [reflexivity|].
  cbn [single_blanks] in H.
  destruct (Ascii.eqb c LF) eqn:Ec.
  - rewrite (LF_not_blank c Ec) in H.
    destruct (r <? 2)%nat eqn:Er.
    + cbn [single_blanks]. rewrite is_blank_LF. apply IH; auto.
    + destruct Hr as [-> | ->]; [discriminate|]. apply IH; auto.
  - cbn [single_blanks]. destruct (is_blank c).
    + apply andb_prop in H as [H H3]. rewrite H. cbn [andb]. apply IH; auto.
    + apply IH; auto.
Qed.

Lemma sub_newlines_short (s : str) : forall (r : nat),
  short_runs (Nat.min r 2) (sub_newlines r s) = true.
Proof.
  induction s as [|c s IH]; intros r; cbn [sub_newlines]; [reflexivity|].
  destruct (Ascii.eqb c LF) eqn:Ec.
  - destruct (r <? 2)%nat eqn:Er.
    + apply Nat.ltb_lt in Er. rewrite Nat.min_l by lia.
      cbn [short_runs]. change (Ascii.eqb LF LF) with true. cbv iota.
      specialize (IH (S r)). rewrite Nat.min_l in IH by lia. rewrite IH.
      apply Nat.ltb_lt in Er. rewrite Er. reflexivity.
    + apply Nat.ltb_ge in Er. rewrite Nat.min_r by lia.
      specialize (IH (S r)). rewrite Nat.min_r in IH by lia. exact IH.
  - cbn [short_runs]. rewrite Ec. apply (IH O).
Qed.

Lemma short_runs_fixed (s : str) : forall (r : nat),
  short_runs r s = true -> sub_newlines r s = s.
Proof.
  induction s as [|c s IH]; intros r H; cbn [sub_newlines short_runs] in *; [reflexivity|].
  destruct (Ascii.eqb c LF) eqn:Ec.
  - apply andb_prop in H as [H1 H2]. rewrite H1.
    apply Ascii.eqb_eq in Ec. subst c. rewrite (IH _ H2). reflexivity.
  - rewrite (IH _ H). reflexivity.
Qed.

Lemma short_runs_weaken (s : str) (r r' : nat) :
  (r' <= r)%nat -> short_runs r s = true -> short_runs r' s = true.
Proof.
  revert r r'. induction s as [|c s IH]; intros r r' Hr H; [reflexivity|].
  cbn [short_runs] in *. destruct (Ascii.eqb c LF); [|exact H].
  apply andb_prop in H as [H1 H2]. apply Nat.ltb_lt in H1.
  apply andb_true_intro. split; [apply Nat.ltb_lt; lia|].
  apply (IH (S r)); [lia | exact H2].
Qed.

Lemma short_runs_app (a : str) : forall (r : nat) (t : str),
  short_runs r (a ++ t) = true -> short_runs r a = true.
Proof.
  induction a as [|c a IH]; intros r t H; cbn [app short_runs] in *; [reflexivity|].
  destruct (Ascii.eqb c LF).
  - apply andb_prop in H as [H1 H2]. rewrite H1. cbn [andb]. eapply IH, H2.
  - eapply IH, H.
Qed.

Lemma short_runs_lstrip (P : ascii -> bool) (s : str) : forall (r : nat),
  short_runs r s = true -> short_runs O (PyStr.lstrip_by P s) = true.
Proof.
  induction s as [|c s IH]; intros r H; cbn [PyStr.lstrip_by]; [reflexivity|].
  destruct (P c); [|apply (short_runs_weaken _ r); [lia | exact H]].
  cbn [short_runs] in H. destruct (Ascii.eqb c LF).
  - apply andb_prop in H as [_ H]. eapply IH, H.
  - eapply IH, H.
Qed.

Lemma short_runs_strip (s : str) :
  short_runs O s = true -> short_runs O (PyStr.strip s) = true.
Proof.
  intros H. unfold PyStr.strip.
  pose proof (short_runs_lstrip PyStr.isspace s O H) as H1.
  destruct (rstrip_by_prefix PyStr.isspace (PyStr.lstrip_by PyStr.isspace s)) as (t & Ht & _).
  rewrite Ht in H1. eapply short_runs_app, H1.
Qed.

Lemma strip_strip (s : str) : PyStr.strip (PyStr.strip s) = PyStr.strip s.
Proof. apply (strip_space_strip [] s). reflexivity. Qed.

(** What [tidy_text] returns passes both checks. *)
Lemma tidy_text_clean (text : str) :
  single_blanks false (tidy_text text) = true
  /\ short_runs O (tidy_text text) = true.
Proof.
  unfold tidy_text. split.
  - apply single_blanks_strip, single_blanks_newlines; [auto|].
    apply sub_blanks_single.
  - apply short_runs_strip. apply (sub_newlines_short _ O).
Qed.

Lemma single_blanks_no_tab (s : str) : forall (b : bool),
  single_blanks b s = true -> PyStr.has_char TAB s = false.
Proof.
  induction s as [|c s IH]; intros b H; [reflexivity|].
  cbn [single_blanks] in H. unfold PyStr.has_char. cbn [existsb].
  fold (PyStr.has_char TAB s).
  destruct (is_blank c) eqn:Ec.
  - apply andb_prop in H as [H H3]. apply andb_prop in H as [H1 _].
    apply Ascii.eqb_eq in H1. subst c. rewrite (IH _ H3). reflexivity.
  - rewrite (IH _ H). unfold is_blank in Ec. apply orb_false_elim in Ec as [_ Ec].
    rewrite Ascii.eqb_sym, Ec. reflexivity.
Qed.

Lemma single_blanks_no_lead (s : str) :
  single_blanks true s = true -> PyStr.startswith (L " ") s = false.
Proof.
  destruct s as [|c s]; [reflexivity|]. cbn [single_blanks].
  destruct (is_blank c) eqn:Ec.
  - rewrite andb_false_r. discriminate.
  - intros _. unfold is_blank in Ec. apply orb_false_elim in Ec as [Ec _].
    cbn [L list_ascii_of_string PyStr.startswith].
    rewrite Ascii.eqb_sym, Ec. reflexivity.
Qed.

Lemma single_blanks_no_pair (s : str) : forall (b : bool),
  single_blanks b s = true -> PyStr.contains (L "  ") s = false.
Proof.
  induction s as [|c s IH]; intros b H; [reflexivity|].
  cbn [single_blanks] in H. cbn [PyStr.contains].
  destruct (is_blank c) eqn:Ec.
  - apply andb_prop in H as [_ H3]. rewrite (IH _ H3), orb_false_r.
    change (PyStr.startswith (L "  ") (c :: s))
      with (Ascii.eqb " " c && PyStr.startswith (L " ") s).
    rewrite (single_blanks_no_lead s H3). apply andb_false_r.
  - rewrite (IH _ H), orb_false_r.
    change (PyStr.startswith (L "  ") (c :: s))
      with (Ascii.eqb " " c && PyStr.startswith (L " ") s).
    unfold is_blank in Ec. apply orb_false_elim in Ec as [Ec _].
    rewrite Ascii.eqb_sym, Ec. reflexivity.
Qed.

Lemma short_runs_no_triple (s : str) : forall (r : nat),
  short_runs r s = true -> PyStr.contains [LF; LF; LF] s = false.
Proof.
  induction s as [|c s IH]; intros r H; [reflexivity|].
  cbn [PyStr.contains].
  assert (Hs : PyStr.contains [LF; LF; LF] s = false).
  { cbn [short_runs] in H. destruct (Ascii.eqb c LF).
    - apply andb_prop in H as [_ H]. eapply IH, H.
    - eapply IH, H. }
  rewrite Hs, orb_false_r.
  cbn [PyStr.startswith].
  destruct (Ascii.eqb LF c) eqn:E1; [|reflexivity].
  destruct s as [|c2 s]; [reflexivity|].
  destruct (Ascii.eqb LF c2) eqn:E2; [|reflexivity].
  destruct s as [|c3 s]; [reflexivity|].
  destruct (Ascii.eqb LF c3) eqn:E3; [|reflexivity].
  exfalso. cbn [short_runs] in H.
  rewrite Ascii.eqb_sym in E1, E2, E3. rewrite E1, E2, E3 in H.
  destruct r as [|[|r]]; cbn in H; discriminate.
Qed.

(** X21.  The text clean-up at the end of [extract_text_and_title]: the
    result holds no tab, no two spaces in a row and no three line feeds in
    a row, and neither starts nor ends with white space. *)
Theorem tidy_text_shape (text : str) :
  PyStr.has_char TAB (tidy_text text) = false
  /\ PyStr.contains (L "  ") (tidy_text text) = false
  /\ PyStr.contains [LF; LF; LF] (tidy_text text) = false
  /\ PyStr.strip (tidy_text text) = tidy_text text.
Proof.
  destruct (tidy_text_clean text) as [H1 H2].
  split; [eapply single_blanks_no_tab, H1|].
  split; [eapply single_blanks_no_pair, H1|].
  split; [eapply short_runs_no_triple, H2|].
  unfold tidy_text. apply strip_strip.
Qed.

(** X22.  The clean-up is idempotent: a text that went through it is left
    unchanged by a second pass. *)
Theorem tidy_text_idempotent (text : str) :
  tidy_text (tidy_text text) = tidy_text text.
Proof.
  destruct (tidy_text_clean text) as [H1 H2].
  unfold tidy_text at 1.
  rewrite (single_blanks_fixed _ _ H1), (short_runs_fixed _ _ H2).
  unfold tidy_text. apply strip_strip.
Qed.

Lemma chunk_text_nil_blank (text : str) (m ov : Z) :
  chunk_text text m ov = [] -> PyStr.strip text = [].
Proof.
  rewrite chunk_text_unfold. destruct (Z.leb_spec m 0) as [Hm|Hm].
  - destruct text; [reflexivity | discriminate].
  - intros H. destruct (fold_left _ _ _) as [chunks buf].
    destruct (if PyStr.truthy buf then chunks ++ [buf] else chunks);
      [|discriminate].
    destruct (PyStr.truthy (PyStr.strip text)) eqn:E; [discriminate|].
    apply truthy_false, E.
Qed.

(** X23.  A cleaned text that is not empty always gives at least one
    chunk, whatever the limit and the overlap: a page is left without
    records and without a manifest row only when its text is empty. *)
Theorem tidy_text_always_chunked (text : str) (m ov : Z) :
  tidy_text text <> [] -> chunk_text (tidy_text text) m ov <> [].
Proof.
  intros Hne H. apply Hne. apply chunk_text_nil_blank in H.
  unfold tidy_text in *. rewrite strip_strip in H. exact H.
Qed.

Lemma tidy_text_always_chunked_witness :
  tidy_text (L "a 	  b") = L "a b"
  /\ chunk_text (tidy_text (L "a 	  b")) 2 1 <> [].
Proof.
  split; [vm_compute; reflexivity|].
  apply tidy_text_always_chunked. vm_compute. discriminate.
Defined.
